(* ===== verification/_CoqProject ===== *)
-Q . S2P
Prelude.v
Board.v
Attack.v
MoveGen.v
AttackSpec.v
Kings.v
Apply.v
Legal.v
Position.v
Fen.v
Status.v
Session.v
Game.v
Reach.v
Play.v
Progress.v
Render.v
Page.v
Engine.v
Scenarios.v
