(* ===== verification/Prelude.v ===== *)
(** * ModernChessGUI rules engine: a verification development

  The program is [src/renderer.js], the renderer process of an Electron
  chess GUI.  Its algorithmic core is a chess rules engine written over
  module-level mutable state ([board], [turn], [castlingRights],
  [enPassantTarget], [halfmoveClock], [fullmoveNumber], [positionHistory]);
  the rest of the file is DOM rendering, click handling, modal dialogs,
  sounds and IPC with the host process.

  ** Parts of the program and how they interact

  - Board data (renderer.js 105-125, 225-261): an 8x8 array of two-letter
    tags ("wP", "bK", or "" for an empty square), with [inBounds],
    [getPiece], [getColor], [getType], [cloneBoard], [findKing].
  - Attack oracle (610-671): [isSquareAttacked], [isKingInCheck].
  - Move generator (467-608): [getPseudoMovesForPiece]; it reads the
    globals [castlingRights] and [enPassantTarget] and calls the oracle for
    castling.
  - Move applier (372-461): [applyMoveOnBoard], which performs the board
    mechanics always and the bookkeeping (clocks, castling rights, the
    en-passant target) only when [opts.isReal].
  - Legality filter (673-719): [generateLegalMovesForSquare] probes every
    pseudo-legal move on a cloned board, temporarily swapping the globals,
    and keeps the moves after which the mover's king is not attacked;
    [sideHasAnyLegalMove].
  - Position encoder (247-296): [coordToSquare], [coordToFENPiece],
    [boardToFEN].
  - Game status (302-352): [checkInsufficientMaterial], [checkRepetition],
    [checkGameOver].
  - Session and UI handlers (80-100, 146-220, 804-998): [resetBoardState],
    [finalizeMove], [onSquareClick], the promotion dialog, the engine-move
    handler and [maybeEngineMove]; they also write the page around the
    board: the start and stop buttons, the board's status class, the
    promotion options' piece images.
  - Top bar and theme (4-21, 128-140): the settings and start buttons
    forward to the host, the stop button ends the game; the host's theme
    message and the preferences read at load time set [data-theme].
  - Review mode (95-99, 764-779): variables the handlers only reset, and
    the annotation icons [renderBoard] draws from them.
  - Sounds (1003-1014): [playSound] picks a file and plays it.
  - Rendering (724-802): [renderBoard] rebuilds the 64 square elements from
    the state, each with a click listener calling [onSquareClick].

  ** Files of the development (in [_CoqProject] order)

  - [Prelude] (this file): the [chess_scope] notations, the tactics
    ([bool_to_prop], [case_if], [invc]), the [chess] hint databases, and the
    generic lemmas the components share: the 64 squares, decimal printing of
    [nat], the one-character [split] of JavaScript strings.
  - [Board]: colours, kinds and pieces as inductive types (the two-letter
    tags of the code, with the invalid ones unrepresentable), cells as
    [option Piece], the board as [list (list Cell)] read and written by
    index ([setCell] writes nothing out of range, as the code never does),
    the helpers of renderer.js 225-261, and [GameState], the record of the
    seven module-level engine variables with one setter per assignment.
  - [Attack]: [isSquareAttacked] and [isKingInCheck]; the [while] loop of a
    ray is [scanRay] with fuel.
  - [MoveGen]: [getPseudoMovesForPiece] per kind, castling included.
  - [AttackSpec]: attack by the movement rules of each kind, stated from
    the attacker's square ([attacks]), a definition of the specification
    that is not part of the program; and the link to the generator: a
    pseudo-legal move onto a square attacks it.
  - [Kings]: the squares holding a colour's king ([kingSquares], in the
    order of [findKing]) and their count, and [sameUpTo X], the boards
    that differ only in non-king pieces of [X], with the setoid instances
    and the [Proper] instance of the check test of [X].
  - [Apply]: [applyMoveOnBoard], returning the board, the engine state
    (changed only when [isReal]) and [{ piece, captured }].
  - [Legal]: [generateLegalMovesForSquare] as the code's loop, threading
    the engine state through the save, swap and restore of the globals;
    [legalMoves]; [sideHasAnyLegalMove].
  - [Position]: [commitMove], the engine state [finalizeMove] leaves
    (renderer.js 804-828), and [posInv], the invariant of a position of a
    game: 8x8 board, one king per colour, the side that has just moved not
    in check, a well-formed en-passant target, castling rights only with
    the king on its home square.
  - [Fen]: [boardToFEN] field by field, and a reference decoder of the
    placement field that is not part of the program.
  - [Status]: [checkInsufficientMaterial], [cleanFen], [checkRepetition],
    [checkGameOver], and an inductive statement of the status rules of
    section 4.4 of the specification.
  - [Session]: the session record (engine state, game mode, players, the
    engine's "thinking" flag, selection, last move, move list, pending
    promotion, the classes of the modal dialogs, the review variables, and
    [Dom], the rest of the page the handlers write), the effects sent to
    the host, the sounds and their files, [resetBoardState], and the
    session at load time.
  - [Game]: the handlers, each a function from the session and its input
    to the new session and the effects in order: [finalizeMove],
    [maybeEngineMove], [onSquareClick], [onPromotionChoice],
    [onCloseModal], [onEngineMove] (with its error outcomes),
    [startNewGameFromPayload], [endGameAndResetUI], the top-bar buttons,
    the theme message and the preferences.
  - [Reach]: the events and their dispatch [handle], the step relation
    [reachable] from the load-time session, and the session invariant.
  - [Play]: games of two people at the board ([humanGame]): clicks on the
    squares while the modal overlay is hidden, choices in the promotion
    dialog, the close button while the game-over dialog is shown.  These
    two conditions are the facts of the page's markup (the overlay covers
    the board) that the model takes from outside the sources.
  - [Progress]: what a game records as it goes (the move list, the
    position history, the clocks), and the progress of a game of two
    people.
  - [Engine]: games against an engine ([gameMode] is the engine mode):
    the turn guard of the click handler, the waiting state left by
    [maybeEngineMove], and the human side's clicks.
  - [Render]: [renderBoard] as the list of square elements its loops
    append (class lists, piece image, annotation icon, move dot, click
    coordinates), a view of the session that no handler reads.
  - [Page]: the page around the board ([Dom], the review variables) and
    its invariant over reachable sessions.
  - [Scenarios]: whole games played through the handlers.

  ** What the theorems show

  - The attack oracle (AttackSpec): [isSquareAttacked] holds exactly when
    some piece of the colour attacks the square by its movement rules.
  - Legality (Legal, MoveGen): a destination is legal exactly when it is
    pseudo-legal and the probe leaves the mover's king unattacked; the
    probe restores the engine state however many moves it tries;
    pseudo-legal destinations are on the board and never hold an own piece;
    castling is offered exactly under the code's five conditions.
  - Move application (Apply): the en-passant target lives one ply;
    castling rights only decrease; the clocks; the en-passant capture, the
    castling rook and promotion, each as a characterisation of the board.
  - Encoding and status (Fen, Status): the placement field is lossless on
    8x8 boards; the repetition key keeps exactly the first four fields;
    the encoding of the initial position; [checkGameOver] is equivalent to
    the rule-by-rule statement of the specification.
  - Sessions (Reach): in every session reachable by any sequence of events
    the board is 8x8, the destinations kept for the selection are the
    legality filter's, review mode is never entered, the dialog's
    "visible" class never changes (so the game-over guard of the click
    handler never fires), and a click commits only a legal move.
  - Positions (Position, Play): a legal move committed from a position of
    a game leaves a position of a game; hence in every session of a game
    of two people, from the new-game message on, each colour has exactly
    one king and the side that has just moved is not in check.  The
    legality probe runs with a queen as promotion piece; [sameUpTo] and
    the [Proper] instance carry its verdict to every promotion choice.
  - Progress (Progress): in every reachable session the halfmove clock is
    at most the number of recorded moves, the full-move number at most one
    more, and the history at least as long as the move list; in a game of
    two people the count is exact (n moves, n + 1 positions, full-move
    number 1 + n/2, White to move exactly when n is even); and a game does
    not get stuck: with the board uncovered and a legal move available, two
    clicks, and a promotion choice when the move promotes, commit it.
  - Engine games (Engine, Game): [onEngineMove] applies a reply exactly
    when its first four characters name two squares of the board, and
    otherwise only clears the thinking flag; in a reachable game against
    the engine a click commits only a legal move of a piece of the human's
    colour; a game against an engine started without an engine id, with
    the human playing Black, is stuck for good: nothing the players do
    moves it.
  - Rendering (Render): the board element has the 64 squares in loop
    order, each listening with its own on-board coordinates, with class
    lists free of repetition; in every reachable session a square shows a
    move dot exactly on the legal destinations of the selected piece, the
    selection class exactly on the selected square, and its piece's image;
    and a click on a square with a dot commits that legal move (or opens
    the promotion dialog for it).
  - The page (Page): in every reachable session the board's status class
    is "board-mate" exactly when the side to move is in check with no
    legal move and "board-check" exactly when it is in check otherwise;
    the stop button is shown exactly while a game is in progress; and the
    review variables never leave their reset values, so review annotations
    are never drawn.
  - Scenarios and findings: fool's mate, threefold repetition, en passant,
    stalemate and insufficient material played through the handlers; and
    where the code departs from the specification: engine replies are
    committed unchecked, the game-over click guard is dead so games go on
    after they end, a promotion that ends the game hides the result, and a
    promotion left pending across a new game is applied to the new board,
    where it can take a king in a game of two human players.

  ** Bounds and fuel

  Rows and columns are JavaScript numbers that the code offsets by negative
  deltas before testing [inBounds]; they are [Z].  The clocks only grow by
  one per move and are [nat].  The ray loop runs with fuel [rayFuel] = 8:
  every step moves one square in a unit direction and the loop stops when
  it leaves the board, so from any square next to the board eight steps
  suffice and more fuel changes nothing ([scanRay_fuel_enough]); the
  slider rays of the generator use the same fuel, proved enough the same
  way ([rayMoves_fuel_enough]).

  ** Not modelled

  The browser's playing of the [Audio] element: [playSound] changes no
  state of the page and catches its errors, so the model keeps its file
  and URL and the sound as an [Effect]; the text nodes and images of the
  dialogs other than the promotion icons' colour; and the host process,
  whose messages are the handlers' inputs and the [Effect] values.  The
  request for the preferences that [initTheme] sends at load time is not
  an [Effect]: the model starts from the load-time session and takes the
  answer as the event [EvPreferences]. *)

From stdpp Require Import base list decidable.
From Stdlib Require Import ZArith Lia String Ascii Decimal DecimalString DecimalNat.

Declare Scope chess_scope.
Delimit Scope chess_scope with chess.

(** ** Shared helpers *)

(** The loops [for (let r = 0; r < 8; r++)] of renderer.js. *)
Definition seq8 : list Z := seqZ 0 8.

(** The nested loops over rows then columns, in the order the code visits
    the squares. *)
Definition squares64 : list (Z * Z) := list_prod seq8 seq8.

(** [n.toString()] for a non-negative integer. *)
Definition string_of_nat (n : nat) : string :=
  NilZero.string_of_uint (Nat.to_uint n).

(** Boolean membership in a list of a type with decidable equality. *)
Notation "x ∈? l" := (bool_decide (x ∈ l)) (at level 70) : chess_scope.

(** ** Tactics *)

(** Turn boolean facts about [Z] comparisons and connectives into
    propositions, in the goal and the hypotheses. *)
Ltac bool_to_prop :=
  repeat match goal with
  | H : (_ && _)%bool = true |- _ => apply andb_true_iff in H as [? ?]
  | H : (_ || _)%bool = false |- _ => apply orb_false_iff in H as [? ?]
  | H : negb _ = true |- _ => apply negb_true_iff in H
  | H : negb _ = false |- _ => apply negb_false_iff in H
  | H : (_ <? _)%Z = true |- _ => apply Z.ltb_lt in H
  | H : (_ <? _)%Z = false |- _ => apply Z.ltb_ge in H
  | H : (_ <=? _)%Z = true |- _ => apply Z.leb_le in H
  | H : (_ <=? _)%Z = false |- _ => apply Z.leb_gt in H
  | H : (_ =? _)%Z = true |- _ => apply Z.eqb_eq in H
  | H : (_ =? _)%Z = false |- _ => apply Z.eqb_neq in H
  | H : bool_decide _ = true |- _ => apply bool_decide_eq_true in H
  | H : bool_decide _ = false |- _ => apply bool_decide_eq_false in H
  end.

(** Destruct the first [if] or [match] on a boolean test of the goal,
    remembering the equation. *)
Ltac case_if :=
  match goal with
  | |- context [if ?b then _ else _] =>
      let E := fresh "E" in destruct b eqn:E
  end.

(** Destruct every [if], option [match] and pair [match] in the type of
    [H], remembering the equations. *)
Ltac cases_in H :=
  repeat match type of H with
  | context [if ?x then _ else _] => let E := fresh "E" in destruct x eqn:E
  | context [match ?x with Some _ => _ | None => _ end] =>
      let E := fresh "E" in destruct x eqn:E
  | context [match ?x with (_, _) => _ end] => destruct x
  end.

Ltac invc H := inversion H; subst; clear H.

Create HintDb chess discriminated.
Create Rewrite HintDb chess_rw.

(** ** Generic lemmas *)

Lemma elem_of_seq8 (r : Z) : r ∈ seq8 <-> (0 <= r < 8)%Z.
Proof. unfold seq8. rewrite elem_of_seqZ. lia. Qed.

Lemma In_seq8 (r : Z) : In r seq8 <-> (0 <= r < 8)%Z.
Proof. rewrite <- list_elem_of_In. apply elem_of_seq8. Qed.

Lemma In_squares64 (r c : Z) :
  In (r, c) squares64 <-> (0 <= r < 8)%Z /\ (0 <= c < 8)%Z.
Proof. unfold squares64. rewrite in_prod_iff, !In_seq8. tauto. Qed.

#[export] Hint Rewrite In_seq8 In_squares64 : chess_rw.

(** [existsb] over the 64 squares finds a square exactly when one of the
    squares on the board satisfies the test. *)
Lemma existsb_squares64 (f : Z * Z -> bool) :
  existsb f squares64 = true <->
  exists r c, (0 <= r < 8)%Z /\ (0 <= c < 8)%Z /\ f (r, c) = true.
Proof.
  rewrite existsb_exists. split.
  - intros [[r c] [Hin Hf]]. apply In_squares64 in Hin as [Hr Hc].
    exists r, c. auto.
  - intros (r & c & Hr & Hc & Hf). exists (r, c).
    rewrite In_squares64. auto.
Qed.

Lemma to_uint_not_nil (n : nat) : Nat.to_uint n <> Decimal.Nil.
Proof.
  rewrite <- (DecimalNat.Unsigned.of_to n), DecimalNat.Unsigned.to_of.
  unfold Decimal.unorm. destruct (Decimal.nzhead _); discriminate.
Qed.

(** Decimal printing of the clocks is injective. *)
Lemma string_of_nat_inj (n m : nat) : string_of_nat n = string_of_nat m -> n = m.
Proof.
  unfold string_of_nat. intros H.
  apply (f_equal NilZero.uint_of_string) in H.
  rewrite !NilZero.usu in H by apply to_uint_not_nil.
  injection H as H. now apply DecimalNat.Unsigned.to_uint_inj in H.
Qed.

(** ** Strings *)

Local Open Scope string_scope.

(** Whether a character occurs in a string. *)
Fixpoint hasChar (a : ascii) (s : string) : bool :=
  match s with
  | EmptyString => false
  | String x r => Ascii.eqb x a || hasChar a r
  end.

(** [s.split(sep)] for a one-character separator, as JavaScript's
    [String.prototype.split]: the pieces between separators, empty pieces
    included. *)
Fixpoint splitOnAux (sep : ascii) (s cur : string) : list string :=
  match s with
  | EmptyString => [cur]
  | String ch rest =>
      if Ascii.eqb ch sep then cur :: splitOnAux sep rest EmptyString
      else splitOnAux sep rest (cur ++ String ch EmptyString)
  end.

Definition splitOn (sep : ascii) (s : string) : list string := splitOnAux sep s EmptyString.

Lemma string_app_nil_r (s : string) : s ++ "" = s.
Proof. induction s as [|x s IH]; simpl; congruence. Qed.

Lemma string_app_assoc (s t u : string) : s ++ (t ++ u) = (s ++ t) ++ u.
Proof. induction s as [|x s IH]; simpl; congruence. Qed.

Lemma hasChar_app (a : ascii) (s t : string) : hasChar a (s ++ t) = hasChar a s || hasChar a t.
Proof. induction s as [|x s IH]; simpl; [reflexivity|]. now rewrite IH, orb_assoc. Qed.

Lemma splitOnAux_noChar (sep : ascii) (s cur : string) :
  hasChar sep s = false -> splitOnAux sep s cur = [cur ++ s].
Proof.
  revert cur. induction s as [|x s IH]; intros cur H; simpl.
  - now rewrite string_app_nil_r.
  - simpl in H. apply orb_false_iff in H as [Hx Hs]. rewrite Hx, IH by exact Hs.
    now rewrite <- string_app_assoc.
Qed.

Lemma splitOnAux_app (sep : ascii) (s rest cur : string) :
  hasChar sep s = false ->
  splitOnAux sep (s ++ String sep rest) cur = (cur ++ s) :: splitOnAux sep rest "".
Proof.
  revert cur. induction s as [|x s IH]; intros cur H; simpl.
  - now rewrite Ascii.eqb_refl, string_app_nil_r.
  - simpl in H. apply orb_false_iff in H as [Hx Hs]. rewrite Hx, IH by exact Hs.
    now rewrite <- string_app_assoc.
Qed.

(** Splitting what [join(sep)] built gives the pieces back, when no piece
    contains the separator. *)
Lemma splitOn_concat (sep : ascii) (l : list string) :
  l <> [] -> Forall (fun s => hasChar sep s = false) l ->
  splitOn sep (String.concat (String sep EmptyString) l) = l.
Proof.
  unfold splitOn. induction l as [|s l IH]; intros Hne Hall; [congruence|].
  inversion Hall as [|? ? Hs Hl]; subst.
  destruct l as [|s' l].
  - simpl. now rewrite splitOnAux_noChar.
  - change (String.concat (String sep "") (s :: s' :: l))
      with (s ++ String sep (String.concat (String sep "") (s' :: l))).
    rewrite splitOnAux_app by exact Hs.
    rewrite IH by (congruence || exact Hl). reflexivity.
Qed.

(** A decimal digit. *)
Definition isDigit (a : ascii) : bool :=
  (48 <=? nat_of_ascii a)%nat && (nat_of_ascii a <=? 57)%nat.

Fixpoint allChars (f : ascii -> bool) (s : string) : bool :=
  match s with EmptyString => true | String x r => f x && allChars f r end.

Lemma allChars_hasChar (f : ascii -> bool) (a : ascii) (s : string) :
  f a = false -> allChars f s = true -> hasChar a s = false.
Proof.
  intros Ha. induction s as [|x s IH]; simpl; [reflexivity|].
  intros [Hx Hs]%andb_true_iff. rewrite IH by exact Hs.
  destruct (Ascii.eqb_spec x a); subst; [congruence|reflexivity].
Qed.

Lemma string_of_nat_digits (n : nat) : allChars isDigit (string_of_nat n) = true.
Proof.
  unfold string_of_nat, NilZero.string_of_uint.
  assert (H : forall d, allChars isDigit (NilEmpty.string_of_uint d) = true)
    by (induction d; simpl; auto).
  destruct (Nat.to_uint n); simpl; auto.
Qed.

Lemma allChars_impl (f g : ascii -> bool) (s : string) :
  (forall a, f a = true -> g a = true) -> allChars f s = true -> allChars g s = true.
Proof.
  intros Hfg. induction s as [|x s IH]; simpl; [reflexivity|].
  intros [Hx Hs]%andb_true_iff. now rewrite Hfg, IH.
Qed.

Lemma existsb_ext {A} (f g : A -> bool) (l : list A) :
  (forall x, f x = g x) -> existsb f l = existsb g l.
Proof. intros H. induction l as [|x l IH]; simpl; [reflexivity|]. now rewrite H, IH. Qed.

(** Changing a boolean test at one element of a duplicate-free list
    changes the number of elements it keeps by the difference at that
    element. *)
Lemma filter_length_update {A} `{EqDecision A} (f g : A -> bool) (l : list A) (x : A) :
  NoDup l -> In x l -> (forall y, y <> x -> f y = g y) ->
  (List.length (List.filter g l) + (if f x then 1 else 0)
   = List.length (List.filter f l) + (if g x then 1 else 0))%nat.
Proof.
  intros Hnd Hin Hfg. induction l as [|a l IH]; [destruct Hin|].
  inversion Hnd as [|? ? Ha Hnd0]; subst. rewrite list_elem_of_In in Ha. simpl.
  destruct (decide (a = x)) as [->|Hne].
  - assert (List.filter f l = List.filter g l) as ->.
    { apply filter_ext_in. intros y Hy. apply Hfg. intros ->. exact (Ha Hy). }
    destruct (f x), (g x); simpl; lia.
  - destruct Hin as [->|Hin]; [congruence|]. rewrite (Hfg a Hne).
    specialize (IH Hnd0 Hin). destruct (g a); simpl; lia.
Qed.

(** [find] returns the first element [filter] keeps. *)
Lemma find_filter {A} (f : A -> bool) (l : list A) : find f l = head (List.filter f l).
Proof. induction l as [|a l IH]; simpl; [reflexivity|]. now destruct (f a). Qed.

Lemma NoDup_squares64 : NoDup squares64.
Proof. apply (bool_decide_unpack _). vm_compute. reflexivity. Qed.

(** Half of the successor, for counting moves in pairs. *)
Lemma div2_S (n : nat) : Nat.div2 (S n) = if Nat.even n then Nat.div2 n else S (Nat.div2 n).
Proof.
  destruct (Nat.even n) eqn:E.
  - apply Nat.even_spec in E as [k ->]. now rewrite Nat.div2_succ_double, Nat.div2_double.
  - assert (Nat.odd n = true) as [k ->]%Nat.odd_spec by (unfold Nat.odd; now rewrite E).
    replace (S (2 * k + 1)) with (2 * S k) by lia. rewrite Nat.add_1_r.
    now rewrite Nat.div2_double, Nat.div2_succ_double.
Qed.
