(* ===== verification/Board.v ===== *)
(** * Board: the data of the rules engine

  Models renderer.js 86-125 (the module-level engine variables and the
  starting array) and 225-261, 358-368 (the board helpers).  The code keeps
  a piece as a two-letter string, colour then kind ("wP", "bK"), and an
  empty square as "".  Here a piece is a record of two enumerations and a
  square holds an [option Piece]; [getColor] and [getType] return [None]
  where the code returns [null].  The board is a list of rows read and
  written by index; [boardAt] is the raw access [b[row][col]] and
  [getPiece] the bounds-checked one.  A raw write [b[row][col] = v] with a
  negative index leaves the rows unchanged: the code only writes squares it
  has read from legal moves or bounds-checked coordinates. *)

From Stdlib Require Import ZArith Lia String Ascii.
From stdpp Require Import base list decidable.
From S2P Require Import Prelude.

Open Scope Z_scope.

(** ** Pieces *)

(** The first letter of a tag: "w" or "b". *)
Inductive Color := White | Black.

(** The second letter of a tag: "P", "N", "B", "R", "Q", "K". *)
Inductive Kind := Pawn | Knight | Bishop | Rook | Queen | King.

Record Piece := mkPiece { pcolor : Color; pkind : Kind }.

(** A square of the board: "" is [None]. *)
Abbreviation Cell := (option Piece).

(** A board is a list of rows (an abbreviation, so that stdpp's list
    lemmas apply to it directly). *)
Abbreviation Board := (list (list Cell)).

#[export] Instance Color_eq_dec : EqDecision Color.
Proof. solve_decision. Defined.
#[export] Instance Kind_eq_dec : EqDecision Kind.
Proof. solve_decision. Defined.
#[export] Instance Piece_eq_dec : EqDecision Piece.
Proof. solve_decision. Defined.

(** [color === "w" ? "b" : "w"] *)
Definition opp (c : Color) : Color :=
  match c with White => Black | Black => White end.

(** ** Board helpers (renderer.js 225-245) *)

Definition inBounds (row col : Z) : bool :=
  (0 <=? row) && (row <? 8) && (0 <=? col) && (col <? 8).

(** [b[row][col]] *)
Definition boardAt (b : Board) (row col : Z) : Cell :=
  if (row <? 0) || (col <? 0) then None
  else match b !! Z.to_nat row with
       | Some r => match r !! Z.to_nat col with Some x => x | None => None end
       | None => None
       end.

Definition getPiece (b : Board) (row col : Z) : Cell :=
  if inBounds row col then boardAt b row col else None.

(** [b[row][col] = v] *)
Definition setCell (b : Board) (row col : Z) (v : Cell) : Board :=
  if (row <? 0) || (col <? 0) then b
  else alter (fun r => <[Z.to_nat col := v]> r) (Z.to_nat row) b.

Definition getColor (p : Cell) : option Color :=
  match p with Some x => Some (pcolor x) | None => None end.

Definition getType (p : Cell) : option Kind :=
  match p with Some x => Some (pkind x) | None => None end.

(** [b.map(row => row.slice())]: arrays are values here, so the copy is
    the board itself, and writes to the copy cannot reach the original. *)
Definition cloneBoard (b : Board) : Board := map (fun row => row) b.

Definition wP := Some (mkPiece White Pawn).
Definition wN := Some (mkPiece White Knight).
Definition wB := Some (mkPiece White Bishop).
Definition wR := Some (mkPiece White Rook).
Definition wQ := Some (mkPiece White Queen).
Definition wK := Some (mkPiece White King).
Definition bP := Some (mkPiece Black Pawn).
Definition bN := Some (mkPiece Black Knight).
Definition bB := Some (mkPiece Black Bishop).
Definition bR := Some (mkPiece Black Rook).
Definition bQ := Some (mkPiece Black Queen).
Definition bK := Some (mkPiece Black King).
Definition ee : Cell := None.

(** renderer.js 108-117 *)
Definition initialPosition : Board :=
  [ [bR; bN; bB; bQ; bK; bB; bN; bR];
    [bP; bP; bP; bP; bP; bP; bP; bP];
    [ee; ee; ee; ee; ee; ee; ee; ee];
    [ee; ee; ee; ee; ee; ee; ee; ee];
    [ee; ee; ee; ee; ee; ee; ee; ee];
    [ee; ee; ee; ee; ee; ee; ee; ee];
    [wP; wP; wP; wP; wP; wP; wP; wP];
    [wR; wN; wB; wQ; wK; wB; wN; wR] ].

(** renderer.js 358-368: the first square, row by row, holding [color + "K"]. *)
Definition findKing (b : Board) (color : Color) : option (Z * Z) :=
  find (fun sq => bool_decide (boardAt b sq.1 sq.2 = Some (mkPiece color King)))
    squares64.

(** [n.toString()] for an integer of either sign. *)
Definition string_of_Z (z : Z) : string :=
  if z <? 0 then String "-" (string_of_nat (Z.to_nat (- z)))
  else string_of_nat (Z.to_nat z).

(** renderer.js 247-251: [String.fromCharCode(97 + col) + (8 - row)]. *)
Definition coordToSquare (row col : Z) : string :=
  String (ascii_of_nat (Z.to_nat (97 + col))) (string_of_Z (8 - row)).

(** ** The engine's module-level variables (renderer.js 86-93, 119-121) *)

Record CastlingRights := mkCastlingRights { cwK : bool; cwQ : bool; cbK : bool; cbQ : bool }.

#[export] Instance CastlingRights_eq_dec : EqDecision CastlingRights.
Proof. solve_decision. Defined.

(** [{ wK: true, wQ: true, bK: true, bQ: true }] *)
Definition allCastling : CastlingRights := mkCastlingRights true true true true.

Record GameState := mkGameState {
  board : Board;
  turn : Color;
  castlingRights : CastlingRights;
  enPassantTarget : option (Z * Z);
  halfmoveClock : nat;
  fullmoveNumber : nat;
  positionHistory : list string
}.

(** Assignments to one module-level variable. *)
Definition setBoard (g : GameState) (b : Board) : GameState :=
  mkGameState b (turn g) (castlingRights g) (enPassantTarget g)
    (halfmoveClock g) (fullmoveNumber g) (positionHistory g).
Definition setTurn (g : GameState) (c : Color) : GameState :=
  mkGameState (board g) c (castlingRights g) (enPassantTarget g)
    (halfmoveClock g) (fullmoveNumber g) (positionHistory g).
Definition setCastling (g : GameState) (cr : CastlingRights) : GameState :=
  mkGameState (board g) (turn g) cr (enPassantTarget g)
    (halfmoveClock g) (fullmoveNumber g) (positionHistory g).
Definition setEnPassant (g : GameState) (ep : option (Z * Z)) : GameState :=
  mkGameState (board g) (turn g) (castlingRights g) ep
    (halfmoveClock g) (fullmoveNumber g) (positionHistory g).
Definition setClocks (g : GameState) (half full : nat) : GameState :=
  mkGameState (board g) (turn g) (castlingRights g) (enPassantTarget g)
    half full (positionHistory g).
Definition setHistory (g : GameState) (h : list string) : GameState :=
  mkGameState (board g) (turn g) (castlingRights g) (enPassantTarget g)
    (halfmoveClock g) (fullmoveNumber g) h.

(** ** Well-formed boards: eight rows of eight squares *)

Definition boardWf (b : Board) : Prop := length b = 8%nat /\ Forall (fun r => length r = 8%nat) b.

#[export] Instance boardWf_dec b : Decision (boardWf b).
Proof. unfold boardWf. apply _. Defined.

(** ** Lemmas on the board helpers *)

Lemma inBounds_spec (r c : Z) : inBounds r c = true <-> 0 <= r < 8 /\ 0 <= c < 8.
Proof. unfold inBounds. rewrite !andb_true_iff, !Z.leb_le, !Z.ltb_lt. lia. Qed.

Lemma inBounds_false (r c : Z) : inBounds r c = false <-> ~ (0 <= r < 8 /\ 0 <= c < 8).
Proof. rewrite <- inBounds_spec. destruct (inBounds r c); intuition congruence. Qed.

Lemma getPiece_out (b : Board) (r c : Z) : inBounds r c = false -> getPiece b r c = None.
Proof. unfold getPiece. now intros ->. Qed.

Lemma getPiece_in (b : Board) (r c : Z) : inBounds r c = true -> getPiece b r c = boardAt b r c.
Proof. unfold getPiece. now intros ->. Qed.

Lemma getPiece_Some_inBounds (b : Board) (r c : Z) (p : Piece) :
  getPiece b r c = Some p -> inBounds r c = true.
Proof. unfold getPiece. destruct (inBounds r c); congruence. Qed.

Lemma opp_involutive (c : Color) : opp (opp c) = c.
Proof. now destruct c. Qed.

Lemma opp_neq (c : Color) : opp c <> c.
Proof. now destruct c. Qed.

Lemma cloneBoard_id (b : Board) : cloneBoard b = b.
Proof. unfold cloneBoard. apply map_id. Qed.

#[export] Hint Rewrite opp_involutive cloneBoard_id : chess_rw.
#[export] Hint Resolve getPiece_out getPiece_in opp_neq : chess.

Section SetCell.
Context (b : Board) (Hwf : boardWf b).

Lemma boardAt_setCell_eq (r c : Z) (v : Cell) :
  0 <= r < 8 -> 0 <= c < 8 -> boardAt (setCell b r c v) r c = v.
Proof.
  intros Hr Hc. destruct Hwf as [Hlen Hrows].
  unfold boardAt, setCell.
  replace ((r <? 0) || (c <? 0))%bool with false
    by (symmetry; apply orb_false_iff; split; apply Z.ltb_ge; lia).
  rewrite list_lookup_alter.
  destruct (b !! Z.to_nat r) as [row|] eqn:Hrow; simpl.
  - rewrite decide_True by reflexivity. simpl.
    assert (length row = 8%nat) as Hl.
    { eapply Forall_lookup_1 in Hrows; eauto. }
    rewrite list_lookup_insert_eq by lia. reflexivity.
  - apply lookup_ge_None in Hrow. lia.
Qed.

Lemma boardAt_setCell_ne (r c r' c' : Z) (v : Cell) :
  0 <= r -> 0 <= c -> 0 <= r' -> 0 <= c' -> (r, c) <> (r', c') ->
  boardAt (setCell b r c v) r' c' = boardAt b r' c'.
Proof.
  intros Hr Hc Hr' Hc' Hne. unfold boardAt, setCell.
  replace ((r <? 0) || (c <? 0))%bool with false
    by (symmetry; apply orb_false_iff; split; apply Z.ltb_ge; lia).
  destruct ((r' <? 0) || (c' <? 0))%bool; [reflexivity|].
  rewrite list_lookup_alter.
  case_decide as Heq.
  - rewrite <- Heq. destruct (b !! Z.to_nat r) as [row|]; simpl; [|reflexivity].
    rewrite list_lookup_insert_ne; [reflexivity|].
    intros Hc''. apply Hne. f_equal; lia.
  - reflexivity.
Qed.

Lemma setCell_wf (r c : Z) (v : Cell) : boardWf (setCell b r c v).
Proof.
  destruct Hwf as [Hlen Hrows]. unfold setCell.
  destruct ((r <? 0) || (c <? 0))%bool; [exact Hwf|].
  split; [now rewrite length_alter|].
  apply Forall_lookup_2. intros i row Hi.
  rewrite list_lookup_alter in Hi. case_decide; subst.
  - destruct (b !! Z.to_nat r) as [row0|] eqn:E; simplify_eq/=.
    rewrite length_insert. exact (Forall_lookup_1 _ _ _ _ Hrows E).
  - exact (Forall_lookup_1 _ _ _ _ Hrows Hi).
Qed.
End SetCell.

Lemma getPiece_setCell (b : Board) (r c r' c' : Z) (v : Cell) :
  boardWf b -> 0 <= r < 8 -> 0 <= c < 8 ->
  getPiece (setCell b r c v) r' c' =
    if bool_decide ((r, c) = (r', c')) then v else getPiece b r' c'.
Proof.
  intros Hwf Hr Hc. unfold getPiece.
  destruct (inBounds r' c') eqn:Hin.
  - apply inBounds_spec in Hin. case_bool_decide as Heq.
    + injection Heq as <- <-. now apply boardAt_setCell_eq.
    + apply boardAt_setCell_ne; auto; lia.
  - case_bool_decide as Heq; [|reflexivity].
    injection Heq as <- <-. apply inBounds_false in Hin. lia.
Qed.

Lemma initialPosition_wf : boardWf initialPosition.
Proof. unfold boardWf. repeat constructor. Qed.

#[export] Hint Resolve setCell_wf initialPosition_wf : chess.

(** Rewrite reads of written squares: [boardAt (setCell b r c v) r' c'],
    discharging the side conditions with the hints and [lia]. *)
Ltac pair_neq := let H := fresh in intros H; inversion H; lia.

Ltac cell_simpl :=
  repeat first
    [ rewrite boardAt_setCell_eq by (eauto with chess; lia)
    | rewrite boardAt_setCell_ne by (eauto with chess; first [lia | pair_neq]) ].
