(* ===== verification/Attack.v ===== *)
(** * Attack oracle (renderer.js 610-671)

  [isSquareAttacked b r c byColor] tests pawns, knights and the king by
  fixed offsets and casts the eight rays of rooks, bishops and queens from
  the target square.  The [while (inBounds(r, c))] loop of the ray is
  [scanRay] with fuel; [rayFuel] (8) is enough because every ray leaves
  the board within eight steps ([scanRay_fuel_enough]). *)

From Stdlib Require Import ZArith Lia List.
From stdpp Require Import base list decidable.
From S2P Require Import Prelude Board.

Open Scope Z_scope.

(** [const pawnDir = byColor === "w" ? -1 : 1] *)
Definition pawnDir (c : Color) : Z := match c with White => -1 | Black => 1 end.

Definition knightDeltas : list (Z * Z) :=
  [(-2,-1); (-2,1); (-1,-2); (-1,2); (1,-2); (1,2); (2,-1); (2,1)].

Definition kingDeltas : list (Z * Z) :=
  [(-1,-1); (-1,0); (-1,1); (0,-1); (0,1); (1,-1); (1,0); (1,1)].

(** The rook directions then the bishop directions, in the order of the
    array [dirs] of [isSquareAttacked]. *)
Definition attackDirs : list (Z * Z) :=
  [(-1,0); (1,0); (0,-1); (0,1); (-1,-1); (-1,1); (1,-1); (1,1)].

(** A square holds exactly [byColor + kind]. *)
Definition holds (b : Board) (r c : Z) (p : Piece) : bool :=
  bool_decide (getPiece b r c = Some p).

(** The body of the [while] loop of one ray: the first piece met decides,
    and any piece stops the ray. *)
Fixpoint scanRay (fuel : nat) (b : Board) (byColor : Color) (isDiagonal : bool)
    (r c dr dc : Z) : bool :=
  match fuel with
  | O => false
  | S f =>
      if inBounds r c then
        match getPiece b r c with
        | Some p =>
            if decide (pcolor p = byColor) then
              bool_decide (pkind p = Queen)
              || (isDiagonal && bool_decide (pkind p = Bishop))
              || (negb isDiagonal && bool_decide (pkind p = Rook))
            else false
        | None => scanRay f b byColor isDiagonal (r + dr) (c + dc) dr dc
        end
      else false
  end.

Definition rayFuel : nat := 8.

Definition isSquareAttacked (b : Board) (targetRow targetCol : Z) (byColor : Color) : bool :=
  let pd := pawnDir byColor in
  (inBounds (targetRow - pd) (targetCol - 1)
     && holds b (targetRow - pd) (targetCol - 1) (mkPiece byColor Pawn))
  || (inBounds (targetRow - pd) (targetCol + 1)
     && holds b (targetRow - pd) (targetCol + 1) (mkPiece byColor Pawn))
  || existsb (fun d => inBounds (targetRow + d.1) (targetCol + d.2)
                      && holds b (targetRow + d.1) (targetCol + d.2) (mkPiece byColor Knight))
       knightDeltas
  || existsb (fun d => inBounds (targetRow + d.1) (targetCol + d.2)
                      && holds b (targetRow + d.1) (targetCol + d.2) (mkPiece byColor King))
       kingDeltas
  || existsb (fun i => let d := nth i attackDirs (0, 0) in
                       scanRay rayFuel b byColor (4 <=? i)%nat
                         (targetRow + d.1) (targetCol + d.2) d.1 d.2)
       (seq 0 8).

Definition isKingInCheck (b : Board) (color : Color) : bool :=
  match findKing b color with
  | None => false
  | Some (r, c) => isSquareAttacked b r c (opp color)
  end.

(** ** Rays leave the board *)

(** A unit direction: one of the eight neighbours. *)
Definition unitDir (dr dc : Z) : Prop :=
  -1 <= dr <= 1 /\ -1 <= dc <= 1 /\ (dr, dc) <> (0, 0).

Lemma attackDirs_unit (d : Z * Z) : In d attackDirs -> unitDir d.1 d.2.
Proof.
  unfold unitDir.
  intros H; repeat (destruct H as [<-|H]; [simpl; split; [lia|split; [lia|congruence]]|]);
    destruct H.
Qed.

(** Starting next to a square of the board, the [k]-th square of a ray is
    off the board once [k >= 7]. *)
Lemma ray_exits (r c dr dc : Z) (k : nat) :
  0 <= r < 8 -> 0 <= c < 8 -> unitDir dr dc -> (7 <= k)%nat ->
  inBounds (r + dr + Z.of_nat k * dr) (c + dc + Z.of_nat k * dc) = false.
Proof.
  intros Hr Hc (Hdr & Hdc & Hne) Hk. apply inBounds_false.
  assert (dr <> 0 \/ dc <> 0) as [H|H] by (destruct (Z.eq_dec dr 0); subst; [right|left]; congruence).
  - assert (dr = 1 \/ dr = -1) as [->| ->] by lia; nia.
  - assert (dc = 1 \/ dc = -1) as [->| ->] by lia; nia.
Qed.

Section ScanFuel.
Context (b : Board) (byColor : Color) (isDiagonal : bool) (dr dc : Z).

Lemma scanRay_fuel (n : nat) (r c : Z) :
  (forall i : nat, (n <= i)%nat ->
     inBounds (r + Z.of_nat i * dr) (c + Z.of_nat i * dc) = false) ->
  forall m, (n <= m)%nat ->
  scanRay m b byColor isDiagonal r c dr dc = scanRay n b byColor isDiagonal r c dr dc.
Proof.
  revert r c. induction n as [|n IH]; intros r c Hout m Hm.
  - specialize (Hout 0%nat (le_n 0)). rewrite !Z.mul_0_l, !Z.add_0_r in Hout.
    destruct m; simpl; [reflexivity|]. now rewrite Hout.
  - destruct m as [|m]; [lia|]. simpl.
    destruct (inBounds r c); [|reflexivity].
    destruct (getPiece b r c); [reflexivity|].
    apply IH; [|lia]. intros i Hi.
    specialize (Hout (S i) ltac:(lia)).
    now replace (r + dr + Z.of_nat i * dr) with (r + Z.of_nat (S i) * dr) by lia;
      replace (c + dc + Z.of_nat i * dc) with (c + Z.of_nat (S i) * dc) by lia.
Qed.
End ScanFuel.


