(* ===== verification/MoveGen.v ===== *)
(** * Move generator (renderer.js 467-608)

  [getPseudoMovesForPiece] lists the destinations of the piece on a square
  ignoring whether the mover's own king is left attacked.  It reads the
  module-level [castlingRights] and [enPassantTarget], so it takes the
  engine state [g] besides the board it inspects; the castling branch
  calls the attack oracle.  Each piece kind is one definition, in the order
  the code pushes destinations; the ray of bishops, rooks and queens is
  [rayMoves] with the fuel [rayFuel] of the attack oracle. *)

From Stdlib Require Import ZArith Lia List.
From stdpp Require Import base list decidable.
From S2P Require Import Prelude Board Attack.

Open Scope Z_scope.

(** A destination [{ toRow, toCol }]. *)
Abbreviation Dest := (Z * Z)%type.

(** [const startRank = color === "w" ? 6 : 1] *)
Definition startRank (c : Color) : Z := match c with White => 6 | Black => 1 end.

(** [getColor(target) !== color]: true on an empty square. *)
Definition notOwn (t : Cell) (color : Color) : bool :=
  negb (bool_decide (getColor t = Some color)).

(** Lines 474-512. *)
Definition pawnMoves (g : GameState) (b : Board) (row col : Z) (color : Color) : list Dest :=
  let dir := pawnDir color in
  let oneStep := row + dir in
  let forward :=
    if inBounds oneStep col && bool_decide (getPiece b oneStep col = None) then
      (oneStep, col) ::
        (if (row =? startRank color) && bool_decide (getPiece b (row + 2 * dir) col = None)
         then [(row + 2 * dir, col)] else [])
    else [] in
  let captures :=
    flat_map (fun cc =>
      let rr := row + dir in
      if inBounds rr cc then
        match getPiece b rr cc with
        | Some t => if notOwn (Some t) color then [(rr, cc)] else []
        | None => []
        end
      else []) [col - 1; col + 1] in
  let enPassant :=
    match enPassantTarget g with
    | Some (epRow, epCol) =>
        if (epRow =? row + dir) && (Z.abs (epCol - col) =? 1) then
          match getPiece b row epCol with
          | Some adj =>
              if bool_decide (pkind adj = Pawn) && negb (bool_decide (pcolor adj = color))
              then [(epRow, epCol)] else []
          | None => []
          end
        else []
    | None => []
    end in
  forward ++ captures ++ enPassant.

(** The offset loops of knights and kings (lines 519-527 and 563-571). *)
Definition stepMoves (b : Board) (row col : Z) (color : Color) (deltas : list (Z * Z)) : list Dest :=
  flat_map (fun d =>
    let r := row + d.1 in
    let c := col + d.2 in
    if inBounds r c then
      if notOwn (getPiece b r c) color then [(r, c)] else []
    else []) deltas.

(** The [while] loop of one ray (lines 541-553). *)
Fixpoint rayMoves (fuel : nat) (b : Board) (color : Color) (r c dr dc : Z) : list Dest :=
  match fuel with
  | O => []
  | S f =>
      if inBounds r c then
        match getPiece b r c with
        | None => (r, c) :: rayMoves f b color (r + dr) (c + dc) dr dc
        | Some t => if notOwn (Some t) color then [(r, c)] else []
        end
      else []
  end.

Definition diagDirs : list (Z * Z) := [(-1,-1); (-1,1); (1,-1); (1,1)].
Definition orthDirs : list (Z * Z) := [(-1,0); (1,0); (0,-1); (0,1)].

(** Lines 531-537: the directions pushed for a bishop, rook or queen. *)
Definition slideDirs (k : Kind) : list (Z * Z) :=
  (if bool_decide (k = Bishop) || bool_decide (k = Queen) then diagDirs else [])
  ++ (if bool_decide (k = Rook) || bool_decide (k = Queen) then orthDirs else []).

Definition slideMoves (b : Board) (row col : Z) (color : Color) (k : Kind) : list Dest :=
  flat_map (fun d => rayMoves rayFuel b color (row + d.1) (col + d.2) d.1 d.2) (slideDirs k).

(** [color === "w" ? castlingRights.wK : castlingRights.bK] and the same
    for the queen side. *)
Definition kingSideRight (cr : CastlingRights) (c : Color) : bool :=
  match c with White => cwK cr | Black => cbK cr end.
Definition queenSideRight (cr : CastlingRights) (c : Color) : bool :=
  match c with White => cwQ cr | Black => cbQ cr end.

(** [const rank = color === "w" ? 7 : 0] *)
Definition homeRank (c : Color) : Z := match c with White => 7 | Black => 0 end.

Definition isEmpty (b : Board) (r c : Z) : bool := bool_decide (getPiece b r c = None).

(** Lines 575-604. *)
Definition castlingMoves (g : GameState) (b : Board) (color : Color) : list Dest :=
  if negb (isKingInCheck b color) then
    let rank := homeRank color in
    let enemy := opp color in
    let cr := castlingRights g in
    let kingside :=
      if kingSideRight cr color then
        if isEmpty b rank 5 && isEmpty b rank 6 then
          if negb (isSquareAttacked b rank 5 enemy) then
            if bool_decide (getPiece b rank 7 = Some (mkPiece color Rook))
            then [(rank, 6)] else []
          else []
        else []
      else [] in
    let queenside :=
      if queenSideRight cr color then
        if isEmpty b rank 1 && isEmpty b rank 2 && isEmpty b rank 3 then
          if negb (isSquareAttacked b rank 3 enemy) then
            if bool_decide (getPiece b rank 0 = Some (mkPiece color Rook))
            then [(rank, 2)] else []
          else []
        else []
      else [] in
    kingside ++ queenside
  else [].

Definition getPseudoMovesForPiece (g : GameState) (b : Board) (row col : Z) : list Dest :=
  match getPiece b row col with
  | None => []
  | Some p =>
      let color := pcolor p in
      match pkind p with
      | Pawn => pawnMoves g b row col color
      | Knight => stepMoves b row col color knightDeltas
      | Bishop | Rook | Queen => slideMoves b row col color (pkind p)
      | King => stepMoves b row col color kingDeltas ++ castlingMoves g b color
      end
  end.

(** ** Soundness of the destinations *)

(** A destination is on the board and not occupied by the mover's colour. *)
Definition destOk (b : Board) (color : Color) (d : Dest) : Prop :=
  inBounds d.1 d.2 = true /\ notOwn (getPiece b d.1 d.2) color = true.

(** The en-passant target, when set, is an empty square of the board. *)
Definition epWf (g : GameState) (b : Board) : Prop :=
  match enPassantTarget g with
  | Some (r, c) => inBounds r c = true /\ getPiece b r c = None
  | None => True
  end.

Lemma notOwn_empty (color : Color) : notOwn None color = true.
Proof. reflexivity. Qed.

#[export] Hint Resolve notOwn_empty : chess.

Lemma In_stepMoves b row col color ds d :
  In d (stepMoves b row col color ds) <->
  exists dl, In dl ds /\ d = (row + dl.1, col + dl.2)
             /\ inBounds d.1 d.2 = true /\ notOwn (getPiece b d.1 d.2) color = true.
Proof.
  unfold stepMoves. rewrite in_flat_map. split.
  - intros (dl & Hin & H). exists dl.
    destruct (inBounds _ _) eqn:Hb; [|destruct H].
    destruct (notOwn _ _) eqn:Hn; [|destruct H].
    destruct H as [<-|[]]. auto.
  - intros (dl & Hin & -> & Hb & Hn). exists dl. split; [assumption|].
    simpl in *. rewrite Hb, Hn. now left.
Qed.

Lemma rayMoves_sound n b color r c dr dc d :
  In d (rayMoves n b color r c dr dc) -> destOk b color d.
Proof.
  revert r c. induction n as [|n IH]; intros r c; simpl; [intros []|].
  destruct (inBounds r c) eqn:Hb; [|intros []].
  destruct (getPiece b r c) as [t|] eqn:Ht.
  - destruct (notOwn (Some t) color) eqn:Hn; [|intros []].
    intros [<-|[]]. unfold destOk. simpl. now rewrite Ht.
  - intros [<-|H]; [|now apply IH in H].
    unfold destOk. simpl. now rewrite Ht.
Qed.

Lemma pawnMoves_sound g b row col color d :
  epWf g b -> In d (pawnMoves g b row col color) -> destOk b color d.
Proof.
  intros Hep. unfold pawnMoves. rewrite !in_app_iff.
  intros [Hf|[Hc|He]].
  - destruct (inBounds _ _ && _)%bool eqn:E1; [|destruct Hf].
    apply andb_true_iff in E1 as [Hb Hemp]. apply bool_decide_eq_true in Hemp.
    destruct Hf as [<-|Hf]; [split; simpl; [assumption|now rewrite Hemp]|].
    destruct ((row =? startRank color) && _)%bool eqn:E2; [|destruct Hf].
    apply andb_true_iff in E2 as [Hs Hemp2].
    apply Z.eqb_eq in Hs. apply bool_decide_eq_true in Hemp2.
    destruct Hf as [<-|[]]. split; [|simpl; now rewrite Hemp2].
    apply inBounds_spec. apply inBounds_spec in Hb. destruct color; simpl in *; lia.
  - apply in_flat_map in Hc as (cc & _ & Hc).
    destruct (inBounds _ _) eqn:Hb; [|destruct Hc].
    destruct (getPiece b _ cc) as [t|] eqn:Ht; [|destruct Hc].
    destruct (notOwn _ _) eqn:Hn; [|destruct Hc].
    destruct Hc as [<-|[]]. split; simpl; [assumption|now rewrite Ht].
  - unfold epWf in Hep. destruct (enPassantTarget g) as [[er ec]|]; [|destruct He].
    destruct (_ && _)%bool; [|destruct He].
    destruct (getPiece b row ec); [|destruct He].
    destruct (_ && _)%bool; [|destruct He].
    destruct He as [<-|[]]. destruct Hep as [Hb He]. split; simpl; [assumption|now rewrite He].
Qed.

(** The three ways a pawn moves: straight ahead onto empty squares (one
    row, or two with the square between empty), diagonally onto an
    occupied square, or diagonally onto the en-passant target beside an
    enemy pawn. *)
Lemma pawnMoves_cases g b fr fc X tr tc :
  In (tr, tc) (pawnMoves g b fr fc X) ->
  (tc = fc /\ getPiece b tr tc = None
   /\ (tr = fr + pawnDir X
       \/ (tr = fr + 2 * pawnDir X /\ fr = startRank X /\ getPiece b (fr + pawnDir X) fc = None)))
  \/ (tr = fr + pawnDir X /\ (tc = fc - 1 \/ tc = fc + 1) /\ getPiece b tr tc <> None)
  \/ (tr = fr + pawnDir X /\ (tc = fc - 1 \/ tc = fc + 1) /\ enPassantTarget g = Some (tr, tc)
      /\ exists adj, getPiece b fr tc = Some adj /\ pkind adj = Pawn /\ pcolor adj <> X).
Proof.
  unfold pawnMoves. rewrite !in_app_iff. intros [Hf|[Hc|He]].
  - left. cases_in Hf; bool_to_prop; simpl in Hf; try contradiction.
    all: repeat destruct Hf as [Hf|Hf]; try contradiction; injection Hf as <- <-; auto 10.
  - right; left. apply in_flat_map in Hc as (cc & Hcc & Hc). cases_in Hc; simpl in Hc;
      try contradiction. destruct Hc as [Hc|[]]. injection Hc as <- <-.
    simpl in Hcc. split; [reflexivity|]. split; [lia|congruence].
  - right; right. cases_in He; simpl in He; try contradiction. destruct He as [He|[]].
    injection He as <- <-. bool_to_prop. subst. split; [reflexivity|]. split; [lia|].
    split; [reflexivity|]. eexists; eauto.
Qed.

Lemma castlingMoves_sound g b color d :
  In d (castlingMoves g b color) -> destOk b color d /\ d.1 = homeRank color.
Proof.
  unfold castlingMoves.
  destruct (negb _); [|intros []]. rewrite in_app_iff.
  assert (Hr : 0 <= homeRank color < 8) by (destruct color; simpl; lia).
  intros [H|H];
    repeat match type of H with
    | context [if ?cnd then _ else _] => let E := fresh "E" in destruct cnd eqn:E; [|destruct H]
    end;
    destruct H as [<-|[]]; unfold isEmpty in *; bool_to_prop; unfold destOk; simpl;
    (split; [split; [apply inBounds_spec; lia|]|reflexivity]);
    match goal with H : getPiece _ _ ?c = None |- context [getPiece _ _ ?c] => now rewrite H end.
Qed.

(** Every pseudo-legal destination is on the board and not occupied by
    the mover's colour. *)
Lemma pseudoMoves_destOk g b row col p d :
  epWf g b -> getPiece b row col = Some p ->
  In d (getPseudoMovesForPiece g b row col) -> destOk b (pcolor p) d.
Proof.
  intros Hep Hp. unfold getPseudoMovesForPiece. rewrite Hp.
  destruct (pkind p).
  - now apply pawnMoves_sound.
  - intros (dl & _ & -> & Hb & Hn)%In_stepMoves. split; assumption.
  - intros (dl & _ & Hin)%in_flat_map. eapply rayMoves_sound; eauto.
  - intros (dl & _ & Hin)%in_flat_map. eapply rayMoves_sound; eauto.
  - intros (dl & _ & Hin)%in_flat_map. eapply rayMoves_sound; eauto.
  - rewrite in_app_iff. intros [(dl & _ & -> & Hb & Hn)%In_stepMoves|H].
    + split; assumption.
    + now apply castlingMoves_sound in H.
Qed.

(** C4: every pseudo-legal destination is a square of the board that does
    not hold a piece of the mover's colour, provided the en-passant target
    (when set) is an empty square of the board. *)
Theorem pseudoMoves_sound g b row col p d :
  epWf g b -> getPiece b row col = Some p ->
  In d (getPseudoMovesForPiece g b row col) -> destOk b (pcolor p) d.
Proof. exact (pseudoMoves_destOk g b row col p d). Qed.

Lemma pseudoMoves_sound_witness :
  let g := mkGameState initialPosition White allCastling None 0 1 [] in
  epWf g initialPosition /\ getPiece initialPosition 7 6 = Some (mkPiece White Knight)
  /\ In (5, 5) (getPseudoMovesForPiece g initialPosition 7 6)
  /\ destOk initialPosition White (5, 5).
Proof.
  simpl. split; [exact I|]. split; [reflexivity|].
  assert (Hin : In (5, 5) (getPseudoMovesForPiece
                 (mkGameState initialPosition White allCastling None 0 1 []) initialPosition 7 6))
    by (vm_compute; auto).
  split; [exact Hin|].
  exact (pseudoMoves_sound (mkGameState initialPosition White allCastling None 0 1 [])
           initialPosition 7 6 (mkPiece White Knight) (5, 5) I eq_refl Hin).
Defined.

(** ** Castling *)

(** The conditions of lines 580-590 for the king side. *)
Definition kingSideOk (g : GameState) (b : Board) (c : Color) : Prop :=
  isKingInCheck b c = false /\ kingSideRight (castlingRights g) c = true
  /\ getPiece b (homeRank c) 5 = None /\ getPiece b (homeRank c) 6 = None
  /\ isSquareAttacked b (homeRank c) 5 (opp c) = false
  /\ getPiece b (homeRank c) 7 = Some (mkPiece c Rook).

(** The conditions of lines 593-603 for the queen side. *)
Definition queenSideOk (g : GameState) (b : Board) (c : Color) : Prop :=
  isKingInCheck b c = false /\ queenSideRight (castlingRights g) c = true
  /\ getPiece b (homeRank c) 1 = None /\ getPiece b (homeRank c) 2 = None
  /\ getPiece b (homeRank c) 3 = None
  /\ isSquareAttacked b (homeRank c) 3 (opp c) = false
  /\ getPiece b (homeRank c) 0 = Some (mkPiece c Rook).

Lemma In_castlingMoves g b c d :
  In d (castlingMoves g b c) <->
  (d = (homeRank c, 6) /\ kingSideOk g b c) \/ (d = (homeRank c, 2) /\ queenSideOk g b c).
Proof.
  unfold castlingMoves, kingSideOk, queenSideOk, isEmpty.
  destruct (isKingInCheck b c); simpl; [split; [intros []|intuition congruence]|].
  rewrite in_app_iff.
  destruct (kingSideRight _ _), (queenSideRight _ _);
    repeat case_if; bool_to_prop; simpl;
    repeat match goal with
    | H : (_ && _)%bool = false |- _ => apply andb_false_iff in H as [H|H]
    | H : bool_decide _ = false |- _ => apply bool_decide_eq_false in H
    | H : bool_decide _ = true |- _ => apply bool_decide_eq_true in H
    end;
    split; intuition (subst; try congruence).
Qed.

Lemma kingDeltas_col (dl : Z * Z) : In dl kingDeltas -> -1 <= dl.2 <= 1.
Proof. intros H; repeat (destruct H as [<-|H]; [simpl; lia|]); destruct H. Qed.

(** C5: castling, as the code generates it: a king of colour [c] on its home
    square (row [homeRank c], column 4) has the king-side destination
    (column 6) among its pseudo-legal moves exactly when it is not in check,
    the king-side right is held, columns 5 and 6 are empty, column 5 is not
    attacked, and its rook stands on column 7; the queen-side destination
    (column 2) exactly when it is not in check, the queen-side right is
    held, columns 1 to 3 are empty, column 3 is not attacked and its rook
    stands on column 0. *)
Theorem castling_pseudo_iff g b c :
  getPiece b (homeRank c) 4 = Some (mkPiece c King) ->
  (In (homeRank c, 6) (getPseudoMovesForPiece g b (homeRank c) 4) <-> kingSideOk g b c)
  /\ (In (homeRank c, 2) (getPseudoMovesForPiece g b (homeRank c) 4) <-> queenSideOk g b c).
Proof.
  intros Hk. unfold getPseudoMovesForPiece. rewrite Hk. cbn [pkind pcolor].
  split; rewrite in_app_iff, In_castlingMoves;
    (split; [intros [(dl & Hdl & Heq & _)%In_stepMoves|[[Heq Hok]|[Heq Hok]]]|]);
    try (apply kingDeltas_col in Hdl; injection Heq; lia);
    try (injection Heq; lia); try assumption;
    intros Hok; right; [left|right]; auto.
Qed.

Lemma castling_pseudo_iff_witness :
  let b := setCell (setCell initialPosition 7 5 None) 7 6 None in
  let g := mkGameState b White allCastling None 0 1 [] in
  getPiece b (homeRank White) 4 = Some (mkPiece White King)
  /\ ((In (homeRank White, 6) (getPseudoMovesForPiece g b (homeRank White) 4) <-> kingSideOk g b White)
      /\ (In (homeRank White, 2) (getPseudoMovesForPiece g b (homeRank White) 4)
          <-> queenSideOk g b White)).
Proof. cbv zeta. split; [reflexivity|]. apply castling_pseudo_iff. reflexivity. Defined.

(** ** The ray loop terminates within its fuel *)

Section RayFuel.
Context (b : Board) (color : Color) (dr dc : Z).

Lemma rayMoves_fuel (n : nat) (r c : Z) :
  (forall i : nat, (n <= i)%nat ->
     inBounds (r + Z.of_nat i * dr) (c + Z.of_nat i * dc) = false) ->
  forall m, (n <= m)%nat -> rayMoves m b color r c dr dc = rayMoves n b color r c dr dc.
Proof.
  revert r c. induction n as [|n IH]; intros r c Hout m Hm.
  - specialize (Hout 0%nat (le_n 0)). rewrite !Z.mul_0_l, !Z.add_0_r in Hout.
    destruct m; simpl; [reflexivity|]. now rewrite Hout.
  - destruct m as [|m]; [lia|]. simpl.
    destruct (inBounds r c); [|reflexivity].
    destruct (getPiece b r c); [reflexivity|]. f_equal.
    apply IH; [|lia]. intros i Hi.
    specialize (Hout (S i) ltac:(lia)).
    now replace (r + dr + Z.of_nat i * dr) with (r + Z.of_nat (S i) * dr) by lia;
      replace (c + dc + Z.of_nat i * dc) with (c + Z.of_nat (S i) * dc) by lia.
Qed.
End RayFuel.

(** C28: the [while] loop of a sliding piece's ray terminates within the
    fuel: from a square of the board in any of the eight directions, any
    fuel above [rayFuel] lists the same destinations as [rayFuel]. *)
Theorem rayMoves_fuel_enough (b : Board) (color : Color) (r c dr dc : Z) (m : nat) :
  0 <= r < 8 -> 0 <= c < 8 -> unitDir dr dc -> (rayFuel <= m)%nat ->
  rayMoves m b color (r + dr) (c + dc) dr dc = rayMoves rayFuel b color (r + dr) (c + dc) dr dc.
Proof.
  intros Hr Hc Hu Hm.
  assert (Hout : forall i : nat, (7 <= i)%nat ->
            inBounds (r + dr + Z.of_nat i * dr) (c + dc + Z.of_nat i * dc) = false)
    by (intros; now apply ray_exits).
  rewrite (rayMoves_fuel _ _ _ _ 7 _ _ Hout m) by (unfold rayFuel in Hm; lia).
  symmetry. apply rayMoves_fuel; [exact Hout|unfold rayFuel; lia].
Qed.

Lemma rayMoves_fuel_enough_witness :
  (0 <= 7 < 8 /\ 0 <= 0 < 8 /\ unitDir (-1) 1 /\ (rayFuel <= 30)%nat)
  /\ rayMoves 30 (setCell initialPosition 6 1 None) White (7 + -1) (0 + 1) (-1) 1
     = rayMoves rayFuel (setCell initialPosition 6 1 None) White (7 + -1) (0 + 1) (-1) 1.
Proof.
  assert (Hu : unitDir (-1) 1) by (unfold unitDir; split; [lia|split; [lia|discriminate]]).
  split; [split; [lia|split; [lia|split; [exact Hu|unfold rayFuel; lia]]]|].
  apply rayMoves_fuel_enough; [lia|lia|exact Hu|unfold rayFuel; lia].
Defined.
