(* ===== verification/AttackSpec.v ===== *)
(** * What the attack oracle decides

  [isSquareAttacked] scans outward from the target: fixed offsets for
  pawns, knights and kings, and the eight rays for the sliders.  This file
  states attack from the attacker's side, by the movement rules of each
  kind ([attacks]): a pawn attacks the two squares diagonally ahead of it,
  a knight and a king their offsets, a bishop, rook or queen every square
  along its lines up to and including the first piece.  The oracle is
  proved equivalent to "some piece of the colour attacks the square"
  ([isSquareAttacked_spec]), and every pseudo-legal move onto an occupied
  square is an attack of that square ([pseudo_capture_attacked]). *)

From Stdlib Require Import ZArith Lia List.
From stdpp Require Import base list decidable.
From S2P Require Import Prelude Board Attack MoveGen.

Open Scope Z_scope.

(** Whether a piece of kind [k] moves along the unit direction [d]. *)
Definition slidesAlong (k : Kind) (d : Z * Z) : bool :=
  bool_decide (k = Queen)
  || (bool_decide (k = Bishop) && negb (d.1 =? 0) && negb (d.2 =? 0))
  || (bool_decide (k = Rook) && ((d.1 =? 0) || (d.2 =? 0))).

(** The squares strictly between [(r, c)] and [(r + k dr, c + k dc)] are
    on the board and empty. *)
Definition clearRay (b : Board) (r c dr dc : Z) (k : nat) : Prop :=
  forall j : nat, (1 <= j < k)%nat ->
    inBounds (r + Z.of_nat j * dr) (c + Z.of_nat j * dc) = true
    /\ getPiece b (r + Z.of_nat j * dr) (c + Z.of_nat j * dc) = None.

(** The piece [p] standing on [(fr, fc)] attacks [(r, c)]. *)
Definition attacks (b : Board) (p : Piece) (fr fc r c : Z) : Prop :=
  match pkind p with
  | Pawn => r = fr + pawnDir (pcolor p) /\ (c = fc - 1 \/ c = fc + 1)
  | Knight => In (r - fr, c - fc) knightDeltas
  | King => In (r - fr, c - fc) kingDeltas
  | _ => exists d (k : nat), In d attackDirs /\ slidesAlong (pkind p) d = true /\ (1 <= k)%nat
           /\ r = fr + Z.of_nat k * d.1 /\ c = fc + Z.of_nat k * d.2 /\ clearRay b fr fc d.1 d.2 k
  end.

Definition negDir (d : Z * Z) : Z * Z := (- d.1, - d.2).

(** ** Finite facts about the offset tables *)

Lemma knightDeltas_neg d : In d knightDeltas -> In (negDir d) knightDeltas.
Proof. intros H; repeat (destruct H as [<-|H]; [simpl; tauto|]); destruct H. Qed.

Lemma kingDeltas_neg d : In d kingDeltas -> In (negDir d) kingDeltas.
Proof. intros H; repeat (destruct H as [<-|H]; [simpl; tauto|]); destruct H. Qed.

Lemma attackDirs_neg d : In d attackDirs -> In (negDir d) attackDirs.
Proof. intros H; repeat (destruct H as [<-|H]; [simpl; tauto|]); destruct H. Qed.

Lemma slidesAlong_neg k d : slidesAlong k (negDir d) = slidesAlong k d.
Proof.
  unfold slidesAlong, negDir; simpl.
  destruct (Z.eqb_spec d.1 0), (Z.eqb_spec d.2 0), (Z.eqb_spec (- d.1) 0), (Z.eqb_spec (- d.2) 0);
    try lia; reflexivity.
Qed.

(** The array index of a direction decides the code's [isDiagonal]. *)
Lemma attackDirs_nth (i : nat) k :
  (i < 8)%nat ->
  In (nth i attackDirs (0, 0)) attackDirs
  /\ (bool_decide (k = Queen)
      || ((4 <=? i)%nat && bool_decide (k = Bishop))
      || (negb (4 <=? i)%nat && bool_decide (k = Rook)))
     = slidesAlong k (nth i attackDirs (0, 0)).
Proof.
  intros Hi. split; [apply nth_In; simpl; lia|].
  do 8 (destruct i as [|i]; [destruct k; reflexivity|]); lia.
Qed.

#[export] Hint Resolve knightDeltas_neg kingDeltas_neg attackDirs_neg : chess.

(** ** One ray *)

Lemma ray_shift (r dr : Z) (j : nat) : r + dr + Z.of_nat j * dr = r + Z.of_nat (S j) * dr.
Proof. lia. Qed.

Lemma ray_zero (r dr : Z) : r + Z.of_nat 0 * dr = r.
Proof. lia. Qed.

(** [scanRay] finds, within its fuel, a first piece that is of [byColor]
    and of a kind moving along the ray, after empty squares of the board. *)
Lemma scanRay_spec n b byColor diag r c dr dc :
  scanRay n b byColor diag r c dr dc = true <->
  exists (k : nat) p, (k < n)%nat
    /\ (forall j : nat, (j < k)%nat ->
          inBounds (r + Z.of_nat j * dr) (c + Z.of_nat j * dc) = true
          /\ getPiece b (r + Z.of_nat j * dr) (c + Z.of_nat j * dc) = None)
    /\ getPiece b (r + Z.of_nat k * dr) (c + Z.of_nat k * dc) = Some p /\ pcolor p = byColor
    /\ (bool_decide (pkind p = Queen) || (diag && bool_decide (pkind p = Bishop))
        || (negb diag && bool_decide (pkind p = Rook))) = true.
Proof.
  revert r c. induction n as [|n IH]; intros r c; simpl.
  { split; [discriminate|]. intros (k & p & Hk & _). lia. }
  destruct (inBounds r c) eqn:Hb; [destruct (getPiece b r c) as [q|] eqn:Hq|].
  - split.
    + intros H. exists 0%nat, q. rewrite !ray_zero.
      destruct (decide (pcolor q = byColor)); [|discriminate].
      split; [lia|]. split; [intros j Hj; lia|]. auto.
    + intros (k & p & Hk & Hcl & Hp & Hc & Hs). destruct k as [|k].
      * rewrite !ray_zero in Hp. rewrite Hq in Hp. injection Hp as ->.
        now rewrite decide_True by exact Hc.
      * destruct (Hcl 0%nat ltac:(lia)) as [_ H0]. rewrite !ray_zero in H0. congruence.
  - rewrite IH. split.
    + intros (k & p & Hk & Hcl & Hp & Hc & Hs). exists (S k), p.
      split; [lia|]. split; [|rewrite <- !ray_shift; auto].
      intros [|j] Hj; [rewrite !ray_zero; auto|]. rewrite <- !ray_shift. apply Hcl. lia.
    + intros (k & p & Hk & Hcl & Hp & Hc & Hs). destruct k as [|k].
      * rewrite !ray_zero in Hp. congruence.
      * exists k, p. split; [lia|]. split; [|rewrite !ray_shift; auto].
        intros j Hj. rewrite !ray_shift. apply Hcl. lia.
  - split; [discriminate|]. intros (k & p & Hk & Hcl & Hp & _). destruct k as [|k].
    + rewrite !ray_zero in Hp. apply getPiece_Some_inBounds in Hp. congruence.
    + destruct (Hcl 0%nat ltac:(lia)) as [H0 _]. rewrite !ray_zero in H0. congruence.
Qed.

(** Re-indexing a ray walked from the other end. *)
Lemma ray_reverse (x a : Z) (k j : nat) :
  (j <= k)%nat -> x + a + Z.of_nat k * a + Z.of_nat j * - a = x + a + Z.of_nat (k - j) * a.
Proof. intros H. rewrite Nat2Z.inj_sub by exact H. ring. Qed.

(** Two squares of the board on one ray are at most seven steps apart. *)
Lemma ray_length (fr fc r c : Z) (d : Z * Z) (k : nat) :
  inBounds fr fc = true -> inBounds r c = true -> unitDir d.1 d.2 ->
  r = fr + Z.of_nat k * d.1 -> c = fc + Z.of_nat k * d.2 -> (k <= 7)%nat.
Proof.
  rewrite !inBounds_spec. destruct d as [a a']; simpl. intros Hf Ht (Ha & Ha' & Hne) -> ->.
  assert (a = -1 \/ a = 0 \/ a = 1) as [->|[->| ->]] by lia;
  assert (a' = -1 \/ a' = 0 \/ a' = 1) as [->|[->| ->]] by lia; try congruence; lia.
Qed.

(** ** The three parts of the oracle *)

Section Target.
Context (b : Board) (r c : Z) (byColor : Color).

Lemma pawn_part :
  ((inBounds (r - pawnDir byColor) (c - 1)
      && holds b (r - pawnDir byColor) (c - 1) (mkPiece byColor Pawn)) = true
   \/ (inBounds (r - pawnDir byColor) (c + 1)
      && holds b (r - pawnDir byColor) (c + 1) (mkPiece byColor Pawn)) = true)
  <-> exists fr fc, getPiece b fr fc = Some (mkPiece byColor Pawn)
        /\ r = fr + pawnDir byColor /\ (c = fc - 1 \/ c = fc + 1).
Proof.
  unfold holds. rewrite !andb_true_iff, !bool_decide_eq_true. split.
  - intros [[_ H]|[_ H]]; eexists _, _; split; [exact H| |exact H|]; split; lia.
  - intros (fr & fc & Hp & -> & [->| ->]); [right|left];
      replace (fr + pawnDir byColor - pawnDir byColor) with fr by lia;
      [replace (fc - 1 + 1) with fc by lia|replace (fc + 1 - 1) with fc by lia];
      split; auto; eapply getPiece_Some_inBounds; eauto.
Qed.

Section Offsets.
Context (deltas : list (Z * Z)) (k : Kind).
Hypothesis deltas_neg : forall d, In d deltas -> In (negDir d) deltas.

Lemma offset_part :
  existsb (fun d => inBounds (r + d.1) (c + d.2)
                    && holds b (r + d.1) (c + d.2) (mkPiece byColor k)) deltas = true
  <-> exists fr fc, getPiece b fr fc = Some (mkPiece byColor k) /\ In (r - fr, c - fc) deltas.
Proof.
  rewrite existsb_exists. unfold holds. split.
  - intros (d & Hd & Hb). bool_to_prop. eexists _, _. split; [eassumption|].
    apply deltas_neg in Hd. destruct d as [a a']; unfold negDir in Hd; simpl in *.
    now replace (r - (r + a)) with (- a) by lia; replace (c - (c + a')) with (- a') by lia.
  - intros (fr & fc & Hp & Hd). exists (negDir (r - fr, c - fc)).
    split; [auto|]. unfold negDir; simpl.
    replace (r + - (r - fr)) with fr by lia. replace (c + - (c - fc)) with fc by lia.
    rewrite Hp, bool_decide_eq_true_2 by reflexivity. rewrite andb_true_r.
    eapply getPiece_Some_inBounds; eauto.
Qed.
End Offsets.

Lemma ray_forward (x a : Z) (K j : nat) :
  (S j <= K)%nat -> x + Z.of_nat K * a + - a + Z.of_nat j * - a = x + Z.of_nat (K - S j) * a.
Proof. intros H. rewrite Nat2Z.inj_sub by exact H. rewrite Nat2Z.inj_succ. ring. Qed.

Lemma slider_part :
  inBounds r c = true ->
  existsb (fun i => let d := nth i attackDirs (0, 0) in
                    scanRay rayFuel b byColor (4 <=? i)%nat (r + d.1) (c + d.2) d.1 d.2)
    (seq 0 8) = true
  <-> exists fr fc p d (K : nat), getPiece b fr fc = Some p /\ pcolor p = byColor
        /\ In d attackDirs /\ slidesAlong (pkind p) d = true /\ (1 <= K)%nat
        /\ r = fr + Z.of_nat K * d.1 /\ c = fc + Z.of_nat K * d.2 /\ clearRay b fr fc d.1 d.2 K.
Proof.
  intros Ht. rewrite existsb_exists. split.
  - intros (i & Hi & Hs). apply in_seq in Hi. cbv zeta in Hs.
    apply scanRay_spec in Hs as (k & p & Hk & Hcl & Hp & Hc & Hsl).
    destruct (attackDirs_nth i (pkind p) ltac:(lia)) as [Hin Heq]. rewrite Heq in Hsl.
    set (d := nth i attackDirs (0, 0)) in *.
    exists (r + d.1 + Z.of_nat k * d.1), (c + d.2 + Z.of_nat k * d.2), p, (negDir d), (S k).
    unfold negDir; simpl. rewrite <- (slidesAlong_neg _ d) in Hsl.
    split; [exact Hp|]. split; [exact Hc|]. split; [exact (attackDirs_neg d Hin)|].
    split; [exact Hsl|]. split; [lia|]. split; [rewrite Nat2Z.inj_succ; ring|].
    split; [rewrite Nat2Z.inj_succ; ring|].
    intros j Hj. rewrite !ray_reverse by lia. apply Hcl. lia.
  - intros (fr & fc & p & d & K & Hp & Hc & Hin & Hsl & HK & Hr & Hcc & Hcl).
    assert (K <= 7)%nat by (eapply (ray_length fr fc r c d); eauto using getPiece_Some_inBounds,
                              attackDirs_unit).
    pose proof (attackDirs_neg d Hin) as Hin'.
    apply (In_nth _ _ (0, 0)) in Hin' as (i & Hi & Hnth). simpl in Hi.
    exists i. split; [apply in_seq; lia|]. cbv zeta.
    destruct (attackDirs_nth i (pkind p) Hi) as [_ Heq]. rewrite Hnth in Heq |- *.
    cbn [negDir fst snd] in *. subst r c.
    apply scanRay_spec. exists (K - 1)%nat, p. split; [unfold rayFuel; lia|].
    split; [|rewrite !ray_forward by lia; replace (K - S (K - 1))%nat with 0%nat by lia;
             rewrite !ray_zero; rewrite Heq, slidesAlong_neg; auto].
    intros j Hj. rewrite !ray_forward by lia. apply Hcl. lia.
Qed.
End Target.

(** ** The oracle *)

(** C10: the attack oracle is exact: for a square of the board,
    [isSquareAttacked b r c byColor] holds exactly when some piece of
    [byColor] attacks the square by its movement rules: a pawn from one row
    behind it (in its colour's direction) and one column aside, a knight
    or a king from one of its offsets, a bishop, rook or queen along one of
    its lines with only empty squares between. *)
Theorem isSquareAttacked_spec (b : Board) (r c : Z) (byColor : Color) :
  inBounds r c = true ->
  isSquareAttacked b r c byColor = true
  <-> exists fr fc p, getPiece b fr fc = Some p /\ pcolor p = byColor /\ attacks b p fr fc r c.
Proof.
  intros Ht. unfold isSquareAttacked. cbv zeta. rewrite !orb_true_iff.
  rewrite pawn_part, (offset_part _ _ _ _ knightDeltas Knight knightDeltas_neg),
    (offset_part _ _ _ _ kingDeltas King kingDeltas_neg), (slider_part _ _ _ _ Ht).
  split.
  - intros [[[(fr & fc & Hp & Ha)|(fr & fc & Hp & Ha)]|(fr & fc & Hp & Ha)]|
            (fr & fc & p & d & K & Hp & Hc & Hin & Hsl & Ha)].
    + exists fr, fc, (mkPiece byColor Pawn). cbn [attacks pkind pcolor]. tauto.
    + exists fr, fc, (mkPiece byColor Knight). cbn [attacks pkind pcolor]. tauto.
    + exists fr, fc, (mkPiece byColor King). cbn [attacks pkind pcolor]. tauto.
    + exists fr, fc, p. unfold attacks. destruct (pkind p); try discriminate; eauto 10.
  - intros (fr & fc & [pc pk] & Hp & Hc & Ha). simpl in Hc; subst pc.
    unfold attacks in Ha; cbn [pkind pcolor] in Ha. destruct pk.
    all: try (do 3 left; exists fr, fc; auto; fail).
    all: try (left; left; right; exists fr, fc; auto; fail).
    all: try (left; right; exists fr, fc; auto; fail).
    all: right; destruct Ha as (d & K & Ha); exists fr, fc; eexists; exists d, K;
      split; [exact Hp|]; cbn [pkind pcolor]; tauto.
Qed.

Lemma isSquareAttacked_spec_witness :
  inBounds 5 4 = true
  /\ (isSquareAttacked initialPosition 5 4 White = true
      <-> exists fr fc p, getPiece initialPosition fr fc = Some p /\ pcolor p = White
                          /\ attacks initialPosition p fr fc 5 4).
Proof. split; [reflexivity|]. apply isSquareAttacked_spec. reflexivity. Defined.

(** ** Captures are attacks *)

Lemma rayMoves_reach n b color r c dr dc d :
  In d (rayMoves n b color (r + dr) (c + dc) dr dc) ->
  exists K : nat, (1 <= K)%nat /\ d = (r + Z.of_nat K * dr, c + Z.of_nat K * dc)
                  /\ clearRay b r c dr dc K.
Proof.
  revert r c. induction n as [|n IH]; intros r c; simpl; [intros []|].
  destruct (inBounds (r + dr) (c + dc)) eqn:Hb; [|intros []].
  destruct (getPiece b (r + dr) (c + dc)) as [t|] eqn:Ht.
  - destruct (notOwn _ _); [|intros []]. intros [<-|[]].
    exists 1%nat. split; [lia|]. split; [f_equal; lia|]. intros j Hj; lia.
  - intros [<-|H].
    + exists 1%nat. split; [lia|]. split; [f_equal; lia|]. intros j Hj; lia.
    + destruct (IH (r + dr) (c + dc) H) as (K & HK & -> & Hcl).
      exists (S K). split; [lia|]. split; [f_equal; lia|].
      intros [|[|j]] Hj; [lia| |].
      * replace (r + Z.of_nat 1 * dr) with (r + dr) by lia.
        replace (c + Z.of_nat 1 * dc) with (c + dc) by lia. auto.
      * rewrite <- (ray_shift r dr (S j)), <- (ray_shift c dc (S j)). apply Hcl. lia.
Qed.

Lemma slideDirs_attack k d : In d (slideDirs k) -> In d attackDirs /\ slidesAlong k d = true.
Proof.
  destruct k; cbn; intros H; repeat (destruct H as [<-|H]; [split; [cbn; tauto|reflexivity]|]);
    destruct H.
Qed.

(** A pawn's destination that is occupied is one of the two squares
    diagonally ahead. *)
Lemma pawn_capture_diagonal g b fr fc color tr tc :
  In (tr, tc) (pawnMoves g b fr fc color) -> getPiece b tr tc <> None ->
  tr = fr + pawnDir color /\ (tc = fc - 1 \/ tc = fc + 1).
Proof.
  intros Hin Hocc. unfold pawnMoves in Hin. rewrite !in_app_iff in Hin.
  destruct Hin as [Hf|[Hc|He]].
  - cases_in Hf; bool_to_prop; simpl in Hf;
      repeat destruct Hf as [Hf|Hf]; try contradiction; injection Hf as <- <-; contradiction.
  - apply in_flat_map in Hc as (cc & Hcc & Hc). cases_in Hc; simpl in Hc; try contradiction.
    destruct Hc as [Hc|[]]. injection Hc as <- <-. split; [reflexivity|].
    simpl in Hcc. lia.
  - cases_in He; simpl in He; try contradiction. destruct He as [He|[]].
    injection He as <- <-. bool_to_prop. split; [assumption|lia].
Qed.

Lemma castling_dest_empty g b color d :
  In d (castlingMoves g b color) -> getPiece b d.1 d.2 = None.
Proof.
  rewrite In_castlingMoves. unfold kingSideOk, queenSideOk.
  intros [[-> H]|[-> H]]; simpl; tauto.
Qed.

(** A slider's destination lies on one of its lines, with only empty
    squares between. *)
Lemma slideMoves_attack b fr fc color k tr tc :
  In (tr, tc) (slideMoves b fr fc color k) ->
  exists d (K : nat), In d attackDirs /\ slidesAlong k d = true /\ (1 <= K)%nat
    /\ tr = fr + Z.of_nat K * d.1 /\ tc = fc + Z.of_nat K * d.2 /\ clearRay b fr fc d.1 d.2 K.
Proof.
  intros Hin. apply in_flat_map in Hin as (d & Hd & Hin).
  apply rayMoves_reach in Hin as (K & HK & E & Hcl). injection E as -> ->.
  apply slideDirs_attack in Hd as [Hd Hs]. exists d, K.
  repeat (split; [assumption || reflexivity|]). exact Hcl.
Qed.

Lemma stepMoves_offset b fr fc color ds tr tc :
  In (tr, tc) (stepMoves b fr fc color ds) -> In (tr - fr, tc - fc) ds.
Proof.
  intros (dl & Hdl & E & _)%In_stepMoves. injection E as -> ->.
  now replace (fr + dl.1 - fr, fc + dl.2 - fc) with dl by (destruct dl; f_equal; simpl; lia).
Qed.

(** Every pseudo-legal move onto an occupied square is an attack of that
    square by the moving piece. *)
Lemma pseudo_capture_attacks g b fr fc p tr tc :
  getPiece b fr fc = Some p -> In (tr, tc) (getPseudoMovesForPiece g b fr fc) ->
  getPiece b tr tc <> None -> attacks b p fr fc tr tc.
Proof.
  intros Hp Hin Hocc. unfold getPseudoMovesForPiece in Hin. rewrite Hp in Hin.
  unfold attacks. destruct (pkind p) eqn:Hk.
  1: exact (pawn_capture_diagonal g b fr fc (pcolor p) tr tc Hin Hocc).
  1: exact (stepMoves_offset _ _ _ _ _ _ _ Hin).
  1-3: exact (slideMoves_attack _ _ _ _ _ _ _ Hin).
  apply in_app_iff in Hin as [Hin|Hin]; [exact (stepMoves_offset _ _ _ _ _ _ _ Hin)|].
  apply castling_dest_empty in Hin. contradiction.
Qed.

Lemma pseudo_capture_attacked g b fr fc p tr tc :
  getPiece b fr fc = Some p -> In (tr, tc) (getPseudoMovesForPiece g b fr fc) ->
  getPiece b tr tc <> None -> isSquareAttacked b tr tc (pcolor p) = true.
Proof.
  intros Hp Hin Hocc. apply isSquareAttacked_spec.
  - destruct (getPiece b tr tc) eqn:E; [|contradiction]. eapply getPiece_Some_inBounds; eauto.
  - exists fr, fc, p. split; [exact Hp|]. split; [reflexivity|].
    exact (pseudo_capture_attacks g b fr fc p tr tc Hp Hin Hocc).
Qed.
