(* ===== verification/Kings.v ===== *)
(** * Kings on the board, and boards equal up to one side's pieces

  [kingSquares b c] lists the squares holding the king of [c], in the
  order [findKing] visits them (renderer.js 358-368); in a position of a
  game each colour has exactly one.  [sameUpTo X b1 b2] says the boards
  hold the same pieces except on squares where both hold pieces of [X]
  other than kings: the check test of [X] cannot tell such boards apart
  ([isKingInCheck_proper]), which is what makes the legality probe, run
  with a queen as promotion piece, valid for every promotion choice. *)

From Stdlib Require Import ZArith Lia List.
From stdpp Require Import base list decidable.
From S2P Require Import Prelude Board Attack MoveGen AttackSpec.

Open Scope Z_scope.

Definition isKingCell (v : Cell) (c : Color) : bool := bool_decide (v = Some (mkPiece c King)).

Definition kingSquares (b : Board) (c : Color) : list (Z * Z) :=
  List.filter (fun sq => isKingCell (getPiece b sq.1 sq.2) c) squares64.

Definition kingCount (b : Board) (c : Color) : nat := length (kingSquares b c).

(** ** Counting kings *)

(** Writing one square of the board changes the count by what the
    square held and what is written. *)
Lemma kingCount_setCell b r c v col :
  boardWf b -> inBounds r c = true ->
  (kingCount (setCell b r c v) col + (if isKingCell (getPiece b r c) col then 1 else 0)
   = kingCount b col + (if isKingCell v col then 1 else 0))%nat.
Proof.
  intros Hwf Hb. apply inBounds_spec in Hb as Hb'. unfold kingCount, kingSquares.
  replace (isKingCell v col)
    with (isKingCell (getPiece (setCell b r c v) (r, c).1 (r, c).2) col)
    by (cbn [fst snd]; rewrite getPiece_setCell by (auto; lia); now rewrite bool_decide_eq_true_2).
  apply (filter_length_update (fun sq => isKingCell (getPiece b sq.1 sq.2) col)
          (fun sq => isKingCell (getPiece (setCell b r c v) sq.1 sq.2) col)
          squares64 (r, c) NoDup_squares64); [apply In_squares64; lia|].
  intros [r' c'] Hne. cbn [fst snd]. rewrite getPiece_setCell by (auto; lia).
  now rewrite bool_decide_eq_false_2 by congruence.
Qed.

(** A write that neither removes nor places a king of [col]. *)
Lemma kingCount_setCell_same b r c v col :
  boardWf b -> inBounds r c = true ->
  isKingCell (getPiece b r c) col = false -> isKingCell v col = false ->
  kingCount (setCell b r c v) col = kingCount b col.
Proof.
  intros Hwf Hb H1 H2. pose proof (kingCount_setCell b r c v col Hwf Hb) as H.
  rewrite H1, H2 in H. lia.
Qed.

Lemma findKing_kingSquares b c : findKing b c = head (kingSquares b c).
Proof.
  unfold findKing, kingSquares. rewrite find_filter. apply (f_equal head).
  apply filter_ext_in. intros [r c'] Hin%In_squares64. cbn [fst snd].
  unfold isKingCell. now rewrite getPiece_in by (apply inBounds_spec; exact Hin).
Qed.

(** With one king of [c] on the board, [findKing] finds it. *)
Lemma findKing_unique b c r c' :
  kingCount b c = 1%nat -> getPiece b r c' = Some (mkPiece c King) ->
  findKing b c = Some (r, c').
Proof.
  intros Hn Hp. rewrite findKing_kingSquares. unfold kingCount in Hn.
  assert (Hin : In (r, c') (kingSquares b c)).
  { apply filter_In. split.
    - apply In_squares64, inBounds_spec. eapply getPiece_Some_inBounds; eauto.
    - cbn [fst snd]. unfold isKingCell. rewrite Hp. now apply bool_decide_eq_true_2. }
  destruct (kingSquares b c) as [|x [|y l]]; simpl in *; try lia.
  now destruct Hin as [->|[]].
Qed.

Lemma findKing_inBounds b c r c' : findKing b c = Some (r, c') -> inBounds r c' = true.
Proof.
  unfold findKing. intros H. apply find_some in H as [H _].
  now apply inBounds_spec, In_squares64.
Qed.

(** ** Boards equal up to the non-king pieces of one colour *)

Definition sameCell (X : Color) (v1 v2 : Cell) : Prop :=
  v1 = v2
  \/ exists p1 p2, v1 = Some p1 /\ v2 = Some p2 /\ pcolor p1 = X /\ pcolor p2 = X
                   /\ pkind p1 <> King /\ pkind p2 <> King.

Definition sameUpTo (X : Color) (b1 b2 : Board) : Prop :=
  forall r c, sameCell X (getPiece b1 r c) (getPiece b2 r c).

#[export] Instance sameCell_equiv X : Equivalence (sameCell X).
Proof.
  split.
  - now left.
  - intros v1 v2 [->|(p1 & p2 & ? & ? & ?)]; [now left|right; exists p2, p1; tauto].
  - intros v1 v2 v3 [->|(p1 & p2 & -> & -> & H1)] [<-|(q1 & q2 & E & -> & H2)];
      [now left|right..].
    + exists q1, q2. tauto.
    + exists p1, p2. tauto.
    + injection E as ->. exists p1, q2. tauto.
Qed.

#[export] Instance sameUpTo_equiv X : Equivalence (sameUpTo X).
Proof.
  split.
  - intros b r c. reflexivity.
  - intros b1 b2 H r c. now symmetry.
  - intros b1 b2 b3 H1 H2 r c. etransitivity; [apply H1|apply H2].
Qed.

Lemma sameCell_None X v1 v2 : sameCell X v1 v2 -> v1 = None <-> v2 = None.
Proof. intros [->|(p1 & p2 & -> & -> & _)]; [tauto|split; discriminate]. Qed.

(** Cells agree on the pieces of the other colour and on kings. *)
Lemma sameCell_piece X v1 v2 p :
  sameCell X v1 v2 -> pcolor p <> X \/ pkind p = King -> v1 = Some p <-> v2 = Some p.
Proof.
  intros [->|(p1 & p2 & -> & -> & H1 & H2 & H3 & H4)] Hp; [tauto|].
  split; intros [= <-]; destruct Hp; congruence.
Qed.

Lemma clearRay_sameUpTo X b1 b2 r c dr dc k :
  sameUpTo X b1 b2 -> clearRay b1 r c dr dc k <-> clearRay b2 r c dr dc k.
Proof.
  intros H. unfold clearRay. split; intros Hc j Hj; destruct (Hc j Hj) as [Hb He];
    (split; [exact Hb|]).
  - exact (proj1 (sameCell_None X _ _ (H _ _)) He).
  - exact (proj2 (sameCell_None X _ _ (H _ _)) He).
Qed.

Lemma attacks_sameUpTo X b1 b2 p fr fc r c :
  sameUpTo X b1 b2 -> attacks b1 p fr fc r c <-> attacks b2 p fr fc r c.
Proof.
  intros H. unfold attacks.
  destruct (pkind p); try tauto;
    split; intros (d & k & Hd); exists d, k;
    pose proof (clearRay_sameUpTo X b1 b2 fr fc d.1 d.2 k H); tauto.
Qed.

(** The attacks of the other colour do not see the difference. *)
Lemma isSquareAttacked_sameUpTo X b1 b2 r c byColor :
  byColor <> X -> inBounds r c = true -> sameUpTo X b1 b2 ->
  isSquareAttacked b1 r c byColor = isSquareAttacked b2 r c byColor.
Proof.
  intros Hx Hb H. apply Bool.eq_iff_eq_true. rewrite !isSquareAttacked_spec by exact Hb.
  split; intros (fr & fc & p & Hp & Hc & Ha); exists fr, fc, p;
    assert (Hpx : pcolor p <> X) by congruence; (split; [|split; [exact Hc|]]).
  - exact (proj1 (sameCell_piece X _ _ p (H fr fc) (or_introl Hpx)) Hp).
  - now rewrite <- (attacks_sameUpTo X b1 b2).
  - exact (proj2 (sameCell_piece X _ _ p (H fr fc) (or_introl Hpx)) Hp).
  - now rewrite (attacks_sameUpTo X b1 b2).
Qed.

Lemma kingSquares_sameUpTo X b1 b2 c :
  sameUpTo X b1 b2 -> kingSquares b1 c = kingSquares b2 c.
Proof.
  intros H. unfold kingSquares, isKingCell. apply filter_ext. intros [r c'].
  apply Bool.eq_iff_eq_true. rewrite !bool_decide_eq_true.
  apply (sameCell_piece X); [apply H|now right].
Qed.

(** The check test of [X] is a morphism of [sameUpTo X]. *)
#[export] Instance isKingInCheck_proper X : Proper (sameUpTo X ==> eq) (fun b => isKingInCheck b X).
Proof.
  intros b1 b2 H. unfold isKingInCheck.
  rewrite !findKing_kingSquares, (kingSquares_sameUpTo X b1 b2 X H).
  destruct (head (kingSquares b2 X)) as [[r c]|] eqn:E; [|reflexivity].
  rewrite <- findKing_kingSquares in E. apply findKing_inBounds in E.
  apply isSquareAttacked_sameUpTo with X; auto using opp_neq.
Qed.

Lemma isKingInCheck_sameUpTo X b1 b2 :
  sameUpTo X b1 b2 -> isKingInCheck b1 X = isKingInCheck b2 X.
Proof. apply isKingInCheck_proper. Qed.

(** With one king of [c], two squares holding it are the same square. *)
Lemma king_square_unique b c r1 c1 r2 c2 :
  kingCount b c = 1%nat -> getPiece b r1 c1 = Some (mkPiece c King) ->
  getPiece b r2 c2 = Some (mkPiece c King) -> r1 = r2 /\ c1 = c2.
Proof.
  intros Hn H1 H2. pose proof (findKing_unique b c r1 c1 Hn H1) as E1.
  rewrite (findKing_unique b c r2 c2 Hn H2) in E1. now injection E1 as -> ->.
Qed.

Lemma sameUpTo_setCell X b r c v1 v2 :
  boardWf b -> inBounds r c = true -> sameCell X v1 v2 ->
  sameUpTo X (setCell b r c v1) (setCell b r c v2).
Proof.
  intros Hwf Hb%inBounds_spec Hv r' c'. rewrite !getPiece_setCell by (auto; lia).
  case_bool_decide; [exact Hv|reflexivity].
Qed.
