(* ===== verification/Apply.v ===== *)
(** * Move applier (renderer.js 372-461)

  [applyMoveOnBoard g b fromRow fromCol toRow toCol opts] performs the board
  mechanics on [b] (en-passant capture, relocation, promotion, the rook of a
  castling move) and, when [opts.isReal], the bookkeeping on the
  module-level variables: the halfmove clock, the fullmove number, the
  castling rights and the en-passant target.  The board is returned
  separately from the engine state because the code mutates the array it is
  given, which is the live board in [finalizeMove] and a clone in the
  legality probe. *)

From Stdlib Require Import ZArith Lia List.
From stdpp Require Import base list decidable.
From S2P Require Import Prelude Board Attack MoveGen.

Open Scope Z_scope.

(** [opts = { isReal, promotionPiece }] *)
Record ApplyOpts := mkApplyOpts { isReal : bool; promotionPiece : Cell }.

(** The probe of the legality filter: [{ isReal: false }]. *)
Definition probeOpts : ApplyOpts := mkApplyOpts false None.

(** The returned [{ piece, captured }]. *)
Record MoveResult := mkMoveResult { movedPiece : Cell; captured : bool }.

(** Lines 438-441 and 445-448: the right tied to a rook's home corner. *)
Definition revokeCorner (cr : CastlingRights) (r c : Z) : CastlingRights :=
  let wq := cwQ cr && negb ((r =? 7) && (c =? 0)) in
  let wk := cwK cr && negb ((r =? 7) && (c =? 7)) in
  let bq := cbQ cr && negb ((r =? 0) && (c =? 0)) in
  let bk := cbK cr && negb ((r =? 0) && (c =? 7)) in
  mkCastlingRights wk wq bk bq.

(** Lines 433-436: a king move revokes both rights of its colour. *)
Definition revokeKing (cr : CastlingRights) (c : Color) : CastlingRights :=
  match c with
  | White => mkCastlingRights false false (cbK cr) (cbQ cr)
  | Black => mkCastlingRights (cwK cr) (cwQ cr) false false
  end.

(** Lines 380-385: the en-passant capture, returning the board and the
    captured piece. *)
Definition enPassantCapture (g : GameState) (b : Board) (fromCol toRow toCol : Z)
    (color : option Color) (type : option Kind) : Board * Cell :=
  let target := boardAt b toRow toCol in
  if bool_decide (type = Some Pawn) && negb (fromCol =? toCol)
     && bool_decide (target = None)
     && bool_decide (enPassantTarget g = Some (toRow, toCol)) then
    let capRow := if bool_decide (color = Some White) then toRow + 1 else toRow - 1 in
    (setCell b capRow toCol None, boardAt b capRow toCol)
  else (b, target).

(** Lines 392-402. *)
Definition promote (b : Board) (toRow toCol : Z) (color : option Color) (type : option Kind)
    (opts : ApplyOpts) : Board :=
  if bool_decide (type = Some Pawn)
     && ((bool_decide (color = Some White) && (toRow =? 0))
         || (bool_decide (color = Some Black) && (toRow =? 7))) then
    match promotionPiece opts with
    | Some p => setCell b toRow toCol (Some p)
    | None =>
        setCell b toRow toCol
          (match color with Some c => Some (mkPiece c Queen) | None => None end)
    end
  else b.

(** Lines 405-417. *)
Definition castleRook (b : Board) (fromCol toRow toCol : Z) (type : option Kind) : Board :=
  if bool_decide (type = Some King) && (Z.abs (toCol - fromCol) =? 2) then
    if fromCol <? toCol then
      setCell (setCell b toRow 5 (boardAt b toRow 7)) toRow 7 None
    else
      setCell (setCell b toRow 3 (boardAt b toRow 0)) toRow 0 None
  else b.

(** Lines 419-458: the bookkeeping of a committed move. *)
Definition bookkeeping (g : GameState) (fromRow fromCol toRow toCol : Z)
    (color : option Color) (type : option Kind) (capturedPiece : Cell) : GameState :=
  let half :=
    if bool_decide (type = Some Pawn) || bool_decide (capturedPiece <> None)
    then 0%nat else S (halfmoveClock g) in
  let full :=
    if bool_decide (color = Some Black) then S (fullmoveNumber g) else fullmoveNumber g in
  let cr1 :=
    if bool_decide (type = Some King) then
      match color with
      | Some c => revokeKing (castlingRights g) c
      | None => castlingRights g
      end
    else castlingRights g in
  let cr2 := if bool_decide (type = Some Rook) then revokeCorner cr1 fromRow fromCol else cr1 in
  let cr3 :=
    if bool_decide (getType capturedPiece = Some Rook) then revokeCorner cr2 toRow toCol
    else cr2 in
  let ep :=
    if bool_decide (type = Some Pawn) && (Z.abs (toRow - fromRow) =? 2) then
      Some ((fromRow + toRow) / 2, fromCol)
    else None in
  setEnPassant (setCastling (setClocks g half full) cr3) ep.

Definition applyMoveOnBoard (g : GameState) (b : Board) (fromRow fromCol toRow toCol : Z)
    (opts : ApplyOpts) : Board * GameState * MoveResult :=
  let piece := boardAt b fromRow fromCol in
  let color := getColor piece in
  let type := getType piece in
  let '(b1, capturedPiece) := enPassantCapture g b fromCol toRow toCol color type in
  let b2 := setCell (setCell b1 fromRow fromCol None) toRow toCol piece in
  let b3 := promote b2 toRow toCol color type opts in
  let b4 := castleRook b3 fromCol toRow toCol type in
  let g' := if isReal opts
            then bookkeeping g fromRow fromCol toRow toCol color type capturedPiece
            else g in
  (b4, g', mkMoveResult (boardAt b4 toRow toCol) (bool_decide (capturedPiece <> None))).

(** ** The engine state a move leaves *)

(** Castling rights only ever lose flags. *)
Definition crSub (a b : CastlingRights) : Prop :=
  (cwK a = true -> cwK b = true) /\ (cwQ a = true -> cwQ b = true) /\
  (cbK a = true -> cbK b = true) /\ (cbQ a = true -> cbQ b = true).

Lemma crSub_refl (a : CastlingRights) : crSub a a.
Proof. unfold crSub. tauto. Qed.

Lemma crSub_trans (a b c : CastlingRights) : crSub a b -> crSub b c -> crSub a c.
Proof. unfold crSub. intuition. Qed.

Lemma revokeCorner_sub (cr : CastlingRights) (r c : Z) : crSub (revokeCorner cr r c) cr.
Proof. unfold crSub, revokeCorner; simpl. rewrite !andb_true_iff. tauto. Qed.

Lemma revokeKing_sub (cr : CastlingRights) (c : Color) : crSub (revokeKing cr c) cr.
Proof. unfold crSub. destruct c; simpl; intuition congruence. Qed.

#[export] Hint Resolve crSub_refl revokeCorner_sub : chess.

Lemma bookkeeping_castling_sub g fr fc tr tc color type cap :
  crSub (castlingRights (bookkeeping g fr fc tr tc color type cap)) (castlingRights g).
Proof.
  unfold bookkeeping; simpl.
  repeat match goal with
  | |- context [if ?b then _ else _] => destruct b
  | |- context [match ?o with Some _ => _ | None => _ end] => destruct o
  end; eauto 6 using crSub_trans, revokeKing_sub with chess.
Qed.

(** The probe does not touch the engine state. *)
Lemma applyMove_probe_state g b fr fc tr tc opts :
  isReal opts = false -> (applyMoveOnBoard g b fr fc tr tc opts).1.2 = g.
Proof.
  intros H. unfold applyMoveOnBoard.
  destruct (enPassantCapture _ _ _ _ _ _ _). simpl. now rewrite H.
Qed.

(** The board a move leaves does not depend on whether it is committed. *)
Lemma applyMove_board_isReal g b fr fc tr tc pp r :
  (applyMoveOnBoard g b fr fc tr tc (mkApplyOpts r pp)).1.1
  = (applyMoveOnBoard g b fr fc tr tc (mkApplyOpts false pp)).1.1.
Proof.
  unfold applyMoveOnBoard. destruct (enPassantCapture _ _ _ _ _ _ _). reflexivity.
Qed.

(** C7: castling rights never come back: after any move, committed or
    probed, every right that holds held before. *)
Theorem applyMove_castling_monotone g b fr fc tr tc opts :
  crSub (castlingRights (applyMoveOnBoard g b fr fc tr tc opts).1.2) (castlingRights g).
Proof.
  unfold applyMoveOnBoard.
  destruct (enPassantCapture _ _ _ _ _ _ _). simpl.
  destruct (isReal opts); [apply bookkeeping_castling_sub|apply crSub_refl].
Qed.

(** C8: the clocks of a committed move: the halfmove clock is reset by a
    pawn move or a capture (en passant included) and counts up otherwise;
    the fullmove number counts up after a black move only. *)
Theorem applyMove_clocks g b fr fc tr tc opts :
  isReal opts = true ->
  let '(_, g', res) := applyMoveOnBoard g b fr fc tr tc opts in
  halfmoveClock g' =
    (if bool_decide (getType (boardAt b fr fc) = Some Pawn) || captured res
     then 0%nat else S (halfmoveClock g))
  /\ fullmoveNumber g' =
    (if bool_decide (getColor (boardAt b fr fc) = Some Black)
     then S (fullmoveNumber g) else fullmoveNumber g).
Proof.
  intros H. unfold applyMoveOnBoard.
  destruct (enPassantCapture _ _ _ _ _ _ _) as [b1 cap]. rewrite H. simpl.
  split; reflexivity.
Qed.

(** The state after 1. e4 is reached from this one. *)
Definition startState : GameState := mkGameState initialPosition White allCastling None 0 1 [].

Lemma applyMove_clocks_witness :
  isReal (mkApplyOpts true None) = true
  /\ (let '(_, g', res) := applyMoveOnBoard startState initialPosition 7 6 5 5 (mkApplyOpts true None) in
      halfmoveClock g' =
        (if bool_decide (getType (boardAt initialPosition 7 6) = Some Pawn) || captured res
         then 0%nat else S (halfmoveClock startState))
      /\ fullmoveNumber g' =
        (if bool_decide (getColor (boardAt initialPosition 7 6) = Some Black)
         then S (fullmoveNumber startState) else fullmoveNumber startState)).
Proof. split; [reflexivity|]. apply applyMove_clocks. reflexivity. Defined.

(** C6: the en-passant target of a committed move: it is set exactly by a
    pawn advancing two rows, to the square it skipped (same column, the row
    halfway), and cleared by every other move, whatever it was before. *)
Theorem applyMove_enPassantTarget g b fr fc tr tc opts :
  isReal opts = true ->
  let g' := (applyMoveOnBoard g b fr fc tr tc opts).1.2 in
  (getType (boardAt b fr fc) = Some Pawn /\ Z.abs (tr - fr) = 2 ->
     exists er, enPassantTarget g' = Some (er, fc) /\ 2 * er = fr + tr
                /\ Z.min fr tr < er < Z.max fr tr)
  /\ (~ (getType (boardAt b fr fc) = Some Pawn /\ Z.abs (tr - fr) = 2) ->
     enPassantTarget g' = None).
Proof.
  intros H. unfold applyMoveOnBoard.
  destruct (enPassantCapture _ _ _ _ _ _ _) as [b1 cap]. rewrite H. simpl.
  split.
  - intros [Hp Hd]. rewrite (bool_decide_eq_true_2 _ Hp).
    replace (Z.abs (tr - fr) =? 2) with true by (symmetry; apply Z.eqb_eq; lia).
    simpl. assert (tr = fr + 2 \/ tr = fr - 2) as [-> | ->] by lia.
    + exists (fr + 1). replace (fr + (fr + 2)) with ((fr + 1) * 2) by lia.
      rewrite Z.div_mul by lia. repeat split; lia.
    + exists (fr - 1). replace (fr + (fr - 2)) with ((fr - 1) * 2) by lia.
      rewrite Z.div_mul by lia. repeat split; lia.
  - intros Hn. destruct (bool_decide (getType _ = Some Pawn)) eqn:E1; [|reflexivity].
    destruct (Z.abs (tr - fr) =? 2) eqn:E2; [|reflexivity].
    exfalso. apply Hn. bool_to_prop. split; [assumption|lia].
Qed.

Lemma applyMove_enPassantTarget_witness :
  isReal (mkApplyOpts true None) = true
  /\ (let g' := (applyMoveOnBoard startState initialPosition 6 4 4 4 (mkApplyOpts true None)).1.2 in
      (getType (boardAt initialPosition 6 4) = Some Pawn /\ Z.abs (4 - 6) = 2 ->
         exists er, enPassantTarget g' = Some (er, 4) /\ 2 * er = 6 + 4
                    /\ Z.min 6 4 < er < Z.max 6 4)
      /\ (~ (getType (boardAt initialPosition 6 4) = Some Pawn /\ Z.abs (4 - 6) = 2) ->
         enPassantTarget g' = None)).
Proof. split; [reflexivity|]. apply applyMove_enPassantTarget. reflexivity. Defined.

(** ** The board a move leaves *)

Lemma promote_wf b tr tc color type opts : boardWf b -> boardWf (promote b tr tc color type opts).
Proof.
  intros Hwf. unfold promote.
  destruct (_ && _)%bool; [destruct (promotionPiece opts)|]; auto with chess.
Qed.

Lemma castleRook_wf b fc tr tc type : boardWf b -> boardWf (castleRook b fc tr tc type).
Proof.
  intros Hwf. unfold castleRook.
  destruct (_ && _)%bool; [destruct (fc <? tc)|]; auto with chess.
Qed.

Lemma enPassantCapture_wf g b fc tr tc color type :
  boardWf b -> boardWf (enPassantCapture g b fc tr tc color type).1.
Proof. intros Hwf. unfold enPassantCapture. destruct (_ && _)%bool; simpl; auto with chess. Qed.

#[export] Hint Resolve promote_wf castleRook_wf enPassantCapture_wf : chess.

(** A move, committed or probed, leaves an 8x8 board 8x8. *)
Lemma applyMoveOnBoard_wf g b fr fc tr tc opts :
  boardWf b -> boardWf (applyMoveOnBoard g b fr fc tr tc opts).1.1.
Proof.
  intros Hwf. unfold applyMoveOnBoard.
  pose proof (enPassantCapture_wf g b fc tr tc (getColor (boardAt b fr fc))
                (getType (boardAt b fr fc)) Hwf) as H1.
  destruct (enPassantCapture _ _ _ _ _ _ _) as [b1 cap]. simpl in *. auto with chess.
Qed.

#[export] Hint Resolve applyMoveOnBoard_wf : chess.

(** Promotion writes the destination only. *)
Lemma promote_frame b tr tc color type opts r c :
  boardWf b -> 0 <= tr -> 0 <= tc -> 0 <= r -> 0 <= c -> (tr, tc) <> (r, c) ->
  boardAt (promote b tr tc color type opts) r c = boardAt b r c.
Proof.
  intros Hwf ? ? ? ? Hne. unfold promote.
  destruct (_ && _)%bool; [destruct (promotionPiece opts)|]; [..|reflexivity];
    apply boardAt_setCell_ne; auto.
Qed.

Lemma castleRook_not_king b fc tr tc type :
  type <> Some King -> castleRook b fc tr tc type = b.
Proof.
  intros H. unfold castleRook. now rewrite (bool_decide_eq_false_2 _ H).
Qed.

Lemma promote_not_pawn b tr tc color type opts :
  type <> Some Pawn -> promote b tr tc color type opts = b.
Proof.
  intros H. unfold promote. now rewrite (bool_decide_eq_false_2 _ H).
Qed.

Lemma enPassantCapture_not_pawn g b fc tr tc color type :
  type <> Some Pawn -> enPassantCapture g b fc tr tc color type = (b, boardAt b tr tc).
Proof.
  intros H. unfold enPassantCapture. now rewrite (bool_decide_eq_false_2 _ H).
Qed.

(** C22: an en-passant capture removes the pawn one row behind the
    destination (the captured pawn, not the square the capturing pawn lands
    on), empties the origin, and reports a capture exactly when that square
    held a piece. *)
Theorem applyMove_enPassant_capture g b c fr fc tr tc opts :
  boardWf b -> 0 <= fr < 8 -> 0 <= fc < 8 -> 0 <= tr < 8 -> 0 <= tc < 8 ->
  0 <= tr - pawnDir c < 8 ->
  boardAt b fr fc = Some (mkPiece c Pawn) -> fc <> tc -> boardAt b tr tc = None ->
  enPassantTarget g = Some (tr, tc) ->
  let '(b', _, res) := applyMoveOnBoard g b fr fc tr tc opts in
  boardAt b' (tr - pawnDir c) tc = None /\ boardAt b' fr fc = None
  /\ captured res = bool_decide (boardAt b (tr - pawnDir c) tc <> None).
Proof.
  intros Hwf Hfr Hfc Htr Htc Hcap Hfrom Hne Hto Hep.
  unfold applyMoveOnBoard. rewrite Hfrom. simpl getColor; simpl getType.
  assert (Hcr : (if bool_decide (Some c = Some White) then tr + 1 else tr - 1) = tr - pawnDir c)
    by (destruct c; simpl; lia).
  unfold enPassantCapture. rewrite Hto, Hep.
  rewrite bool_decide_eq_true_2 by reflexivity.
  replace (negb (fc =? tc)) with true by (symmetry; apply negb_true_iff, Z.eqb_neq; lia).
  rewrite !bool_decide_eq_true_2 by reflexivity. simpl. rewrite Hcr.
  rewrite castleRook_not_king by congruence.
  assert (pawnDir c <> 0) by (destruct c; simpl; lia).
  split; [|split]; [rewrite promote_frame by (auto with chess; first [lia | pair_neq])..|reflexivity];
    cell_simpl; reflexivity.
Qed.

(** White pawn e5, Black pawn d5 that has just advanced two rows. *)
Definition epBoard : Board :=
  setCell (setCell initialPosition 3 4 (Some (mkPiece White Pawn))) 3 3 (Some (mkPiece Black Pawn)).

Definition epState : GameState := mkGameState epBoard White allCastling (Some (2, 3)) 0 3 [].

Lemma applyMove_enPassant_capture_witness :
  boardWf epBoard /\ boardAt epBoard 3 4 = Some (mkPiece White Pawn) /\ boardAt epBoard 2 3 = None
  /\ (let '(b', _, res) := applyMoveOnBoard epState epBoard 3 4 2 3 (mkApplyOpts true None) in
      boardAt b' (2 - pawnDir White) 3 = None /\ boardAt b' 3 4 = None
      /\ captured res = bool_decide (boardAt epBoard (2 - pawnDir White) 3 <> None)).
Proof.
  assert (Hwf : boardWf epBoard) by (unfold epBoard; auto with chess).
  split; [exact Hwf|]. split; [reflexivity|]. split; [reflexivity|].
  apply applyMove_enPassant_capture; (exact Hwf || reflexivity || (simpl; lia)).
Defined.

(** C23: castling moves the rook: a king moving from column 4 two columns to
    the right lands on column 6 and the piece of column 7 moves to column 5;
    two columns to the left, it lands on column 2 and the piece of column 0
    moves to column 3; the corner and the king's square are emptied. *)
Theorem applyMove_castling_rook g b c r opts :
  boardWf b -> 0 <= r < 8 -> boardAt b r 4 = Some (mkPiece c King) ->
  (let b' := (applyMoveOnBoard g b r 4 r 6 opts).1.1 in
   boardAt b' r 6 = Some (mkPiece c King) /\ boardAt b' r 5 = boardAt b r 7
   /\ boardAt b' r 7 = None /\ boardAt b' r 4 = None)
  /\ (let b' := (applyMoveOnBoard g b r 4 r 2 opts).1.1 in
   boardAt b' r 2 = Some (mkPiece c King) /\ boardAt b' r 3 = boardAt b r 0
   /\ boardAt b' r 0 = None /\ boardAt b' r 4 = None).
Proof.
  intros Hwf Hr Hk. unfold applyMoveOnBoard. rewrite Hk. simpl getColor; simpl getType.
  rewrite !enPassantCapture_not_pawn by congruence. simpl.
  rewrite !promote_not_pawn by congruence.
  unfold castleRook. rewrite !bool_decide_eq_true_2 by reflexivity. simpl.
  split; repeat split; cell_simpl; reflexivity.
Qed.

(** The white king side emptied of its bishop and knight. *)
Definition castleBoard : Board := setCell (setCell initialPosition 7 5 None) 7 6 None.

Lemma applyMove_castling_rook_witness :
  boardWf castleBoard /\ boardAt castleBoard 7 4 = Some (mkPiece White King)
  /\ (let b' := (applyMoveOnBoard startState castleBoard 7 4 7 6 (mkApplyOpts true None)).1.1 in
      boardAt b' 7 6 = Some (mkPiece White King) /\ boardAt b' 7 5 = boardAt castleBoard 7 7
      /\ boardAt b' 7 7 = None /\ boardAt b' 7 4 = None).
Proof.
  assert (Hwf : boardWf castleBoard) by (unfold castleBoard; auto with chess).
  split; [exact Hwf|]. split; [reflexivity|].
  apply (applyMove_castling_rook startState castleBoard White 7 (mkApplyOpts true None));
    [exact Hwf|lia|reflexivity].
Defined.

(** The last row of a colour: [(color === "w" && toRow === 0) ||
    (color === "b" && toRow === 7)]. *)
Definition promotionRow (c : Color) : Z := match c with White => 0 | Black => 7 end.

(** C24: a pawn reaching its last row is replaced by the promotion piece
    supplied, or by a queen of its colour when none is, and that piece is
    the one the move reports. *)
Theorem applyMove_promotion g b c fr fc tc opts :
  boardWf b -> 0 <= fr < 8 -> 0 <= fc < 8 -> 0 <= tc < 8 ->
  boardAt b fr fc = Some (mkPiece c Pawn) ->
  let '(b', _, res) := applyMoveOnBoard g b fr fc (promotionRow c) tc opts in
  let expected := match promotionPiece opts with
                  | Some p => Some p
                  | None => Some (mkPiece c Queen)
                  end in
  boardAt b' (promotionRow c) tc = expected /\ movedPiece res = expected.
Proof.
  intros Hwf Hfr Hfc Htc Hp. unfold applyMoveOnBoard. rewrite Hp. simpl getColor; simpl getType.
  pose proof (enPassantCapture_wf g b fc (promotionRow c) tc (Some c) (Some Pawn) Hwf) as Hwf1.
  destruct (enPassantCapture _ _ _ _ _ _ _) as [b1 cap]. simpl in Hwf1 |- *.
  rewrite castleRook_not_king by congruence.
  assert (Hrow : 0 <= promotionRow c < 8) by (destruct c; simpl; lia).
  unfold promote. rewrite bool_decide_eq_true_2 by reflexivity.
  replace ((bool_decide (Some c = Some White) && (promotionRow c =? 0))
           || (bool_decide (Some c = Some Black) && (promotionRow c =? 7)))%bool with true
    by (destruct c; reflexivity).
  simpl. destruct (promotionPiece opts); simpl; split; cell_simpl; reflexivity.
Qed.

(** A white pawn on b7, its way to a8 and b8 open. *)
Definition promoBoard : Board := setCell (setCell initialPosition 1 1 (Some (mkPiece White Pawn))) 0 0 None.

Lemma applyMove_promotion_witness :
  boardWf promoBoard /\ boardAt promoBoard 1 1 = Some (mkPiece White Pawn)
  /\ (let '(b', _, res) := applyMoveOnBoard startState promoBoard 1 1 (promotionRow White) 0
                             (mkApplyOpts true (Some (mkPiece White Knight))) in
      boardAt b' (promotionRow White) 0 = Some (mkPiece White Knight)
      /\ movedPiece res = Some (mkPiece White Knight)).
Proof.
  assert (Hwf : boardWf promoBoard) by (unfold promoBoard; auto with chess).
  split; [exact Hwf|]. split; [reflexivity|].
  apply (applyMove_promotion startState promoBoard White 1 1 0); (exact Hwf || lia || reflexivity).
Defined.
