(* ===== verification/Legal.v ===== *)
(** * Legality filter (renderer.js 673-719)

  [generateLegalMovesForSquare g row col] reads the live board and the side
  to move, saves [castlingRights] and [enPassantTarget], and for each
  pseudo-legal destination clones the board, swaps the globals for copies of
  the saved values, applies the move without committing, keeps the
  destination when the mover's king is not attacked, and restores the
  globals.  The model threads the engine state through the loop exactly so
  ([probeMove] is the loop body) and returns the final state beside the
  list; [generateLegalMoves_restores] proves the state comes back
  unchanged. *)

From Stdlib Require Import ZArith Lia List.
From stdpp Require Import base list decidable.
From S2P Require Import Prelude Board Attack MoveGen Apply.

Open Scope Z_scope.

(** The body of [for (const mv of pseudo)] (lines 686-704). *)
Definition probeMove (row col : Z) (color : Color) (savedCastling : CastlingRights)
    (savedEP : option (Z * Z)) (acc : list Dest * GameState) (mv : Dest)
    : list Dest * GameState :=
  let '(legal, g0) := acc in
  let tmpBoard := cloneBoard (board g0) in
  let oldCR := castlingRights g0 in
  let oldEP := enPassantTarget g0 in
  let g1 := setEnPassant (setCastling g0 savedCastling) savedEP in
  let '(tmpBoard', g2, _) := applyMoveOnBoard g1 tmpBoard row col mv.1 mv.2 probeOpts in
  let legal' := if negb (isKingInCheck tmpBoard' color) then legal ++ [mv] else legal in
  (legal', setEnPassant (setCastling g2 oldCR) oldEP).

Definition generateLegalMovesForSquare (g : GameState) (row col : Z) : list Dest * GameState :=
  match getPiece (board g) row col with
  | None => ([], g)
  | Some p =>
      let color := pcolor p in
      if negb (bool_decide (color = turn g)) then ([], g)
      else
        let savedCastling := castlingRights g in
        let savedEP := enPassantTarget g in
        let pseudo := getPseudoMovesForPiece g (board g) row col in
        fold_left (probeMove row col color savedCastling savedEP) pseudo ([], g)
  end.

(** The list the function returns. *)
Definition legalMoves (g : GameState) (row col : Z) : list Dest :=
  (generateLegalMovesForSquare g row col).1.

(** Lines 709-719.  Each call of [generateLegalMovesForSquare] leaves the
    engine state as it found it ([generateLegalMoves_restores]), so the
    loop reads the same state at every square. *)
Definition sideHasAnyLegalMove (g : GameState) (color : Color) : bool :=
  existsb (fun sq =>
    match getPiece (board g) sq.1 sq.2 with
    | Some p =>
        if bool_decide (pcolor p = color)
        then negb (bool_decide (legalMoves g sq.1 sq.2 = []))
        else false
    | None => false
    end) squares64.

(** The board a probe of [mv] inspects. *)
Definition probeBoard (g : GameState) (row col : Z) (mv : Dest) : Board :=
  (applyMoveOnBoard g (board g) row col mv.1 mv.2 probeOpts).1.1.

(** ** The probe loop *)

Lemma restore_globals (g : GameState) :
  setEnPassant (setCastling g (castlingRights g)) (enPassantTarget g) = g.
Proof. now destruct g. Qed.

(** Whether the probe of [mv] leaves the mover's king unattacked. *)
Definition probeSafe (g : GameState) (row col : Z) (color : Color) (mv : Dest) : bool :=
  negb (isKingInCheck (probeBoard g row col mv) color).

(** One probe, started from the saved globals, keeps [mv] when it is safe
    and leaves the state as it was. *)
Lemma probeMove_step (g : GameState) row col color acc mv :
  probeMove row col color (castlingRights g) (enPassantTarget g) (acc, g) mv
  = (if probeSafe g row col color mv then acc ++ [mv] else acc, g).
Proof.
  unfold probeMove, probeSafe, probeBoard. rewrite restore_globals, cloneBoard_id.
  pose proof (applyMove_probe_state g (board g) row col mv.1 mv.2 probeOpts eq_refl) as Hs.
  destruct (applyMoveOnBoard _ _ _ _ _ _ _) as [[b' g'] res]. simpl in Hs |- *.
  subst g'. now rewrite restore_globals.
Qed.

Lemma probe_fold (g : GameState) row col color (l : list Dest) acc :
  fold_left (probeMove row col color (castlingRights g) (enPassantTarget g)) l (acc, g)
  = (acc ++ List.filter (probeSafe g row col color) l, g).
Proof.
  revert acc. induction l as [|mv l IH]; intros acc; cbn [fold_left List.filter].
  - now rewrite app_nil_r.
  - rewrite probeMove_step, IH.
    destruct (probeSafe g row col color mv); simpl; now rewrite <- ?app_assoc.
Qed.

(** The legality filter is the pseudo-legal list filtered by the probe. *)
Lemma generateLegalMoves_eq (g : GameState) (row col : Z) :
  generateLegalMovesForSquare g row col =
  (match getPiece (board g) row col with
   | Some p =>
       if bool_decide (pcolor p = turn g)
       then List.filter (probeSafe g row col (pcolor p))
              (getPseudoMovesForPiece g (board g) row col)
       else []
   | None => []
   end, g).
Proof.
  unfold generateLegalMovesForSquare.
  destruct (getPiece (board g) row col) as [p|]; [|reflexivity].
  case_bool_decide; simpl; [|reflexivity].
  now rewrite probe_fold.
Qed.

(** C3: the probe never leaks: however many destinations it tries, the
    legality filter leaves the board, the side to move, the castling rights,
    the en-passant target, the clocks and the history as it found them. *)
Theorem generateLegalMoves_restores (g : GameState) (row col : Z) :
  (generateLegalMovesForSquare g row col).2 = g.
Proof. now rewrite generateLegalMoves_eq. Qed.

(** The legal destinations, as a filter of the pseudo-legal ones. *)
Lemma legalMoves_filter (g : GameState) (row col : Z) :
  legalMoves g row col =
  match getPiece (board g) row col with
  | Some p =>
      if bool_decide (pcolor p = turn g)
      then List.filter (probeSafe g row col (pcolor p)) (getPseudoMovesForPiece g (board g) row col)
      else []
  | None => []
  end.
Proof. unfold legalMoves. now rewrite generateLegalMoves_eq. Qed.

(** What a legal destination is made of. *)
Lemma legalMoves_sound (g : GameState) (row col : Z) (mv : Dest) :
  In mv (legalMoves g row col) ->
  exists p, getPiece (board g) row col = Some p /\ pcolor p = turn g
    /\ In mv (getPseudoMovesForPiece g (board g) row col)
    /\ isKingInCheck (probeBoard g row col mv) (turn g) = false.
Proof.
  rewrite legalMoves_filter. destruct (getPiece (board g) row col) as [p|]; [|intros []].
  case_bool_decide as Hc; [|intros []].
  rewrite filter_In. unfold probeSafe. rewrite negb_true_iff.
  intros [Hin Hchk]. exists p. rewrite <- Hc. auto.
Qed.

(** C1: a destination is legal exactly when the square holds a piece of the
    side to move, the destination is pseudo-legal for it, and after the
    move is simulated (with the current castling rights and en-passant
    target) the mover's king is not attacked. *)
Theorem legalMoves_spec (g : GameState) (row col : Z) (mv : Dest) :
  In mv (legalMoves g row col) <->
  exists p, getPiece (board g) row col = Some p /\ pcolor p = turn g
    /\ In mv (getPseudoMovesForPiece g (board g) row col)
    /\ isKingInCheck (probeBoard g row col mv) (turn g) = false.
Proof.
  split; [apply legalMoves_sound|].
  intros (p & Hp & Hc & Hin & Hchk). rewrite legalMoves_filter, Hp.
  rewrite bool_decide_eq_true_2 by exact Hc. apply filter_In.
  unfold probeSafe. rewrite Hc, Hchk. auto.
Qed.

(** The pseudo-legal destinations read the castling rights and the
    en-passant target of the state, and nothing else of it. *)
Lemma pseudoMoves_ext (g g' : GameState) (b : Board) (row col : Z) :
  castlingRights g = castlingRights g' -> enPassantTarget g = enPassantTarget g' ->
  getPseudoMovesForPiece g b row col = getPseudoMovesForPiece g' b row col.
Proof.
  intros Hc He. unfold getPseudoMovesForPiece.
  destruct (getPiece b row col) as [p|]; [|reflexivity].
  destruct (pkind p); try reflexivity.
  - unfold pawnMoves. now rewrite He.
  - unfold castlingMoves. now rewrite Hc.
Qed.

Lemma probeBoard_ext (g g' : GameState) (row col : Z) (mv : Dest) :
  board g = board g' -> enPassantTarget g = enPassantTarget g' ->
  probeBoard g row col mv = probeBoard g' row col mv.
Proof.
  intros Hb He. unfold probeBoard, applyMoveOnBoard. rewrite Hb.
  replace (enPassantCapture g) with (enPassantCapture g')
    by (unfold enPassantCapture; now rewrite He).
  destruct (enPassantCapture g' _ _ _ _ _ _). reflexivity.
Qed.

(** The legal destinations read the board, the side to move, the castling
    rights and the en-passant target, and nothing else of the state. *)
Lemma legalMoves_ext (g g' : GameState) (row col : Z) :
  board g = board g' -> turn g = turn g' -> castlingRights g = castlingRights g' ->
  enPassantTarget g = enPassantTarget g' -> legalMoves g row col = legalMoves g' row col.
Proof.
  intros Hb Ht Hc He. unfold legalMoves. rewrite !generateLegalMoves_eq. simpl.
  rewrite <- Hb, <- Ht, (pseudoMoves_ext g g') by assumption.
  destruct (getPiece (board g) row col) as [p|]; [|reflexivity].
  destruct (bool_decide _); [|reflexivity].
  apply filter_ext. intros mv. unfold probeSafe. now rewrite (probeBoard_ext g g').
Qed.

Lemma sideHasAnyLegalMove_ext (g g' : GameState) (c : Color) :
  board g = board g' -> turn g = turn g' -> castlingRights g = castlingRights g' ->
  enPassantTarget g = enPassantTarget g' -> sideHasAnyLegalMove g c = sideHasAnyLegalMove g' c.
Proof.
  intros Hb Ht Hc He. unfold sideHasAnyLegalMove. rewrite Hb.
  apply existsb_ext. intros sq. now rewrite (legalMoves_ext g g').
Qed.
