(* ===== verification/Position.v ===== *)
(** * Positions of a game and the moves that keep them positions

  A position of a game ([posInv]) has an 8x8 board with one king of each
  colour, the side that has just moved not in check, an en-passant target
  that is an empty square of the board (when set), and each colour's king
  on its home square while it keeps a castling right.  A committed legal
  move ([commitMove]: the board and the turn as [finalizeMove] leaves them,
  renderer.js 804-828) turns a position into a position
  ([legal_move_preserves_position]).  This is the specification's safety
  property of section 7 ("legal-move generation never returns a
  destination that leaves the mover's own king in check"), lifted from the
  legality filter to whole games. *)

From Stdlib Require Import ZArith Lia List.
From stdpp Require Import base list decidable.
From S2P Require Import Prelude Board Attack MoveGen AttackSpec Kings Apply Legal.

Open Scope Z_scope.

(** Steps 1 and 3 of [finalizeMove]: the move committed with [isReal], and
    the turn given to the opponent of the moved piece. *)
Definition commitMove (g : GameState) (fr fc tr tc : Z) (pp : Cell) : GameState :=
  let '(b', g1, res) := applyMoveOnBoard g (board g) fr fc tr tc (mkApplyOpts true pp) in
  setTurn (setBoard g1 b')
    (if bool_decide (getColor (movedPiece res) = Some White) then Black else White).

(** A promotion piece the dialog can supply for the side [X]: a queen,
    rook, bishop or knight of [X], or none. *)
Definition promoOk (X : Color) (pp : Cell) : Prop :=
  match pp with Some q => pcolor q = X /\ pkind q <> King | None => True end.

Record posInv (g : GameState) : Prop := {
  pos_wf : boardWf (board g);
  pos_kings : forall c, kingCount (board g) c = 1%nat;
  pos_safe : isKingInCheck (board g) (opp (turn g)) = false;
  pos_ep : epWf g (board g);
  pos_castle : forall c,
    (kingSideRight (castlingRights g) c || queenSideRight (castlingRights g) c)%bool = true ->
    getPiece (board g) (homeRank c) 4 = Some (mkPiece c King) }.

(** ** Moving a piece *)

Definition movePiece (b : Board) (fr fc tr tc : Z) : Board :=
  setCell (setCell b fr fc None) tr tc (getPiece b fr fc).

Lemma isKingCell_None c : isKingCell None c = false.
Proof. reflexivity. Qed.

#[export] Hint Rewrite isKingCell_None : chess_rw.

(** Moving a piece onto a square that holds no king of [c] keeps the
    number of kings of [c]. *)
Lemma kingCount_movePiece b fr fc tr tc c :
  boardWf b -> inBounds fr fc = true -> inBounds tr tc = true -> (fr, fc) <> (tr, tc) ->
  isKingCell (getPiece b tr tc) c = false ->
  kingCount (movePiece b fr fc tr tc) c = kingCount b c.
Proof.
  intros Hwf Hf Ht Hne Hk. unfold movePiece.
  pose proof (kingCount_setCell b fr fc None c Hwf Hf) as H1.
  pose proof (kingCount_setCell (setCell b fr fc None) tr tc (getPiece b fr fc) c
                (setCell_wf b Hwf fr fc None) Ht) as H2.
  apply inBounds_spec in Hf.
  rewrite getPiece_setCell, bool_decide_eq_false_2, Hk in H2 by (auto; lia).
  rewrite isKingCell_None in H1. lia.
Qed.

Lemma getPiece_movePiece b fr fc tr tc r c :
  boardWf b -> inBounds fr fc = true -> inBounds tr tc = true ->
  getPiece (movePiece b fr fc tr tc) r c =
    if bool_decide ((tr, tc) = (r, c)) then getPiece b fr fc
    else if bool_decide ((fr, fc) = (r, c)) then None else getPiece b r c.
Proof.
  intros Hwf Hf%inBounds_spec Ht%inBounds_spec. unfold movePiece.
  rewrite !getPiece_setCell by (auto with chess; lia). reflexivity.
Qed.

Lemma movePiece_wf b fr fc tr tc : boardWf b -> boardWf (movePiece b fr fc tr tc).
Proof. intros Hwf. unfold movePiece. auto with chess. Qed.

#[export] Hint Resolve movePiece_wf : chess.

(** ** The board a move leaves, by the shape of the move *)

Lemma enPassantCapture_plain g b fc tr tc color type :
  (type = Some Pawn -> fc = tc \/ boardAt b tr tc <> None) ->
  enPassantCapture g b fc tr tc color type = (b, boardAt b tr tc).
Proof.
  intros H. unfold enPassantCapture.
  destruct (decide (type = Some Pawn)) as [Hp|Hp]; [|now rewrite bool_decide_eq_false_2].
  destruct (H Hp) as [->|Hn]; [now rewrite Z.eqb_refl, andb_false_r|].
  rewrite (bool_decide_eq_false_2 (boardAt b tr tc = None)) by exact Hn.
  now rewrite andb_false_r, andb_false_l.
Qed.

Lemma castleRook_plain b fc tr tc type :
  (type = Some King -> Z.abs (tc - fc) <= 1) -> castleRook b fc tr tc type = b.
Proof.
  intros H. unfold castleRook.
  destruct (decide (type = Some King)) as [Hk|Hk]; [|now rewrite bool_decide_eq_false_2].
  specialize (H Hk). replace (Z.abs (tc - fc) =? 2) with false by (symmetry; apply Z.eqb_neq; lia).
  now rewrite andb_false_r.
Qed.

Section Shapes.
Context (g : GameState) (b : Board) (fr fc tr tc : Z) (p : Piece) (opts : ApplyOpts).
Hypothesis (Hwf : boardWf b) (Hp : getPiece b fr fc = Some p).

Lemma boardAt_from : boardAt b fr fc = Some p.
Proof. rewrite <- getPiece_in; [exact Hp|]. eapply getPiece_Some_inBounds; eauto. Qed.

(** A move that is neither an en-passant capture nor a castling: the
    piece moves, and a pawn on its last row is promoted. *)
Lemma applyMove_plain :
  (pkind p = Pawn -> fc = tc \/ getPiece b tr tc <> None) ->
  (pkind p = King -> Z.abs (tc - fc) <= 1) -> inBounds tr tc = true ->
  (applyMoveOnBoard g b fr fc tr tc opts).1.1
  = promote (movePiece b fr fc tr tc) tr tc (Some (pcolor p)) (Some (pkind p)) opts.
Proof.
  intros Hpawn Hking Ht. unfold applyMoveOnBoard. rewrite boardAt_from. cbn [getColor getType].
  rewrite enPassantCapture_plain.
  2: { intros [= Hk]. rewrite <- getPiece_in by exact Ht. auto. }
  cbn. rewrite castleRook_plain by (intros [= Hk]; auto).
  unfold movePiece. now rewrite Hp.
Qed.

(** An en-passant capture: the enemy pawn beside the origin is removed,
    then the pawn moves. *)
Lemma applyMove_enPassant :
  pkind p = Pawn -> tr = fr + pawnDir (pcolor p) -> fc <> tc ->
  getPiece b tr tc = None -> enPassantTarget g = Some (tr, tc) -> inBounds tr tc = true ->
  (applyMoveOnBoard g b fr fc tr tc opts).1.1
  = promote (movePiece (setCell b fr tc None) fr fc tr tc) tr tc
      (Some (pcolor p)) (Some (pkind p)) opts.
Proof.
  intros Hk Htr Hne Hto Hep Ht. unfold applyMoveOnBoard. rewrite boardAt_from.
  cbn [getColor getType]. rewrite Hk. unfold enPassantCapture.
  rewrite <- getPiece_in, Hto, Hep by exact Ht.
  replace (negb (fc =? tc)) with true by (symmetry; apply negb_true_iff, Z.eqb_neq; exact Hne).
  rewrite !bool_decide_eq_true_2 by reflexivity. cbn.
  rewrite castleRook_not_king by congruence.
  replace (if bool_decide (Some (pcolor p) = Some White) then tr + 1 else tr - 1) with fr
    by (subst tr; case_bool_decide as Hw; [injection Hw as ->|destruct (pcolor p); [congruence|]];
        cbn; lia).
  unfold movePiece. pose proof (getPiece_Some_inBounds _ _ _ _ Hp) as Hf%inBounds_spec.
  apply inBounds_spec in Ht.
  rewrite getPiece_setCell, bool_decide_eq_false_2, Hp by (auto; first [lia | congruence]).
  reflexivity.
Qed.

(** Castling: the king moves two columns from column 4, then the rook of
    that side jumps over it. *)
Lemma applyMove_castle :
  pkind p = King -> fc = 4 -> (tc = 6 \/ tc = 2) -> tr = fr ->
  (applyMoveOnBoard g b fr fc tr tc opts).1.1
  = let rookFrom := if bool_decide (tc = 6) then 7 else 0 in
    let rookTo := if bool_decide (tc = 6) then 5 else 3 in
    setCell (setCell (movePiece b fr fc tr tc) fr rookTo (getPiece b fr rookFrom)) fr rookFrom None.
Proof.
  intros Hk Hfc Htc Htr. unfold applyMoveOnBoard. rewrite boardAt_from.
  cbn [getColor getType]. rewrite Hk. rewrite Htr, Hfc in *. rewrite enPassantCapture_not_pawn by congruence. cbn.
  rewrite promote_not_pawn by congruence.
  pose proof (getPiece_Some_inBounds _ _ _ _ Hp) as Hf%inBounds_spec.
  unfold castleRook. rewrite bool_decide_eq_true_2 by reflexivity.
  destruct Htc as [->| ->]; cbn; unfold movePiece; rewrite Hp; cbn.
  all: rewrite <- getPiece_in by (apply inBounds_spec; lia).
  all: rewrite getPiece_setCell, bool_decide_eq_false_2 by (auto with chess; first [lia | congruence]).
  all: rewrite getPiece_setCell, bool_decide_eq_false_2 by (auto with chess; first [lia | congruence]).
  all: reflexivity.
Qed.
End Shapes.

(** ** The shapes of a pseudo-legal move in a position *)

Lemma piece_eta (p : Piece) : p = mkPiece (pcolor p) (pkind p).
Proof. now destruct p. Qed.

(** A king that keeps a castling right stands on its home square, so a
    castling destination is two columns from column 4 on the home row. *)
Lemma castle_from_home g fr fc p :
  posInv g -> getPiece (board g) fr fc = Some p -> pkind p = King ->
  (kingSideRight (castlingRights g) (pcolor p) || queenSideRight (castlingRights g) (pcolor p))%bool
    = true ->
  fr = homeRank (pcolor p) /\ fc = 4.
Proof.
  intros Hinv Hp Hk Hr. pose proof (pos_castle g Hinv (pcolor p) Hr) as Hh.
  rewrite (piece_eta p), Hk in Hp.
  destruct (king_square_unique _ _ _ _ _ _ (pos_kings g Hinv (pcolor p)) Hp Hh). auto.
Qed.

Lemma legal_shape g fr fc tr tc p :
  posInv g -> getPiece (board g) fr fc = Some p ->
  In (tr, tc) (getPseudoMovesForPiece g (board g) fr fc) ->
  ((pkind p = Pawn -> fc = tc \/ getPiece (board g) tr tc <> None)
   /\ (pkind p = King -> Z.abs (tc - fc) <= 1))
  \/ (pkind p = Pawn /\ tr = fr + pawnDir (pcolor p) /\ fc <> tc
      /\ getPiece (board g) tr tc = None /\ enPassantTarget g = Some (tr, tc)
      /\ exists adj, getPiece (board g) fr tc = Some adj /\ pkind adj = Pawn
                     /\ pcolor adj <> pcolor p)
  \/ (pkind p = King /\ fr = homeRank (pcolor p) /\ fc = 4 /\ tr = fr
      /\ ((tc = 6 /\ kingSideOk g (board g) (pcolor p))
          \/ (tc = 2 /\ queenSideOk g (board g) (pcolor p)))).
Proof.
  intros Hinv Hp Hin. unfold getPseudoMovesForPiece in Hin. rewrite Hp in Hin.
  destruct (pkind p) eqn:Hk; try (left; split; intros; discriminate).
  - apply pawnMoves_cases in Hin as [(-> & _)|[(_ & _ & Hocc)|(Htr & Hc & Hep & Hadj)]].
    + left. split; [auto|discriminate].
    + left. split; [auto|discriminate].
    + right; left. pose proof (pos_ep g Hinv) as He. unfold epWf in He. rewrite Hep in He.
      repeat split; try tauto; lia.
  - apply in_app_iff in Hin as [Hin|Hin].
    + left. split; [discriminate|]. intros _.
      apply stepMoves_offset, kingDeltas_col in Hin. simpl in Hin. lia.
    + right; right. apply In_castlingMoves in Hin.
      assert (Hr : (kingSideRight (castlingRights g) (pcolor p)
                    || queenSideRight (castlingRights g) (pcolor p))%bool = true)
        by (unfold kingSideOk, queenSideOk in Hin; apply orb_true_iff; tauto).
      destruct (castle_from_home g fr fc p Hinv Hp Hk Hr) as [-> ->].
      destruct Hin as [[[= -> ->] H]|[[= -> ->] H]]; auto 10.
Qed.

(** ** Kings are neither taken nor created *)

(** The destination of a pseudo-legal move in a position holds no king:
    not the mover's (a piece never lands on its own side), and not the
    opponent's, which would be in check with the mover to play. *)
Lemma target_not_king g fr fc tr tc p c :
  posInv g -> getPiece (board g) fr fc = Some p -> pcolor p = turn g ->
  In (tr, tc) (getPseudoMovesForPiece g (board g) fr fc) ->
  isKingCell (getPiece (board g) tr tc) c = false.
Proof.
  intros Hinv Hp Hc Hin. unfold isKingCell. apply bool_decide_eq_false_2. intros Hk.
  destruct (decide (c = pcolor p)) as [->|Hne].
  - destruct (pseudoMoves_destOk g (board g) fr fc p (tr, tc) (pos_ep g Hinv) Hp Hin) as [_ Hn].
    cbn in Hn. rewrite Hk in Hn. unfold notOwn in Hn. cbn in Hn.
    now rewrite bool_decide_eq_true_2 in Hn.
  - assert (Hopp : c = opp (turn g))
      by (revert Hne; rewrite <- Hc; destruct c, (pcolor p); simpl; congruence).
    pose proof (pos_safe g Hinv) as Hsafe. rewrite <- Hopp in Hsafe.
    unfold isKingInCheck in Hsafe.
    rewrite (findKing_unique _ _ _ _ (pos_kings g Hinv c) Hk) in Hsafe.
    replace (opp c) with (pcolor p) in Hsafe by (rewrite Hopp, opp_involutive; congruence).
    rewrite (pseudo_capture_attacked g (board g) fr fc p tr tc Hp Hin) in Hsafe; [discriminate|].
    congruence.
Qed.

(** Promotion replaces a pawn with a piece that is not a king. *)
Lemma kingCount_promote b tr tc color type opts c :
  boardWf b -> inBounds tr tc = true ->
  (type = Some Pawn -> isKingCell (getPiece b tr tc) c = false) ->
  (forall q, promotionPiece opts = Some q -> pkind q <> King) ->
  kingCount (promote b tr tc color type opts) c = kingCount b c.
Proof.
  intros Hwf Ht Hold Hq. unfold promote.
  destruct (decide (type = Some Pawn)) as [Hk|Hk]; [|now rewrite bool_decide_eq_false_2].
  destruct (_ && _)%bool; [|reflexivity].
  destruct (promotionPiece opts) as [q|] eqn:E;
    apply kingCount_setCell_same; auto; unfold isKingCell; apply bool_decide_eq_false_2.
  - intros [= ->]. exact (Hq _ eq_refl eq_refl).
  - destruct color; discriminate.
Qed.

Lemma isKingCell_notKing q c : pkind q <> King -> isKingCell (Some q) c = false.
Proof. intros H. apply bool_decide_eq_false_2. intros [= ->]. auto. Qed.

(** A pseudo-legal destination is on the board and is not the origin. *)
Lemma pseudo_dest g fr fc tr tc p :
  epWf g (board g) -> getPiece (board g) fr fc = Some p ->
  In (tr, tc) (getPseudoMovesForPiece g (board g) fr fc) ->
  inBounds tr tc = true /\ (fr, fc) <> (tr, tc).
Proof.
  intros Hep Hp Hin.
  destruct (pseudoMoves_destOk g (board g) fr fc p (tr, tc) Hep Hp Hin) as [Hb Hn].
  split; [exact Hb|]. intros [= <- <-]. cbn in Hn. rewrite Hp in Hn.
  unfold notOwn in Hn. cbn in Hn. now rewrite bool_decide_eq_true_2 in Hn.
Qed.

Lemma promoOk_notKing X pp q : promoOk X pp -> pp = Some q -> pkind q <> King.
Proof. intros H ->. apply H. Qed.

(** Each colour keeps exactly one king through a legal move. *)
(** An en-passant capture takes a pawn and carries a pawn: no king count
    changes. *)
Lemma kings_enPassant g fr fc tr tc p pp c X adj :
  boardWf (board g) -> getPiece (board g) fr fc = Some p -> promoOk X pp ->
  inBounds tr tc = true -> pkind p = Pawn -> tr = fr + pawnDir (pcolor p) -> fc <> tc ->
  getPiece (board g) tr tc = None -> enPassantTarget g = Some (tr, tc) ->
  getPiece (board g) fr tc = Some adj -> pkind adj = Pawn ->
  kingCount (applyMoveOnBoard g (board g) fr fc tr tc (mkApplyOpts true pp)).1.1 c
  = kingCount (board g) c.
Proof.
  intros Hwf Hp Hpp Ht Hk Htr Hfc Hto Hep Hadj Hak.
  pose proof (getPiece_Some_inBounds _ _ _ _ Hp) as Hf.
  rewrite (applyMove_enPassant g (board g) fr fc tr tc p (mkApplyOpts true pp)) by auto.
  assert (Hf' := Hf). apply inBounds_spec in Hf', Ht as Ht'.
  assert (Hadjb : inBounds fr tc = true) by (apply inBounds_spec; lia).
  assert (Hne : (fr, fc) <> (tr, tc)) by (intros [= _ E]; congruence).
  rewrite kingCount_promote; auto with chess.
  - rewrite kingCount_movePiece; auto with chess.
    + apply kingCount_setCell_same; auto. rewrite Hadj. apply isKingCell_notKing. congruence.
    + rewrite getPiece_setCell, bool_decide_eq_false_2, Hto by (auto; first [lia|congruence]).
      reflexivity.
  - intros _. rewrite getPiece_movePiece, bool_decide_eq_true_2 by auto with chess.
    rewrite getPiece_setCell, bool_decide_eq_false_2, Hp by (auto; first [lia|congruence]).
    apply isKingCell_notKing. congruence.
  - intros q. eapply promoOk_notKing; eauto.
Qed.

(** Castling carries the king to an empty square and the rook over empty
    squares: no king count changes. *)
Lemma kings_castle g fr fc tr tc p pp c :
  boardWf (board g) -> getPiece (board g) fr fc = Some p ->
  pkind p = King -> fr = homeRank (pcolor p) -> fc = 4 -> tr = fr ->
  (tc = 6 /\ kingSideOk g (board g) (pcolor p)) \/ (tc = 2 /\ queenSideOk g (board g) (pcolor p)) ->
  kingCount (applyMoveOnBoard g (board g) fr fc tr tc (mkApplyOpts true pp)).1.1 c
  = kingCount (board g) c.
Proof.
  intros Hwf Hp Hk Hfr Hfc Htr Hcs. pose proof (getPiece_Some_inBounds _ _ _ _ Hp) as Hf.
  rewrite (applyMove_castle g (board g) fr fc tr tc p (mkApplyOpts true pp))
    by (auto; destruct Hcs as [[? _]|[? _]]; auto).
  cbv zeta. subst tr fc. apply inBounds_spec in Hf as Hf'.
  unfold kingSideOk, queenSideOk in Hcs. rewrite <- Hfr in Hcs.
  destruct Hcs as [(-> & _ & _ & H5 & H6 & _ & H7)|(-> & _ & _ & H1 & H2 & H3 & _ & H0)];
    [rewrite bool_decide_eq_true_2 by reflexivity|rewrite bool_decide_eq_false_2 by lia].
  all: rewrite kingCount_setCell_same, kingCount_setCell_same, kingCount_movePiece;
    auto with chess; try (apply inBounds_spec; lia).
  all: rewrite ?getPiece_setCell, ?getPiece_movePiece, ?bool_decide_eq_false_2
    by (auto with chess; first [lia | congruence | apply inBounds_spec; lia]).
  all: rewrite ?H5, ?H6, ?H7, ?H1, ?H2, ?H3, ?H0; try reflexivity.
  all: apply isKingCell_notKing; discriminate.
Qed.

Lemma legal_move_kings g fr fc tr tc p pp c :
  posInv g -> getPiece (board g) fr fc = Some p -> pcolor p = turn g ->
  In (tr, tc) (getPseudoMovesForPiece g (board g) fr fc) -> promoOk (turn g) pp ->
  kingCount (applyMoveOnBoard g (board g) fr fc tr tc (mkApplyOpts true pp)).1.1 c = 1%nat.
Proof.
  intros Hinv Hp Hc Hin Hpp. pose proof (pos_wf g Hinv) as Hwf.
  pose proof (getPiece_Some_inBounds _ _ _ _ Hp) as Hf.
  destruct (pseudo_dest g fr fc tr tc p (pos_ep g Hinv) Hp Hin) as [Ht Hne].
  pose proof (target_not_king g fr fc tr tc p c Hinv Hp Hc Hin) as Htk.
  rewrite <- (pos_kings g Hinv c).
  destruct (legal_shape g fr fc tr tc p Hinv Hp Hin)
    as [[Hpawn Hking]|[(Hk & Htr & Hfc & Hto & Hep & adj & Hadj & Hak & _)|
                       (Hk & Hfr & Hfc & Htr & Hcs)]].
  - rewrite (applyMove_plain g (board g) fr fc tr tc p (mkApplyOpts true pp)) by auto.
    rewrite kingCount_promote; auto with chess.
    + apply kingCount_movePiece; auto.
    + intros [= Hpk]. rewrite getPiece_movePiece, bool_decide_eq_true_2, Hp by auto.
      apply isKingCell_notKing. congruence.
    + intros q. eapply promoOk_notKing; eauto.
  - exact (kings_enPassant g fr fc tr tc p pp c _ adj Hwf Hp Hpp Ht Hk Htr Hfc Hto Hep Hadj Hak).
  - exact (kings_castle g fr fc tr tc p pp c Hwf Hp Hk Hfr Hfc Htr Hcs).
Qed.

(** ** The probe decides the safety of the committed move *)

(** The board a committed move leaves and the board the legality probe
    inspects (always promoting to a queen) differ at most in the kind of
    the promoted piece. *)
Lemma commit_probe_sameUpTo g b fr fc tr tc p pp :
  boardWf b -> getPiece b fr fc = Some p -> inBounds tr tc = true -> promoOk (pcolor p) pp ->
  sameUpTo (pcolor p) (applyMoveOnBoard g b fr fc tr tc (mkApplyOpts true pp)).1.1
                      (applyMoveOnBoard g b fr fc tr tc probeOpts).1.1.
Proof.
  intros Hwf Hp Ht Hpp. rewrite applyMove_board_isReal. unfold applyMoveOnBoard.
  pose proof (boardAt_from b fr fc p Hp) as Hb. rewrite Hb. cbn [getColor getType].
  pose proof (enPassantCapture_wf g b fc tr tc (Some (pcolor p)) (Some (pkind p)) Hwf) as Hwf1.
  destruct (enPassantCapture _ _ _ _ _ _ _) as [b1 cap]. cbn in Hwf1 |- *.
  destruct (decide (pkind p = Pawn)) as [Hk|Hk];
    [|rewrite !promote_not_pawn by congruence; reflexivity].
  rewrite !castleRook_not_king by congruence. unfold promote.
  destruct (_ && _)%bool; [|reflexivity].
  destruct pp as [q|]; [|reflexivity]. cbn.
  apply sameUpTo_setCell; auto with chess. right. exists q, (mkPiece (pcolor p) Queen).
  destruct Hpp. repeat split; auto; discriminate.
Qed.

(** ** What [commitMove] leaves *)

Lemma commitMove_fields g fr fc tr tc pp :
  let r := applyMoveOnBoard g (board g) fr fc tr tc (mkApplyOpts true pp) in
  board (commitMove g fr fc tr tc pp) = r.1.1
  /\ turn (commitMove g fr fc tr tc pp)
     = (if bool_decide (getColor (boardAt r.1.1 tr tc) = Some White) then Black else White)
  /\ enPassantTarget (commitMove g fr fc tr tc pp) = enPassantTarget r.1.2
  /\ castlingRights (commitMove g fr fc tr tc pp) = castlingRights r.1.2.
Proof.
  unfold commitMove, applyMoveOnBoard. destruct (enPassantCapture _ _ _ _ _ _ _). cbn.
  auto.
Qed.

(** The promoted square holds a piece of the mover. *)
Lemma promote_color b tr tc X type opts :
  boardWf b -> inBounds tr tc = true -> getColor (getPiece b tr tc) = Some X ->
  promoOk X (promotionPiece opts) ->
  getColor (getPiece (promote b tr tc (Some X) type opts) tr tc) = Some X.
Proof.
  intros Hwf Ht%inBounds_spec Hc Hpp. unfold promote.
  destruct (_ && _)%bool; [|exact Hc].
  destruct (promotionPiece opts) as [q|];
    rewrite getPiece_setCell, bool_decide_eq_true_2 by (auto; lia); [apply (f_equal Some), Hpp|];
    reflexivity.
Qed.

Lemma promote_getPiece_frame b tr tc color type opts r c :
  boardWf b -> inBounds tr tc = true -> (tr, tc) <> (r, c) ->
  getPiece (promote b tr tc color type opts) r c = getPiece b r c.
Proof.
  intros Hwf Ht%inBounds_spec Hne. unfold getPiece.
  destruct (inBounds r c) eqn:E; [|reflexivity]. apply inBounds_spec in E.
  apply promote_frame; auto; lia.
Qed.

(** ** The squares a legal move writes *)

Section LegalMove.
Context (g : GameState) (fr fc tr tc : Z) (p : Piece) (pp : Cell).
Hypothesis (Hinv : posInv g) (Hp : getPiece (board g) fr fc = Some p) (Hc : pcolor p = turn g)
  (Hin : In (tr, tc) (getPseudoMovesForPiece g (board g) fr fc)) (Hpp : promoOk (turn g) pp).

Let b' := (applyMoveOnBoard g (board g) fr fc tr tc (mkApplyOpts true pp)).1.1.

(** Two squares with different contents are different squares. *)
Ltac distinct_squares :=
  let E := fresh in intros E; injection E as <- <-;
  match goal with
  | H1 : getPiece ?b ?x ?y = _, H2 : getPiece ?b ?x ?y = _ |- _ =>
      rewrite H1 in H2; try injection H2 as <-; cbn in *; congruence
  end.

(** The destination holds a piece of the mover. *)
Lemma legal_move_dest_color : getColor (getPiece b' tr tc) = Some (turn g).
Proof.
  subst b'. pose proof (pos_wf g Hinv) as Hwf.
  pose proof (getPiece_Some_inBounds _ _ _ _ Hp) as Hf. apply inBounds_spec in Hf as Hf'.
  destruct (pseudo_dest g fr fc tr tc p (pos_ep g Hinv) Hp Hin) as [Ht Hne].
  apply inBounds_spec in Ht as Ht'. rewrite <- Hc in Hpp |- *.
  destruct (legal_shape g fr fc tr tc p Hinv Hp Hin)
    as [[Hpawn Hking]|[(Hk & Htr & Hfc & Hto & Hep & _)|(Hk & Hfr & Hfc & Htr & Hcs)]].
  - rewrite (applyMove_plain g (board g) fr fc tr tc p (mkApplyOpts true pp)) by auto.
    apply promote_color; auto with chess.
    rewrite getPiece_movePiece, bool_decide_eq_true_2, Hp by auto. reflexivity.
  - rewrite (applyMove_enPassant g (board g) fr fc tr tc p (mkApplyOpts true pp)) by auto.
    apply promote_color; auto with chess.
    rewrite getPiece_movePiece, bool_decide_eq_true_2 by auto with chess.
    rewrite getPiece_setCell, bool_decide_eq_false_2, Hp by (auto; first [lia|congruence]).
    reflexivity.
  - rewrite (applyMove_castle g (board g) fr fc tr tc p (mkApplyOpts true pp))
      by (auto; destruct Hcs as [[? _]|[? _]]; auto).
    cbv zeta. subst tr fc. destruct Hcs as [[-> _]|[-> _]];
      [rewrite bool_decide_eq_true_2 by reflexivity|rewrite bool_decide_eq_false_2 by lia].
    all: rewrite !getPiece_setCell, !bool_decide_eq_false_2
           by (auto with chess; first [lia|congruence|apply inBounds_spec; lia]).
    all: rewrite getPiece_movePiece, bool_decide_eq_true_2, Hp by auto; reflexivity.
Qed.

(** A king the move does not carry stays on its square. *)
Lemma legal_move_keeps_kings r c col :
  getPiece (board g) r c = Some (mkPiece col King) -> (fr, fc) <> (r, c) ->
  getPiece b' r c = Some (mkPiece col King).
Proof.
  intros Hkr Hfr_ne. subst b'. pose proof (pos_wf g Hinv) as Hwf.
  pose proof (getPiece_Some_inBounds _ _ _ _ Hp) as Hf. apply inBounds_spec in Hf as Hf'.
  destruct (pseudo_dest g fr fc tr tc p (pos_ep g Hinv) Hp Hin) as [Ht Hne].
  apply inBounds_spec in Ht as Ht'.
  assert (Htne : (tr, tc) <> (r, c)).
  { intros [= <- <-]. pose proof (target_not_king g fr fc tr tc p col Hinv Hp Hc Hin) as H.
    rewrite Hkr in H. unfold isKingCell in H. now rewrite bool_decide_eq_true_2 in H. }
  destruct (legal_shape g fr fc tr tc p Hinv Hp Hin)
    as [[Hpawn Hking]|[(Hk & Htr & Hfc & Hto & Hep & adj & Hadj & Hak & _)|
                       (Hk & Hfr & Hfc & Htr & Hcs)]].
  - rewrite (applyMove_plain g (board g) fr fc tr tc p (mkApplyOpts true pp)) by auto.
    rewrite promote_getPiece_frame, getPiece_movePiece by auto with chess.
    now rewrite !bool_decide_eq_false_2.
  - rewrite (applyMove_enPassant g (board g) fr fc tr tc p (mkApplyOpts true pp)) by auto.
    rewrite promote_getPiece_frame, getPiece_movePiece by auto with chess.
    rewrite !bool_decide_eq_false_2 by auto.
    rewrite getPiece_setCell, bool_decide_eq_false_2 by (auto; first [lia|distinct_squares]).
    exact Hkr.
  - rewrite (applyMove_castle g (board g) fr fc tr tc p (mkApplyOpts true pp))
      by (auto; destruct Hcs as [[? _]|[? _]]; auto).
    cbv zeta. subst tr fc. unfold kingSideOk, queenSideOk in Hcs. rewrite <- Hfr in Hcs.
    destruct Hcs as [(-> & _ & _ & H5 & H6 & _ & H7)|(-> & _ & _ & H1 & H2 & H3 & _ & H0)];
      [rewrite bool_decide_eq_true_2 by reflexivity|rewrite bool_decide_eq_false_2 by lia].
    all: rewrite !getPiece_setCell, !bool_decide_eq_false_2
           by (auto with chess; first [lia|distinct_squares|apply inBounds_spec; lia]).
    all: rewrite getPiece_movePiece, !bool_decide_eq_false_2 by auto; exact Hkr.
Qed.
End LegalMove.

(** ** The en-passant target and the castling rights a move leaves *)

Lemma applyMove_state g b fr fc tr tc pp :
  (applyMoveOnBoard g b fr fc tr tc (mkApplyOpts true pp)).1.2
  = bookkeeping g fr fc tr tc (getColor (boardAt b fr fc)) (getType (boardAt b fr fc))
      (enPassantCapture g b fc tr tc (getColor (boardAt b fr fc)) (getType (boardAt b fr fc))).2.
Proof. unfold applyMoveOnBoard. now destruct (enPassantCapture _ _ _ _ _ _ _). Qed.

(** A king move gives up both rights of its colour. *)
Lemma bookkeeping_king g fr fc tr tc X cap :
  let cr := castlingRights (bookkeeping g fr fc tr tc (Some X) (Some King) cap) in
  (kingSideRight cr X || queenSideRight cr X)%bool = false.
Proof.
  unfold bookkeeping. cbn zeta. rewrite (bool_decide_eq_true_2 (Some King = Some King)) by reflexivity.
  rewrite (bool_decide_eq_false_2 (Some King = Some Rook)) by discriminate.
  destruct (bool_decide (getType cap = Some Rook)); destruct X; cbn; reflexivity.
Qed.

Lemma right_sub c cr cr' :
  crSub cr' cr -> (kingSideRight cr' c || queenSideRight cr' c)%bool = true ->
  (kingSideRight cr c || queenSideRight cr c)%bool = true.
Proof.
  unfold crSub. intros (H1 & H2 & H3 & H4). rewrite !orb_true_iff.
  destruct c; cbn; intuition.
Qed.

Lemma pawnDir_unit c : pawnDir c = 1 \/ pawnDir c = -1.
Proof. destruct c; cbn; auto. Qed.

(** After a legal move the en-passant target, when set, is the empty
    square a pawn has just skipped. *)
Lemma legal_move_ep g fr fc tr tc p pp :
  posInv g -> getPiece (board g) fr fc = Some p -> pcolor p = turn g ->
  In (tr, tc) (getPseudoMovesForPiece g (board g) fr fc) ->
  epWf (commitMove g fr fc tr tc pp) (board (commitMove g fr fc tr tc pp)).
Proof.
  intros Hinv Hp Hc Hin. pose proof (pos_wf g Hinv) as Hwf.
  destruct (commitMove_fields g fr fc tr tc pp) as (Hb & _ & He & _).
  unfold epWf. rewrite He, Hb, applyMove_state, (boardAt_from _ _ _ _ Hp). cbn [getColor getType].
  unfold bookkeeping. cbn [enPassantTarget setEnPassant setCastling setClocks].
  destruct (bool_decide (Some (pkind p) = Some Pawn) && (Z.abs (tr - fr) =? 2))%bool eqn:E;
    [|exact I].
  bool_to_prop. injection H as Hk. apply Z.eqb_eq in H0.
  pose proof Hin as Hin'. unfold getPseudoMovesForPiece in Hin'. rewrite Hp, Hk in Hin'.
  pose proof (pawnDir_unit (pcolor p)) as Hd.
  apply pawnMoves_cases in Hin' as [(-> & Hto & [Htr|(Htr & _ & Hmid)])|[(Htr & _)|(Htr & _)]];
    try lia.
  pose proof (getPiece_Some_inBounds _ _ _ _ Hp) as Hf. apply inBounds_spec in Hf as Hf'.
  destruct (pseudo_dest g fr fc tr fc p (pos_ep g Hinv) Hp Hin) as [Ht Hne].
  apply inBounds_spec in Ht as Ht'.
  replace ((fr + tr) / 2) with (fr + pawnDir (pcolor p))
    by (subst tr; replace (fr + (fr + 2 * pawnDir (pcolor p))) with ((fr + pawnDir (pcolor p)) * 2)
          by ring; now rewrite Z.div_mul).
  split; [apply inBounds_spec; lia|].
  rewrite (applyMove_plain g (board g) fr fc tr fc p (mkApplyOpts true pp)) by (auto; congruence).
  rewrite promote_getPiece_frame, getPiece_movePiece by (auto with chess; intros [=]; lia).
  rewrite !bool_decide_eq_false_2 by (intros [=]; lia). exact Hmid.
Qed.

(** ** Legal moves keep positions *)

(** A committed legal move passes the turn to the opponent. *)
Lemma commitMove_turn (g : GameState) (fr fc tr tc : Z) (pp : Cell) :
  posInv g -> In (tr, tc) (legalMoves g fr fc) -> promoOk (turn g) pp ->
  turn (commitMove g fr fc tr tc pp) = opp (turn g).
Proof.
  intros Hinv Hl Hpp.
  destruct (legalMoves_sound g fr fc (tr, tc) Hl) as (p & Hp & Hc & Hin & _).
  destruct (commitMove_fields g fr fc tr tc pp) as (_ & Ht & _).
  destruct (pseudo_dest g fr fc tr tc p (pos_ep g Hinv) Hp Hin) as [Htb _].
  rewrite Ht, <- getPiece_in by exact Htb.
  rewrite (legal_move_dest_color g fr fc tr tc p pp Hinv Hp Hc Hin Hpp).
  now destruct (turn g).
Qed.

(** The position a committed legal move leaves. *)
Lemma commitMove_posInv (g : GameState) (fr fc tr tc : Z) (pp : Cell) :
  posInv g -> In (tr, tc) (legalMoves g fr fc) -> promoOk (turn g) pp ->
  posInv (commitMove g fr fc tr tc pp).
Proof.
  intros Hinv Hl Hpp.
  destruct (legalMoves_sound g fr fc (tr, tc) Hl) as (p & Hp & Hc & Hin & Hsafe).
  destruct (commitMove_fields g fr fc tr tc pp) as (Hb & Ht & He & Hcr).
  destruct (pseudo_dest g fr fc tr tc p (pos_ep g Hinv) Hp Hin) as [Htb Hne].
  pose proof (commitMove_turn g fr fc tr tc pp Hinv Hl Hpp) as Hturn.
  constructor.
  - rewrite Hb. apply applyMoveOnBoard_wf, pos_wf, Hinv.
  - intros c. rewrite Hb. now apply (legal_move_kings g fr fc tr tc p).
  - rewrite Hturn, opp_involutive, Hb, <- Hc.
    rewrite (isKingInCheck_sameUpTo (pcolor p) _ (probeBoard g fr fc (tr, tc))); [congruence|].
    apply commit_probe_sameUpTo; auto using pos_wf. now rewrite Hc.
  - now apply (legal_move_ep g fr fc tr tc p).
  - intros c Hr. rewrite Hcr, applyMove_state in Hr. rewrite Hb.
    pose proof (pos_castle g Hinv c
                  (right_sub c _ _ (bookkeeping_castling_sub _ _ _ _ _ _ _ _) Hr)) as Hk.
    apply (legal_move_keeps_kings g fr fc tr tc p pp); auto.
    intros [= Hfr Hfc]. subst fr fc. rewrite Hk in Hp. injection Hp as <-.
    rewrite (boardAt_from _ _ _ _ Hk) in Hr. cbn [getColor getType] in Hr.
    now rewrite bookkeeping_king in Hr.
Qed.

(** C9: a committed legal move turns a position of a game into a position:
    for any promotion piece the dialog can supply, after the move the
    board is 8x8, each colour still has exactly one king, the side that
    has just moved is not in check, the en-passant target (when set) is an
    empty square of the board, and each colour keeping a castling right
    still has its king on its home square. *)
Theorem legal_move_preserves_position (g : GameState) (fr fc tr tc : Z) (pp : Cell) :
  posInv g -> In (tr, tc) (legalMoves g fr fc) -> promoOk (turn g) pp ->
  posInv (commitMove g fr fc tr tc pp).
Proof. exact (commitMove_posInv g fr fc tr tc pp). Qed.

(** The standard initial position is a position of a game. *)
Lemma initial_posInv (h f : nat) (hist : list String.string) :
  posInv (mkGameState initialPosition White allCastling None h f hist).
Proof.
  constructor; cbn [board turn castlingRights enPassantTarget].
  - apply initialPosition_wf.
  - intros []; vm_compute; reflexivity.
  - vm_compute. reflexivity.
  - exact I.
  - intros [] _; vm_compute; reflexivity.
Qed.

(** A position is a matter of the board, the side to move, the castling
    rights and the en-passant target. *)
Lemma posInv_ext g g' :
  board g' = board g -> turn g' = turn g -> castlingRights g' = castlingRights g ->
  enPassantTarget g' = enPassantTarget g -> posInv g -> posInv g'.
Proof.
  intros Hb Ht Hc He []. constructor; unfold epWf in *; rewrite ?Hb, ?Ht, ?Hc, ?He; auto.
Qed.

Lemma legal_move_preserves_position_witness :
  (posInv (mkGameState initialPosition White allCastling None 0 1 [])
   /\ In (4, 4) (legalMoves (mkGameState initialPosition White allCastling None 0 1 []) 6 4)
   /\ promoOk White None)
  /\ posInv (commitMove (mkGameState initialPosition White allCastling None 0 1 []) 6 4 4 4 None).
Proof.
  assert (H1 := initial_posInv 0 1 []).
  assert (H2 : In (4, 4) (legalMoves (mkGameState initialPosition White allCastling None 0 1 []) 6 4))
    by (vm_compute; auto).
  split; [split; [exact H1|split; [exact H2|exact I]]|].
  exact (legal_move_preserves_position _ 6 4 4 4 None H1 H2 I).
Defined.
