(* ===== verification/Fen.v ===== *)
(** * Position encoder (renderer.js 253-296)

  [boardToFEN g b activeColor] writes the six fields of the exchange
  format: the placement of [b] rank 8 to rank 1 with runs of empty squares
  as digits, the side to move, the castling rights of [g] in the order
  KQkq (or "-"), the en-passant target of [g] (or "-"), and the two clocks
  of [g].  The rank loop is [fenRank]: a left fold over the columns
  carrying the counter [empty] and the string [rowStr] of the code. *)

From Stdlib Require Import ZArith Lia List String Ascii.
From stdpp Require Import base list decidable.
From S2P Require Import Prelude Board.

Open Scope Z_scope.

(** [letterMap]: lower-case letters per kind. *)
Definition fenLetter (k : Kind) : ascii :=
  match k with
  | Pawn => "p" | Knight => "n" | Bishop => "b"
  | Rook => "r" | Queen => "q" | King => "k"
  end%char.

(** [ch.toUpperCase()] on one ASCII letter. *)
Definition asciiUpper (a : ascii) : ascii :=
  let n := nat_of_ascii a in
  if (97 <=? n)%nat && (n <=? 122)%nat then ascii_of_nat (n - 32) else a.

Definition coordToFENPiece (p : Cell) : string :=
  match p with
  | None => ""
  | Some x =>
      let ch := fenLetter (pkind x) in
      String (if bool_decide (pcolor x = White) then asciiUpper ch else ch) EmptyString
  end.

(** The body of the column loop (lines 270-279). *)
Definition fenRankStep (b : Board) (r : Z) (st : nat * string) (c : Z) : nat * string :=
  let '(empty, rowStr) := st in
  match boardAt b r c with
  | None => (S empty, rowStr)
  | Some p =>
      (0%nat,
       (rowStr ++ (if (0 <? empty)%nat then string_of_nat empty else "")
        ++ coordToFENPiece (Some p))%string)
  end.

(** Lines 267-282: one rank. *)
Definition fenRank (b : Board) (r : Z) : string :=
  let '(empty, rowStr) := fold_left (fenRankStep b r) seq8 (0%nat, ""%string) in
  if (0 <? empty)%nat then (rowStr ++ string_of_nat empty)%string else rowStr.

Definition fenPlacement (b : Board) : string := String.concat "/" (map (fenRank b) seq8).

(** [activeColor === "b" ? "b" : "w"] *)
Definition fenActive (c : Color) : string := match c with Black => "b" | White => "w" end.

(** Lines 286-290: [(... ) || "-"], where the empty string is falsy. *)
Definition fenCastling (cr : CastlingRights) : string :=
  let s := ((if cwK cr then "K" else "") ++ (if cwQ cr then "Q" else "")
            ++ (if cbK cr then "k" else "") ++ (if cbQ cr then "q" else ""))%string in
  match s with EmptyString => "-" | _ => s end.

Definition fenEnPassant (ep : option (Z * Z)) : string :=
  match ep with Some (r, c) => coordToSquare r c | None => "-" end.

Definition boardToFEN (g : GameState) (b : Board) (activeColor : Color) : string :=
  (fenPlacement b ++ " " ++ fenActive activeColor ++ " " ++ fenCastling (castlingRights g)
   ++ " " ++ fenEnPassant (enPassantTarget g) ++ " " ++ string_of_nat (halfmoveClock g)
   ++ " " ++ string_of_nat (fullmoveNumber g))%string.

(** Encoding the standard initial position, White to move, all castling
    rights, no en-passant target and the clocks at 0 and 1, yields the
    standard starting string, whatever the history. *)
Theorem boardToFEN_initial (t : Color) (hist : list string) :
  boardToFEN (mkGameState initialPosition t allCastling None 0 1 hist) initialPosition White
  = "rnbqkbnr/pppppppp/8/8/8/8/PPPPPPPP/RNBQKBNR w KQkq - 0 1"%string.
Proof. vm_compute. reflexivity. Qed.

(** ** The fields contain no separator *)

Lemma allChars_app (f : ascii -> bool) (s t : string) :
  allChars f (s ++ t) = allChars f s && allChars f t.
Proof. induction s as [|x s IH]; simpl; [reflexivity|]. now rewrite IH, andb_assoc. Qed.

Lemma allChars_concat (f : ascii -> bool) (sep : string) (l : list string) :
  allChars f sep = true -> Forall (fun s => allChars f s = true) l ->
  allChars f (String.concat sep l) = true.
Proof.
  intros Hsep. induction l as [|s l IH]; intros Hall; [reflexivity|].
  inversion Hall as [|? ? Hs Hl]; subst.
  destruct l as [|s' l]; [exact Hs|].
  change (String.concat sep (s :: s' :: l)) with (s ++ sep ++ String.concat sep (s' :: l))%string.
  rewrite !allChars_app, Hs, Hsep, IH by exact Hl. reflexivity.
Qed.

(** The characters of the placement field: digits and piece letters. *)
Definition placementChar (a : ascii) : bool :=
  isDigit a || existsb (Ascii.eqb a) ["p";"n";"b";"r";"q";"k";"P";"N";"B";"R";"Q";"K"]%char.

Lemma coordToFENPiece_chars (p : Cell) : allChars placementChar (coordToFENPiece p) = true.
Proof. destruct p as [[[] []]|]; reflexivity. Qed.

Lemma digits_placement (s : string) : allChars isDigit s = true -> allChars placementChar s = true.
Proof.
  induction s as [|x s IH]; simpl; [reflexivity|].
  intros [Hx Hs]%andb_true_iff. rewrite IH by exact Hs. unfold placementChar at 1.
  now rewrite Hx.
Qed.

Lemma fenRankStep_chars b r st c :
  allChars placementChar st.2 = true -> allChars placementChar (fenRankStep b r st c).2 = true.
Proof.
  destruct st as [e s]. unfold fenRankStep. cbn [snd]. intros Hs.
  destruct (boardAt b r c) as [p|]; cbn [snd]; [|exact Hs].
  rewrite !allChars_app, Hs, coordToFENPiece_chars, andb_true_r.
  destruct (0 <? e)%nat; [|reflexivity]. apply digits_placement, string_of_nat_digits.
Qed.


Lemma fenRank_chars (b : Board) (r : Z) : allChars placementChar (fenRank b r) = true.
Proof.
  unfold fenRank.
  assert (H : forall l st, allChars placementChar st.2 = true ->
            allChars placementChar (fold_left (fenRankStep b r) l st).2 = true).
  { induction l as [|c l IH]; intros st Hst; simpl; [exact Hst|].
    apply IH, fenRankStep_chars, Hst. }
  specialize (H seq8 (0%nat, ""%string) eq_refl).
  destruct (fold_left _ _ _) as [e s]. simpl in H.
  destruct (0 <? e)%nat; [|exact H].
  rewrite allChars_app, H. apply digits_placement, string_of_nat_digits.
Qed.

(** ** Decoding the placement field

  A reference decoder, not code of the program (which never reads a
  position string back): each digit is that many empty squares, each
  letter one piece, ranks separated by "/". *)

Definition allPieces : list Piece :=
  [mkPiece White Pawn; mkPiece White Knight; mkPiece White Bishop; mkPiece White Rook;
   mkPiece White Queen; mkPiece White King; mkPiece Black Pawn; mkPiece Black Knight;
   mkPiece Black Bishop; mkPiece Black Rook; mkPiece Black Queen; mkPiece Black King].

Definition decodeChar (a : ascii) : list Cell :=
  if isDigit a then replicate (nat_of_ascii a - 48) None
  else match List.find (fun p => String.eqb (coordToFENPiece (Some p)) (String a EmptyString))
               allPieces with
       | Some p => [Some p]
       | None => []
       end.

Fixpoint decodeRank (s : string) : list Cell :=
  match s with
  | EmptyString => []
  | String a r => decodeChar a ++ decodeRank r
  end.

Definition decodePlacement (s : string) : Board := map decodeRank (splitOn "/"%char s).

Lemma decodeRank_app (s t : string) : decodeRank (s ++ t) = decodeRank s ++ decodeRank t.
Proof. induction s as [|a s IH]; simpl; [reflexivity|]. now rewrite IH, app_assoc. Qed.

Lemma decodeRank_piece (p : Piece) : decodeRank (coordToFENPiece (Some p)) = [Some p].
Proof. destruct p as [[] []]; reflexivity. Qed.

Lemma decodeRank_count (e : nat) :
  (1 <= e <= 9)%nat -> decodeRank (string_of_nat e) = replicate e None.
Proof.
  intros He. do 10 (destruct e as [|e]; [first [lia | reflexivity]|]). lia.
Qed.

Section RankFold.
Context (b : Board) (r : Z).

Lemma fenRank_fold (k : nat) :
  (k <= 8)%nat ->
  let st := fold_left (fenRankStep b r) (seqZ 0 (Z.of_nat k)) (0%nat, ""%string) in
  decodeRank st.2 ++ replicate st.1 None = map (boardAt b r) (seqZ 0 (Z.of_nat k))
  /\ (st.1 <= k)%nat.
Proof.
  induction k as [|k IH]; intros Hk; [split; [reflexivity|simpl; lia]|].
  rewrite seqZ_S, fold_left_app, map_app. cbn [fold_left].
  destruct (fold_left _ _ _) as [e s]. cbn [fst snd] in IH.
  destruct (IH ltac:(lia)) as [Heq He]. unfold fenRankStep.
  replace (0 + Z.of_nat k) with (Z.of_nat k) by lia. cbn [map].
  destruct (boardAt b r (Z.of_nat k)) as [p|]; cbn [fst snd]; split; try lia.
  - rewrite !decodeRank_app, decodeRank_piece, <- Heq, app_nil_r.
    destruct (Nat.ltb_spec 0 e).
    + rewrite decodeRank_count by lia. now rewrite app_assoc.
    + replace e with 0%nat by lia. simpl. now rewrite app_nil_r.
  - rewrite replicate_S_end, app_assoc, Heq. reflexivity.
Qed.

Lemma decodeRank_fenRank : decodeRank (fenRank b r) = map (boardAt b r) seq8.
Proof.
  unfold fenRank. pose proof (fenRank_fold 8 ltac:(lia)) as [Heq He].
  change (seqZ 0 (Z.of_nat 8)) with seq8 in *.
  destruct (fold_left _ _ _) as [e s]. simpl in *.
  destruct (Nat.ltb_spec 0 e).
  - rewrite decodeRank_app, decodeRank_count by lia. exact Heq.
  - replace e with 0%nat in Heq by lia. now rewrite app_nil_r in Heq.
Qed.
End RankFold.

Lemma list8 {A} (l : list A) :
  length l = 8%nat -> exists a0 a1 a2 a3 a4 a5 a6 a7, l = [a0; a1; a2; a3; a4; a5; a6; a7].
Proof.
  intros H. do 8 (destruct l as [|? l]; [discriminate|]).
  destruct l; [|discriminate]. eauto 10.
Qed.

(** A well-formed board is the table of its squares. *)
Lemma board_table (b : Board) :
  boardWf b -> map (fun r => map (boardAt b r) seq8) seq8 = b.
Proof.
  intros [Hlen Hrows].
  destruct (list8 b Hlen) as (r0 & r1 & r2 & r3 & r4 & r5 & r6 & r7 & ->).
  repeat match goal with
  | H : Forall _ (_ :: _) |- _ =>
      let Hl := fresh "Hl" in let Ht := fresh "Ht" in
      inversion H as [|? ? Hl Ht]; subst; clear H;
      destruct (list8 _ Hl) as (? & ? & ? & ? & ? & ? & ? & ? & ->)
  end.
  reflexivity.
Qed.

(** C25: the placement field loses nothing: decoding it (digits as runs of
    empty squares, letters as pieces, "/" between ranks) gives back the
    board it encodes, for every board of eight rows of eight squares. *)
Theorem fenPlacement_roundtrip (b : Board) :
  boardWf b -> decodePlacement (fenPlacement b) = b.
Proof.
  intros Hwf. unfold decodePlacement, fenPlacement.
  rewrite splitOn_concat.
  - rewrite map_map. erewrite map_ext by (intros r; apply decodeRank_fenRank).
    now apply board_table.
  - discriminate.
  - apply Forall_forall. intros s (r & <- & _)%in_map_iff.
    apply (allChars_hasChar placementChar); [reflexivity|apply fenRank_chars].
Qed.

Lemma fenPlacement_roundtrip_witness :
  boardWf initialPosition /\ decodePlacement (fenPlacement initialPosition) = initialPosition.
Proof. split; [exact initialPosition_wf|]. apply fenPlacement_roundtrip, initialPosition_wf. Defined.
