(* ===== verification/Status.v ===== *)
(** * Game status (renderer.js 302-352)

  [checkGameOver g currentBoard sideToMove] classifies the position in the
  code's order: no legal move (checkmate or stalemate), insufficient
  material, the fifty-move rule, threefold repetition.  The returned object
  [{ over, result, winner }] is the inductive [Status]; [resultText] and
  [winnerText] give the strings the code shows.  [checkRepetition] compares
  the first four space-separated fields of the encoded positions, as the
  code's [split(" ").slice(0, 4).join(" ")] does. *)

From Stdlib Require Import ZArith Lia List String Ascii.
From stdpp Require Import base list decidable strings.
From S2P Require Import Prelude Board Attack MoveGen Apply Legal Fen.

Open Scope Z_scope.

(** Lines 304-309: the pieces of the board, row by row. *)
Definition boardPieces (b : Board) : list Piece :=
  omap (fun sq => boardAt b sq.1 sq.2) squares64.

Definition checkInsufficientMaterial (b : Board) : bool :=
  let pieces := boardPieces b in
  if (length pieces =? 2)%nat then true
  else if (length pieces =? 3)%nat then
    let types := map pkind pieces in
    bool_decide (Knight ∈ types) || bool_decide (Bishop ∈ types)
  else false.

(** [fen.split(" ").slice(0, 4).join(" ")] *)
Definition cleanFen (fen : string) : string := String.concat " " (firstn 4 (splitOn " "%char fen)).

Definition checkRepetition (g : GameState) (fen : string) : bool :=
  let c := cleanFen fen in
  (3 <=? length (List.filter (fun f => bool_decide (cleanFen f = c)) (positionHistory g)))%nat.

Inductive GameResult :=
  | Checkmate | Stalemate | InsufficientMaterial | FiftyMoveRule | ThreefoldRepetition.

Inductive Winner := WinnerWhite | WinnerBlack | WinnerDraw.

(** [{ over: false }] or [{ over: true, result, winner }]. *)
Inductive Status := NotOver | Over (result : GameResult) (winner : Winner).

#[export] Instance GameResult_eq_dec : EqDecision GameResult.
Proof. solve_decision. Defined.
#[export] Instance Winner_eq_dec : EqDecision Winner.
Proof. solve_decision. Defined.
#[export] Instance Status_eq_dec : EqDecision Status.
Proof. solve_decision. Defined.

Definition resultText (r : GameResult) : string :=
  match r with
  | Checkmate => "Checkmate" | Stalemate => "Stalemate"
  | InsufficientMaterial => "Insufficient Material" | FiftyMoveRule => "50-Move Rule"
  | ThreefoldRepetition => "Threefold Repetition"
  end.

Definition winnerText (w : Winner) : string :=
  match w with WinnerWhite => "White" | WinnerBlack => "Black" | WinnerDraw => "Draw" end.

Definition checkGameOver (g : GameState) (currentBoard : Board) (sideToMove : Color) : Status :=
  let inCheck := isKingInCheck currentBoard sideToMove in
  let hasMoves := sideHasAnyLegalMove g sideToMove in
  if negb hasMoves then
    if inCheck then
      Over Checkmate (if bool_decide (sideToMove = White) then WinnerBlack else WinnerWhite)
    else Over Stalemate WinnerDraw
  else if checkInsufficientMaterial currentBoard then Over InsufficientMaterial WinnerDraw
  else if (100 <=? halfmoveClock g)%nat then Over FiftyMoveRule WinnerDraw
  else
    let currentFen := boardToFEN g currentBoard sideToMove in
    if checkRepetition g currentFen then Over ThreefoldRepetition WinnerDraw
    else NotOver.

(** ** What repetition compares *)

(** The en-passant target, when set, is a square of the board. *)
Definition epInBounds (g : GameState) : Prop :=
  match enPassantTarget g with Some (r, c) => inBounds r c = true | None => True end.

Abbreviation noSpace s := (hasChar " "%char s = false).

Lemma noSpace_digits (s : string) : allChars isDigit s = true -> noSpace s.
Proof. apply allChars_hasChar. reflexivity. Qed.

Lemma noSpace_app (s t : string) : noSpace s -> noSpace t -> noSpace (s ++ t).
Proof. rewrite hasChar_app. intros -> ->. reflexivity. Qed.

Lemma noSpace_placement (b : Board) : noSpace (fenPlacement b).
Proof.
  apply (allChars_hasChar (fun a => placementChar a || Ascii.eqb a "/")); [reflexivity|].
  apply allChars_concat; [reflexivity|].
  apply List.Forall_forall. intros s (r & <- & _)%in_map_iff.
  eapply allChars_impl; [|apply fenRank_chars]. intros a ->. reflexivity.
Qed.

Lemma noSpace_active (c : Color) : noSpace (fenActive c).
Proof. now destruct c. Qed.

Lemma noSpace_castling (cr : CastlingRights) : noSpace (fenCastling cr).
Proof. destruct cr as [[] [] [] []]; reflexivity. Qed.

Lemma noSpace_enPassant (g : GameState) : epInBounds g -> noSpace (fenEnPassant (enPassantTarget g)).
Proof.
  unfold epInBounds. destruct (enPassantTarget g) as [[r c]|]; [|reflexivity].
  intros [Hr Hc]%inBounds_spec. unfold fenEnPassant, coordToSquare, string_of_Z.
  replace (8 - r <? 0) with false by (symmetry; apply Z.ltb_ge; lia).
  apply (noSpace_app (String _ EmptyString)); [|apply noSpace_digits, string_of_nat_digits].
  assert (c = 0 \/ c = 1 \/ c = 2 \/ c = 3 \/ c = 4 \/ c = 5 \/ c = 6 \/ c = 7) as Hc'
    by lia;
    destruct Hc' as [->|[->|[->|[->|[->|[->|[->| ->]]]]]]]; reflexivity.
Qed.

#[export] Hint Resolve noSpace_placement noSpace_active noSpace_castling noSpace_enPassant
  noSpace_digits string_of_nat_digits : chess.

Lemma boardToFEN_concat (g : GameState) (b : Board) (c : Color) :
  boardToFEN g b c =
  String.concat " " [fenPlacement b; fenActive c; fenCastling (castlingRights g);
                     fenEnPassant (enPassantTarget g); string_of_nat (halfmoveClock g);
                     string_of_nat (fullmoveNumber g)].
Proof. reflexivity. Qed.

(** C26: the repetition key of an encoded position is its first four fields,
    the placement, the side to move, the castling rights and the
    en-passant target: the clocks are dropped, and nothing else is (the
    en-passant target being a square of the board). *)
Theorem cleanFen_boardToFEN (g : GameState) (b : Board) (c : Color) :
  epInBounds g ->
  cleanFen (boardToFEN g b c) =
  String.concat " " [fenPlacement b; fenActive c; fenCastling (castlingRights g);
                     fenEnPassant (enPassantTarget g)].
Proof.
  intros Hep. unfold cleanFen. rewrite boardToFEN_concat, splitOn_concat.
  - reflexivity.
  - discriminate.
  - repeat constructor; auto with chess.
Qed.

Lemma cleanFen_boardToFEN_witness :
  let g := mkGameState initialPosition Black allCastling (Some (5, 4)) 0 1 [] in
  epInBounds g
  /\ cleanFen (boardToFEN g initialPosition Black) =
     String.concat " " [fenPlacement initialPosition; fenActive Black;
                        fenCastling (castlingRights g); fenEnPassant (enPassantTarget g)].
Proof.
  cbv zeta. assert (H : epInBounds (mkGameState initialPosition Black allCastling (Some (5, 4)) 0 1 []))
    by reflexivity.
  split; [exact H|]. exact (cleanFen_boardToFEN _ initialPosition Black H).
Defined.

(** ** The status evaluator against its specification *)

(** Some piece of colour [c] has a legal destination. *)
Definition hasLegalMove (g : GameState) (c : Color) : Prop :=
  exists r col p, getPiece (board g) r col = Some p /\ pcolor p = c /\ legalMoves g r col <> [].

(** Only the two kings, or the two kings and one knight or bishop (the
    code counts pieces and does not look at their colours). *)
Definition insufficient (b : Board) : Prop :=
  length (boardPieces b) = 2%nat
  \/ (length (boardPieces b) = 3%nat /\ exists p, In p (boardPieces b) /\ (pkind p = Knight \/ pkind p = Bishop)).

(** The earlier entries of the ledger with the same repetition key. *)
Definition occurrences (g : GameState) (key : string) : nat :=
  length (List.filter (fun f => bool_decide (cleanFen f = key)) (positionHistory g)).

(** The winner when [c], to move, is mated. *)
Definition winnerAgainst (c : Color) : Winner :=
  match c with White => WinnerBlack | Black => WinnerWhite end.

(** Section 4.4 of the specification: the first rule that applies. *)
Inductive statusSpec (g : GameState) (b : Board) (c : Color) : Status -> Prop :=
  | spec_checkmate :
      ~ hasLegalMove g c -> isKingInCheck b c = true ->
      statusSpec g b c (Over Checkmate (winnerAgainst c))
  | spec_stalemate :
      ~ hasLegalMove g c -> isKingInCheck b c = false ->
      statusSpec g b c (Over Stalemate WinnerDraw)
  | spec_material :
      hasLegalMove g c -> insufficient b ->
      statusSpec g b c (Over InsufficientMaterial WinnerDraw)
  | spec_fifty :
      hasLegalMove g c -> ~ insufficient b -> (100 <= halfmoveClock g)%nat ->
      statusSpec g b c (Over FiftyMoveRule WinnerDraw)
  | spec_threefold :
      hasLegalMove g c -> ~ insufficient b -> (halfmoveClock g < 100)%nat ->
      (3 <= occurrences g (cleanFen (boardToFEN g b c)))%nat ->
      statusSpec g b c (Over ThreefoldRepetition WinnerDraw)
  | spec_ongoing :
      hasLegalMove g c -> ~ insufficient b -> (halfmoveClock g < 100)%nat ->
      (occurrences g (cleanFen (boardToFEN g b c)) < 3)%nat ->
      statusSpec g b c NotOver.

Lemma sideHasAnyLegalMove_spec (g : GameState) (c : Color) :
  sideHasAnyLegalMove g c = true <-> hasLegalMove g c.
Proof.
  unfold sideHasAnyLegalMove, hasLegalMove. rewrite existsb_squares64. split.
  - intros (r & col & _ & _ & H). simpl in H.
    destruct (getPiece (board g) r col) as [p|] eqn:Hp; [|discriminate].
    case_bool_decide as Hc; [|discriminate]. apply negb_true_iff, bool_decide_eq_false in H.
    exists r, col, p. auto.
  - intros (r & col & p & Hp & Hc & Hl).
    pose proof (getPiece_Some_inBounds _ _ _ _ Hp) as Hb. apply inBounds_spec in Hb.
    exists r, col. split; [lia|]. split; [lia|]. simpl. rewrite Hp.
    rewrite bool_decide_eq_true_2 by exact Hc. now apply negb_true_iff, bool_decide_eq_false.
Qed.

Lemma checkInsufficientMaterial_spec (b : Board) :
  checkInsufficientMaterial b = true <-> insufficient b.
Proof.
  unfold checkInsufficientMaterial, insufficient.
  destruct (Nat.eqb_spec (length (boardPieces b)) 2) as [H2|H2]; [split; auto|].
  destruct (Nat.eqb_spec (length (boardPieces b)) 3) as [H3|H3].
  - rewrite orb_true_iff, !bool_decide_eq_true, !list_elem_of_In, !in_map_iff.
    split.
    + intros [(p & Hk & Hin)|(p & Hk & Hin)]; right; split; eauto.
    + intros [?|(_ & p & Hin & [Hk|Hk])]; [lia| left | right]; eauto.
  - split; [discriminate|]. intros [?|[? _]]; lia.
Qed.

(** C2: the status evaluator refines section 4.4 of the specification:
    [checkGameOver] returns a status exactly when that status is the one
    the first applicable rule gives (no legal move: checkmate if in check,
    else stalemate; then insufficient material; then the fifty-move rule;
    then a third occurrence of the position; else the game goes on). *)
Theorem checkGameOver_spec (g : GameState) (b : Board) (c : Color) (s : Status) :
  checkGameOver g b c = s <-> statusSpec g b c s.
Proof.
  unfold checkGameOver, checkRepetition.
  pose proof (sideHasAnyLegalMove_spec g c) as Hl.
  pose proof (checkInsufficientMaterial_spec b) as Hi.
  split.
  - intros <-.
    destruct (sideHasAnyLegalMove g c) eqn:Hm; cbn [negb].
    + assert (hasLegalMove g c) by now apply Hl.
      destruct (checkInsufficientMaterial b) eqn:Hc; [constructor; auto; now apply Hi|].
      assert (~ insufficient b) by (rewrite <- Hi; congruence).
      destruct (Nat.leb_spec 100 (halfmoveClock g)) as [Hh|Hh]; [now constructor|].
      pose proof (Nat.leb_spec 3 (occurrences g (cleanFen (boardToFEN g b c)))) as Ho.
      unfold occurrences in Ho |- *.
      destruct Ho; constructor; auto.
    + assert (~ hasLegalMove g c) by (rewrite <- Hl; congruence).
      destruct (isKingInCheck b c) eqn:Hk; [destruct c|]; constructor; auto.
  - intros Hs. inversion Hs as [Hn Hk|Hn Hk|Hm Hin|Hm Hin Hh|Hm Hin Hh Ho|Hm Hin Hh Ho]; subst;
      rewrite <- Hl, <- ?Hi in *.
    + destruct (sideHasAnyLegalMove g c); [tauto|]. rewrite Hk. now destruct c.
    + destruct (sideHasAnyLegalMove g c); [tauto|]. now rewrite Hk.
    + rewrite Hm, Hin. reflexivity.
    + rewrite Hm. destruct (checkInsufficientMaterial b); [tauto|].
      now rewrite (proj2 (Nat.leb_le _ _) Hh).
    + rewrite Hm. destruct (checkInsufficientMaterial b); [tauto|].
      rewrite (proj2 (Nat.leb_gt _ _) Hh). unfold occurrences in Ho.
      now rewrite (proj2 (Nat.leb_le _ _) Ho).
    + rewrite Hm. destruct (checkInsufficientMaterial b); [tauto|].
      rewrite (proj2 (Nat.leb_gt _ _) Hh). unfold occurrences in Ho.
      now rewrite (proj2 (Nat.leb_gt _ _) Ho).
Qed.
