(* ===== verification/Session.v ===== *)
(** * Session state and handlers (renderer.js 4-21, 26-100, 119-140, 146-220, 804-1014)

  The UI layer owns the engine state and the variables of the session: the
  game mode, the colours of the players, the engine identifier and its
  "thinking" flag, the selection with its legal destinations, the last
  move, the move list, the pending promotion, the classes of the modal
  dialogs, the review-mode variables, and the rest of the page the
  handlers write ([Dom]: the display of the start and stop buttons, the
  board's status class, the theme, the promotion options' piece images).
  Each handler is a function from the session to the new session and the
  list of effects it sends out (IPC messages to the host, sounds), in the
  order the code sends them.  The board's squares are drawn by
  [renderBoard], modelled in [Render] as a view of the session.

  [finalizeMove] commits a move through [applyMoveOnBoard] with [isReal],
  flips the turn to the opponent of the moved piece, encodes and records the
  position, evaluates the status, and either opens the game-over dialog or
  asks the engine to move. *)

From Stdlib Require Import ZArith Lia List String Ascii.
From stdpp Require Import base list decidable strings.
From S2P Require Import Prelude Board Attack MoveGen Apply Legal Fen Status.

Open Scope Z_scope.

(** [gameMode]: "idle" | "human" | "engine" | "review". *)
Inductive Mode := Idle | HumanMode | EngineMode | ReviewMode.

#[export] Instance Mode_eq_dec : EqDecision Mode.
Proof. solve_decision. Defined.

(** [lastMove = { fromRow, fromCol, toRow, toCol, piece, capture }] *)
Record LastMove := mkLastMove {
  lmFromRow : Z; lmFromCol : Z; lmToRow : Z; lmToCol : Z; lmPiece : Cell; lmCapture : bool }.

(** An entry [{ from, to, piece }] of [gameMoves]. *)
Record GameMove := mkGameMove { gmFrom : string; gmTo : string; gmPiece : Cell }.

(** The modal dialogs (lines 26-59): whether each element's class list
    holds "hidden", and whether the game-over dialog's holds "visible",
    which no code of the file ever adds or removes. *)
Record Modals := mkModals {
  overlayHidden : bool; promotionHidden : bool; gameOverHidden : bool;
  gameOverVisibleClass : bool; gameOverTitle : string; gameOverReason : string }.

(** [playSound(type)] *)
Inductive Sound := SoundMove | SoundCapture | SoundCheck | SoundPromote.

(** Lines 1003-1008: the audio file [playSound] plays; creating and
    playing the [Audio] element is left to the page. *)
Definition soundFile (t : Sound) : string :=
  match t with
  | SoundMove => "move-self.mp3"
  | SoundCapture => "capture.mp3"
  | SoundCheck => "move-check.mp3"
  | SoundPromote => "promote.mp3"
  end.

(** Line 1011: the source of the [Audio] element. *)
Definition soundUrl (t : Sound) : string := "assets/sounds/" ++ soundFile t.

(** An entry [{ from, to, piece, tag }] of [reviewGame.moves] (line 96). *)
Record ReviewMove := mkReviewMove { rmFrom : string; rmTo : string; rmPiece : Cell; rmTag : string }.

(** The review-mode variables (lines 96-98). *)
Record Review := mkReview {
  reviewGame : option (list ReviewMove); reviewIndex : Z; reviewCurrentTag : option string }.

(** [reviewGame = null; reviewIndex = -1; reviewCurrentTag = null;] *)
Definition noReview : Review := mkReview None (-1) None.

(** Which of the two top-bar game buttons is displayed. *)
Inductive GameButtons := StartShown | StopShown.

(** The status class of the board element: "board-check" or "board-mate". *)
Inductive BoardMark := BoardCheck | BoardMate.

(** What the handlers write to the page outside the dialogs: the display
    of the start and stop buttons ([None] until a handler first sets it),
    the board element's status class, the document's [data-theme]
    attribute, and the colour of the piece images on the promotion
    options ([None] until the dialog is first shown). *)
Record Dom := mkDom {
  gameButtons : option GameButtons;
  boardMark : option BoardMark;
  theme : option string;
  promoIcons : option Color }.

(** Messages to the host process ([window.electronAPI]). *)
Inductive Effect :=
  | GamePositionUpdated (fen : string) (moves : list GameMove)
  | TurnChanged (c : Color)
  | PlaySound (s : Sound)
  | StopMatch
  | RequestEngineMove (fen : string) (engineId : string)
  | OpenSettings
  | OpenNewGame.

Record Session := mkSession {
  gs : GameState;
  gameMode : Mode;
  humanColor : Color;
  engineColor : option Color;
  opponentEngineId : option string;
  engineThinking : bool;
  inReviewMode : bool;
  selectedSquare : option (Z * Z);
  legalMovesForSelected : list Dest;
  lastMove : option LastMove;
  gameMoves : list GameMove;
  promotionPending : option (Z * Z * Z * Z);
  modals : Modals;
  review : Review;
  dom : Dom
}.

(** Assignments to the session's variables. *)
Definition setGs (s : Session) (g : GameState) : Session :=
  mkSession g (gameMode s) (humanColor s) (engineColor s) (opponentEngineId s)
    (engineThinking s) (inReviewMode s) (selectedSquare s) (legalMovesForSelected s)
    (lastMove s) (gameMoves s) (promotionPending s) (modals s) (review s) (dom s).
Definition setEngineThinking (s : Session) (t : bool) : Session :=
  mkSession (gs s) (gameMode s) (humanColor s) (engineColor s) (opponentEngineId s)
    t (inReviewMode s) (selectedSquare s) (legalMovesForSelected s)
    (lastMove s) (gameMoves s) (promotionPending s) (modals s) (review s) (dom s).
Definition setSelection (s : Session) (sel : option (Z * Z)) (legal : list Dest) : Session :=
  mkSession (gs s) (gameMode s) (humanColor s) (engineColor s) (opponentEngineId s)
    (engineThinking s) (inReviewMode s) sel legal
    (lastMove s) (gameMoves s) (promotionPending s) (modals s) (review s) (dom s).
Definition setMoveRecord (s : Session) (lm : option LastMove) (mv : list GameMove) : Session :=
  mkSession (gs s) (gameMode s) (humanColor s) (engineColor s) (opponentEngineId s)
    (engineThinking s) (inReviewMode s) (selectedSquare s) (legalMovesForSelected s)
    lm mv (promotionPending s) (modals s) (review s) (dom s).
Definition setPromotionPending (s : Session) (pp : option (Z * Z * Z * Z)) : Session :=
  mkSession (gs s) (gameMode s) (humanColor s) (engineColor s) (opponentEngineId s)
    (engineThinking s) (inReviewMode s) (selectedSquare s) (legalMovesForSelected s)
    (lastMove s) (gameMoves s) pp (modals s) (review s) (dom s).
Definition setModals (s : Session) (m : Modals) : Session :=
  mkSession (gs s) (gameMode s) (humanColor s) (engineColor s) (opponentEngineId s)
    (engineThinking s) (inReviewMode s) (selectedSquare s) (legalMovesForSelected s)
    (lastMove s) (gameMoves s) (promotionPending s) m (review s) (dom s).
Definition setPlayers (s : Session) (mode : Mode) (h : Color) (e : option Color)
    (id : option string) : Session :=
  mkSession (gs s) mode h e id
    (engineThinking s) (inReviewMode s) (selectedSquare s) (legalMovesForSelected s)
    (lastMove s) (gameMoves s) (promotionPending s) (modals s) (review s) (dom s).
Definition setReviewMode (s : Session) (r : bool) : Session :=
  mkSession (gs s) (gameMode s) (humanColor s) (engineColor s) (opponentEngineId s)
    (engineThinking s) r (selectedSquare s) (legalMovesForSelected s)
    (lastMove s) (gameMoves s) (promotionPending s) (modals s) (review s) (dom s).

Definition setReview (s : Session) (r : Review) : Session :=
  mkSession (gs s) (gameMode s) (humanColor s) (engineColor s) (opponentEngineId s)
    (engineThinking s) (inReviewMode s) (selectedSquare s) (legalMovesForSelected s)
    (lastMove s) (gameMoves s) (promotionPending s) (modals s) r (dom s).
Definition setDom (s : Session) (d : Dom) : Session :=
  mkSession (gs s) (gameMode s) (humanColor s) (engineColor s) (opponentEngineId s)
    (engineThinking s) (inReviewMode s) (selectedSquare s) (legalMovesForSelected s)
    (lastMove s) (gameMoves s) (promotionPending s) (modals s) (review s) d.

(** Writes to one part of the page. *)
Definition setButtons (s : Session) (b : GameButtons) : Session :=
  setDom s (mkDom (Some b) (boardMark (dom s)) (theme (dom s)) (promoIcons (dom s))).
Definition setBoardMark (s : Session) (m : option BoardMark) : Session :=
  setDom s (mkDom (gameButtons (dom s)) m (theme (dom s)) (promoIcons (dom s))).
Definition setTheme (s : Session) (t : string) : Session :=
  setDom s (mkDom (gameButtons (dom s)) (boardMark (dom s)) (Some t) (promoIcons (dom s))).
Definition setPromoIcons (s : Session) (c : Color) : Session :=
  setDom s (mkDom (gameButtons (dom s)) (boardMark (dom s)) (theme (dom s)) (Some c)).

(** ** The modal dialogs (lines 37-59) *)

Inductive ModalKind := PromotionModal | GameOverModal.

Definition showModal (m : Modals) (k : ModalKind) : Modals :=
  match k with
  | PromotionModal =>
      mkModals false false true (gameOverVisibleClass m) (gameOverTitle m) (gameOverReason m)
  | GameOverModal =>
      mkModals false true false (gameOverVisibleClass m) (gameOverTitle m) (gameOverReason m)
  end.

Definition hideModals (m : Modals) : Modals :=
  mkModals true true true (gameOverVisibleClass m) (gameOverTitle m) (gameOverReason m).

Definition setGameOverText (m : Modals) (title reason : string) : Modals :=
  mkModals (overlayHidden m) (promotionHidden m) (gameOverHidden m)
    (gameOverVisibleClass m) title reason.

(** ** Starting a game (lines 146-215) *)

(** The engine state [resetBoardState] builds (lines 168-181): the initial
    array, White to move, all rights, no target, clocks 0 and 1, and the
    history seeded with the initial encoding. *)
Definition initialGameState : GameState :=
  let g0 := mkGameState (cloneBoard initialPosition) White allCastling None 0 1 [] in
  setHistory g0 [boardToFEN g0 (board g0) (turn g0)].

Definition resetBoardState (s : Session) : Session :=
  setBoardMark (setMoveRecord (setSelection (setGs s initialGameState) None []) None []) None.

(** The session as the module is loaded (lines 80-125): idle, White at the
    bottom, the initial array, no history yet; the modal dialogs as the
    page's markup leaves them. *)
Definition bootSession (m : Modals) : Session :=
  mkSession (mkGameState initialPosition White allCastling None 0 1 [])
    Idle White None None false false None [] None [] None m noReview (mkDom None None None None).
