(* ===== verification/Game.v ===== *)
(** * Handlers of the session (renderer.js 61-72, 146-220, 804-998)

  Each handler takes the session and its input and returns the new session
  with the effects it sent, in order.  [onEngineMove] also returns how the
  request ended: applied, or rejected with the reason (no move, a string
  too short to index, or coordinates off the board); a rejected request
  changes nothing but the engine's "thinking" flag.  The coordinate
  parsing follows the code: [charCodeAt(0) - 97] for files and
  [8 - parseInt(rank, 10)] for ranks, where a rank that is not a digit is
  [NaN] ([None] here), which fails [inBounds]. *)

From Stdlib Require Import ZArith Lia List String Ascii.
From stdpp Require Import base list decidable strings.
From S2P Require Import Prelude Board Attack MoveGen Apply Legal Fen Status Session.

Open Scope Z_scope.

(** ** Engine requests (lines 953-965) *)

Definition maybeEngineMove (s : Session) : Session * list Effect :=
  let g := gs s in
  if negb (bool_decide (gameMode s = EngineMode)) then (s, [])
  else match opponentEngineId s with
  | None => (s, [])
  | Some id =>
      if String.eqb id "" then (s, [])
      else if negb (bool_decide (Some (turn g) = engineColor s)) then (s, [])
      else if engineThinking s then (s, [])
      else
        let fen := boardToFEN g (board g) (turn g) in
        (setEngineThinking s true, [RequestEngineMove fen id])
  end.

(** ** Committing a move (lines 804-886) *)

(** Step 8 (lines 859-870): the status class of the board element. *)
Definition boardMarkOf (status : Status) (inCheck : bool) : option BoardMark :=
  if inCheck then
    match status with
    | Over Checkmate _ => Some BoardMate
    | _ => Some BoardCheck
    end
  else None.

(** The sound of step 7: check (or mate), promotion, capture, or a move. *)
Definition moveSound (status : Status) (inCheck : bool) (promotion : Cell) (capt : bool) : Sound :=
  match status with
  | Over Checkmate _ => SoundCheck
  | _ =>
      if inCheck then SoundCheck
      else match promotion with
           | Some _ => SoundPromote
           | None => if capt then SoundCapture else SoundMove
           end
  end.

Definition finalizeMove (s : Session) (fromRow fromCol toRow toCol : Z) (promotionPiece : Cell)
    : Session * list Effect :=
  let g := gs s in
  (* 1. apply the move on the live board, committing *)
  let '(b', g1, res) :=
    applyMoveOnBoard g (board g) fromRow fromCol toRow toCol (mkApplyOpts true promotionPiece) in
  let g2 := setBoard g1 b' in
  (* 2. the last move and the move list *)
  let lm := mkLastMove fromRow fromCol toRow toCol (movedPiece res) (captured res) in
  let moves := gameMoves s ++ [mkGameMove (coordToSquare fromRow fromCol)
                                          (coordToSquare toRow toCol) (movedPiece res)] in
  (* 3. the turn passes to the opponent of the moved piece *)
  let nextTurn := if bool_decide (getColor (movedPiece res) = Some White) then Black else White in
  let g3 := setTurn g2 nextTurn in
  (* 4. the position and the history *)
  let fen := boardToFEN g3 (board g3) (turn g3) in
  let g4 := setHistory g3 (positionHistory g3 ++ [fen]) in
  (* 5. updates to the host *)
  let eff := [GamePositionUpdated fen moves; TurnChanged (turn g4)] in
  (* 6. the status of the side to move *)
  let status := checkGameOver g4 (board g4) (turn g4) in
  let inCheck := isKingInCheck (board g4) (turn g4) in
  let snd := PlaySound (moveSound status inCheck promotionPiece (captured res)) in
  (* 8. the board's status class; 9. the selection is cleared *)
  let s1 := setSelection (setBoardMark (setMoveRecord (setGs s g4) (Some lm) moves)
                            (boardMarkOf status inCheck)) None [] in
  match status with
  | Over r w =>
      (* 10. the game-over dialog *)
      let m := setGameOverText (modals s1) (resultText r)
                 ("Winner: " ++ winnerText w)%string in
      (setModals s1 (showModal m GameOverModal), eff ++ [snd; StopMatch])
  | NotOver =>
      (* 11. the engine's turn *)
      let '(s2, eff2) := maybeEngineMove s1 in
      (s2, eff ++ [snd] ++ eff2)
  end.

(** ** Clicks on the board (lines 888-947) *)

(** Lines 916-917: the pending move is stored and [showModal("promotion")]
    opens the dialog, its options showing the pieces of the side to move. *)
Definition openPromotion (s : Session) (fr fc tr tc : Z) : Session :=
  setPromoIcons (setModals (setPromotionPending s (Some (fr, fc, tr, tc)))
                   (showModal (modals s) PromotionModal)) (turn (gs s)).

Definition onSquareClick (s : Session) (row col : Z) : Session * list Effect :=
  let g := gs s in
  let engine := bool_decide (gameMode s = EngineMode) in
  if inReviewMode s
     || (negb (bool_decide (gameMode s = Idle)) && gameOverVisibleClass (modals s))
  then (s, [])
  else if engine && bool_decide (Some (turn g) = engineColor s) && engineThinking s then (s, [])
  else if engine && negb (bool_decide (turn g = humanColor s)) then (s, [])
  else
    let piece := getPiece (board g) row col in
    let destMove := List.find (fun mv => (mv.1 =? row) && (mv.2 =? col))
                      (legalMovesForSelected s) in
    match selectedSquare s, destMove with
    | Some (fromRow, fromCol), Some _ =>
        let movingPiece := getPiece (board g) fromRow fromCol in
        let isPawn := bool_decide (getType movingPiece = Some Pawn) in
        let isLastRank := (bool_decide (turn g = White) && (row =? 0))
                          || (bool_decide (turn g = Black) && (row =? 7)) in
        if isPawn && isLastRank then
          (openPromotion s fromRow fromCol row col, [])
        else finalizeMove s fromRow fromCol row col None
    | _, _ =>
        if bool_decide (selectedSquare s = Some (row, col)) then (setSelection s None [], [])
        else match piece with
             | Some p =>
                 if bool_decide (pcolor p = turn g) then
                   let '(legal, g') := generateLegalMovesForSquare g row col in
                   (setSelection (setGs s g') (Some (row, col)) legal, [])
                 else (setSelection s None [], [])
             | None => (setSelection s None [], [])
             end
    end.

(** ** The promotion dialog (lines 61-72) *)

(** The [data-type] of the four options of the dialog. *)
Inductive PromoChoice := PromoQ | PromoR | PromoB | PromoN.

Definition promoKind (k : PromoChoice) : Kind :=
  match k with PromoQ => Queen | PromoR => Rook | PromoB => Bishop | PromoN => Knight end.

Definition onPromotionChoice (s : Session) (k : PromoChoice) : Session * list Effect :=
  match promotionPending s with
  | Some (fromRow, fromCol, toRow, toCol) =>
      let pCode := Some (mkPiece (turn (gs s)) (promoKind k)) in
      let '(s1, eff) := finalizeMove s fromRow fromCol toRow toCol pCode in
      let s2 := setPromotionPending s1 None in
      (setModals s2 (hideModals (modals s2)), eff)
  | None => (s, [])
  end.

(** The close button of the game-over dialog (line 74). *)
Definition onCloseModal (s : Session) : Session * list Effect :=
  (setModals s (hideModals (modals s)), []).

(** ** Engine moves (lines 967-998) *)

(** [uciMove[i]]: [undefined] past the end. *)
Definition charAt (u : string) (i : nat) : option ascii := String.get i u.

(** [parseInt(ch, 10)] of one character: [NaN] unless a digit. *)
Definition parseDigit (a : option ascii) : option Z :=
  match a with
  | Some ch => if isDigit ch then Some (Z.of_nat (nat_of_ascii ch) - 48) else None
  | None => None
  end.

(** [ch.toLowerCase()] on one ASCII letter. *)
Definition asciiLower (a : ascii) : ascii :=
  let n := nat_of_ascii a in
  if (65 <=? n)%nat && (n <=? 90)%nat then ascii_of_nat (n + 32) else a.

(** [map[promoChar.toLowerCase()] || "Q"] *)
Definition promoOfChar (ch : ascii) : Kind :=
  let l := asciiLower ch in
  if Ascii.eqb l "q" then Queen
  else if Ascii.eqb l "r" then Rook
  else if Ascii.eqb l "b" then Bishop
  else if Ascii.eqb l "n" then Knight
  else Queen.

Inductive EngineMoveError :=
  | NoEngineMove        (* [if (!uciMove) return] *)
  | MalformedCoordinate (* [toFile] undefined: [charCodeAt] throws *)
  | OutOfBoundsMove.    (* [!inBounds(...)]: logged and dropped *)

Inductive EngineMoveOutcome := EngineApplied | EngineRejected (e : EngineMoveError).

Definition fileCol (a : ascii) : Z := Z.of_nat (nat_of_ascii a) - 97.

Definition onEngineMove (s : Session) (uciMove : option string)
    : Session * list Effect * EngineMoveOutcome :=
  let s0 := setEngineThinking s false in
  match uciMove with
  | None | Some EmptyString => (s0, [], EngineRejected NoEngineMove)
  | Some u =>
      match charAt u 0, charAt u 2 with
      | Some fromFile, Some toFile =>
          let fromCol := fileCol fromFile in
          let fromRow := option_map (fun n => 8 - n) (parseDigit (charAt u 1)) in
          let toCol := fileCol toFile in
          let toRow := option_map (fun n => 8 - n) (parseDigit (charAt u 3)) in
          match fromRow, toRow with
          | Some fr, Some tr =>
              if negb (inBounds fr fromCol) || negb (inBounds tr toCol)
              then (s0, [], EngineRejected OutOfBoundsMove)
              else
                let promoChar := if (4 <? String.length u)%nat then charAt u 4 else None in
                let promotionPiece :=
                  match promoChar with
                  | Some ch => Some (mkPiece (turn (gs s0)) (promoOfChar ch))
                  | None => None
                  end in
                let '(s1, eff) := finalizeMove s0 fr fromCol tr toCol promotionPiece in
                (s1, eff, EngineApplied)
          | _, _ => (s0, [], EngineRejected OutOfBoundsMove)
          end
      | _, _ => (s0, [], EngineRejected MalformedCoordinate)
      end
  end.

(** ** New game and stop (lines 146-215) *)

(** The payload of the new-game message. *)
Record Payload := mkPayload {
  payloadMode : option string; payloadEngineId : option string; payloadHumanColor : option string }.

Definition startNewGameFromPayload (s : Session) (p : Payload) : Session * list Effect :=
  let mode := if bool_decide (payloadMode p = Some "engine"%string) then EngineMode else HumanMode in
  let engineId := match payloadEngineId p with
                  | Some id => if String.eqb id "" then None else Some id
                  | None => None
                  end in
  let hColor := if bool_decide (payloadHumanColor p = Some "b"%string) then Black else White in
  let eColor := if bool_decide (mode = EngineMode) then Some (opp hColor) else None in
  let s1 := setReview (setReviewMode (setEngineThinking
              (setPlayers s mode hColor eColor engineId) false) false) noReview in
  let s2 := setButtons (resetBoardState s1) StopShown in
  let '(s3, eff) := maybeEngineMove s2 in
  (s3, TurnChanged (turn (gs s2)) :: eff).

Definition endGameAndResetUI (s : Session) : Session * list Effect :=
  let s1 := setReview (setReviewMode (setEngineThinking
              (setPlayers s Idle White None None) false) false) noReview in
  let s2 := setButtons (resetBoardState s1) StartShown in
  (setModals s2 (hideModals (modals s2)), [StopMatch]).

(** ** The top bar and the theme (lines 4-17, 128-140) *)

(** The settings button forwards to the host. *)
Definition onSettingsClick (s : Session) : Session * list Effect := (s, [OpenSettings]).

(** The start button asks the host for the new-game dialog; the game
    starts when the host answers with the new-game message. *)
Definition onStartGameClick (s : Session) : Session * list Effect := (s, [OpenNewGame]).

(** [onThemeChanged]: [data-theme] is set to the theme sent. *)
Definition onThemeChanged (s : Session) (t : string) : Session * list Effect := (setTheme s t, []).

(** The preferences [initTheme] reads: [boardTheme] may be absent. *)
Record Prefs := mkPrefs { boardTheme : option string }.

(** The rest of [initTheme] once [getPreferences()] has answered:
    [if (prefs && prefs.boardTheme)], where an empty string is falsy. *)
Definition onPreferences (s : Session) (prefs : option Prefs) : Session * list Effect :=
  match prefs with
  | Some p =>
      match boardTheme p with
      | Some t => if String.eqb t "" then (s, []) else (setTheme s t, [])
      | None => (s, [])
      end
  | None => (s, [])
  end.

(** ** What the engine request changes *)

Lemma maybeEngineMove_fst s :
  (maybeEngineMove s).1 = s \/ (maybeEngineMove s).1 = setEngineThinking s true.
Proof. unfold maybeEngineMove. repeat case_match; auto. Qed.

(** Split on whether [maybeEngineMove] asked the engine to move. *)
Ltac engine_cases :=
  match goal with |- context [maybeEngineMove ?x] =>
    let E := fresh "E" in
    destruct (maybeEngineMove_fst x) as [E|E]; destruct (maybeEngineMove x); cbn in E |- *;
    subst; cbn; auto
  end.

(** C39: a new game leaves a pending promotion in place: the new-game
    message resets the board and the session's variables but neither the
    pending promotion move nor the dialogs, so an open promotion dialog
    stays open over the new game with the old game's move pending. *)
Theorem newGame_keeps_pending_promotion (s : Session) (p : Payload) :
  promotionPending (startNewGameFromPayload s p).1 = promotionPending s
  /\ modals (startNewGameFromPayload s p).1 = modals s.
Proof.
  unfold startNewGameFromPayload.
  engine_cases.
Qed.

(** ** Engine coordinates *)

Lemma coordToSquare_chars (r c : Z) :
  0 <= r < 8 -> 0 <= c < 8 ->
  coordToSquare r c
  = String (ascii_of_nat (Z.to_nat (97 + c))) (String (ascii_of_nat (Z.to_nat (56 - r))) EmptyString).
Proof.
  intros Hr Hc. unfold coordToSquare, string_of_Z.
  replace (8 - r <? 0) with false by (symmetry; apply Z.ltb_ge; lia).
  f_equal. assert (r = 0 \/ r = 1 \/ r = 2 \/ r = 3 \/ r = 4 \/ r = 5 \/ r = 6 \/ r = 7)
    as Hr' by lia.
  destruct Hr' as [->|[->|[->|[->|[->|[->|[->| ->]]]]]]]; reflexivity.
Qed.

Lemma fileCol_square (c : Z) : 0 <= c < 8 -> fileCol (ascii_of_nat (Z.to_nat (97 + c))) = c.
Proof. intros Hc. unfold fileCol. rewrite nat_ascii_embedding by lia. lia. Qed.

Lemma parseDigit_square (r : Z) :
  0 <= r < 8 -> parseDigit (Some (ascii_of_nat (Z.to_nat (56 - r)))) = Some (8 - r).
Proof.
  intros Hr. unfold parseDigit, isDigit. rewrite nat_ascii_embedding by lia.
  replace ((48 <=? Z.to_nat (56 - r))%nat && (Z.to_nat (56 - r) <=? 57)%nat) with true
    by (symmetry; apply andb_true_iff; split; apply Nat.leb_le; lia).
  f_equal. lia.
Qed.

(** Engine moves are parsed back to the squares they name and then
    committed with no check at all: for any session and any two squares of
    the board, the reply naming them (file letter and rank digit, as
    [coordToSquare] writes them) commits exactly that move through
    [finalizeMove], without a promotion piece, whatever pieces stand there
    and whoever is to move. *)
Theorem onEngineMove_commits_any_move (s : Session) (fr fc tr tc : Z) :
  0 <= fr < 8 -> 0 <= fc < 8 -> 0 <= tr < 8 -> 0 <= tc < 8 ->
  onEngineMove s (Some (coordToSquare fr fc ++ coordToSquare tr tc)%string)
  = (let '(s1, eff) := finalizeMove (setEngineThinking s false) fr fc tr tc None in
     (s1, eff, EngineApplied)).
Proof.
  intros Hfr Hfc Htr Htc.
  rewrite (coordToSquare_chars fr fc), (coordToSquare_chars tr tc) by assumption.
  unfold onEngineMove. cbv [String.append]. cbn [charAt String.get String.length].
  rewrite !fileCol_square, !parseDigit_square by assumption. cbn [option_map].
  replace (8 - (8 - fr)) with fr by lia. replace (8 - (8 - tr)) with tr by lia.
  rewrite (proj2 (inBounds_spec fr fc)), (proj2 (inBounds_spec tr tc)) by lia.
  reflexivity.
Qed.

Lemma onEngineMove_commits_any_move_witness :
  let s := mkSession (mkGameState initialPosition White allCastling None 0 1 [])
             Idle White None None false false None [] None []
             None (mkModals true true true false "" "") noReview (mkDom None None None None) in
  (0 <= 6 < 8 /\ 0 <= 4 < 8 /\ 0 <= 4 < 8 /\ 0 <= 4 < 8)
  /\ onEngineMove s (Some (coordToSquare 6 4 ++ coordToSquare 4 4)%string)
     = (let '(s1, eff) := finalizeMove (setEngineThinking s false) 6 4 4 4 None in
        (s1, eff, EngineApplied)).
Proof. cbv zeta. split; [lia|]. apply onEngineMove_commits_any_move; lia. Defined.

(** ** Which engine replies are applied *)

(** A file letter "a"-"h" and a rank digit "1"-"8" of coordinate
    notation, as a column and a row of the board: a reference decoder,
    not part of the program. *)
Definition uciFile (a : option ascii) : option Z :=
  match a with
  | Some ch => if (97 <=? nat_of_ascii ch)%nat && (nat_of_ascii ch <=? 104)%nat
               then Some (Z.of_nat (nat_of_ascii ch) - 97) else None
  | None => None
  end.

Definition uciRank (a : option ascii) : option Z :=
  match a with
  | Some ch => if (49 <=? nat_of_ascii ch)%nat && (nat_of_ascii ch <=? 56)%nat
               then Some (56 - Z.of_nat (nat_of_ascii ch)) else None
  | None => None
  end.

(** The two squares the first four characters of a reply name. *)
Definition uciSquares (u : option string) : option (Z * Z * Z * Z) :=
  match u with
  | Some w =>
      match uciFile (String.get 0 w), uciRank (String.get 1 w),
            uciFile (String.get 2 w), uciRank (String.get 3 w) with
      | Some fc, Some fr, Some tc, Some tr => Some (fr, fc, tr, tc)
      | _, _, _, _ => None
      end
  | None => None
  end.

(** The code's column is on the board exactly for a file letter. *)
Lemma uciFile_fileCol ch :
  uciFile (Some ch) = if (0 <=? fileCol ch) && (fileCol ch <? 8) then Some (fileCol ch) else None.
Proof.
  unfold uciFile, fileCol.
  destruct (Nat.leb_spec 97 (nat_of_ascii ch)), (Nat.leb_spec (nat_of_ascii ch) 104),
    (Z.leb_spec 0 (Z.of_nat (nat_of_ascii ch) - 97)), (Z.ltb_spec (Z.of_nat (nat_of_ascii ch) - 97) 8);
    cbn; try reflexivity; lia.
Qed.

(** The code's row is on the board exactly for a rank digit. *)
Lemma uciRank_digit o :
  uciRank o = match option_map (fun n => 8 - n) (parseDigit o) with
              | Some r => if (0 <=? r) && (r <? 8) then Some r else None
              | None => None
              end.
Proof.
  destruct o as [ch|]; [|reflexivity]. unfold uciRank, parseDigit, isDigit.
  destruct (Nat.leb_spec 49 (nat_of_ascii ch)), (Nat.leb_spec (nat_of_ascii ch) 56),
    (Nat.leb_spec 48 (nat_of_ascii ch)), (Nat.leb_spec (nat_of_ascii ch) 57); cbn;
    try (replace (8 - (Z.of_nat (nat_of_ascii ch) - 48)) with (56 - Z.of_nat (nat_of_ascii ch)) by lia);
    repeat match goal with |- context [(?a <=? ?b)%Z] => destruct (Z.leb_spec a b) end;
    repeat match goal with |- context [(?a <? ?b)%Z] => destruct (Z.ltb_spec a b) end;
    cbn; try reflexivity; lia.
Qed.

(** C36: an engine reply is applied exactly when its first four
    characters name two squares of the board in coordinate notation (a file
    letter a-h and a rank digit 1-8, twice), and it is then committed
    through [finalizeMove] between those squares, with no check of the
    pieces or of legality; every other reply (none, empty, too short to
    index, a character that is not a file or a rank on the board) is
    rejected, and a rejected reply only clears the engine's "thinking"
    flag and sends nothing. *)
Theorem onEngineMove_accepts_exactly (s : Session) (u : option string) :
  match uciSquares u with
  | Some (fr, fc, tr, tc) =>
      exists pp, onEngineMove s u
        = (let '(s1, eff) := finalizeMove (setEngineThinking s false) fr fc tr tc pp in
           (s1, eff, EngineApplied))
  | None => exists e, onEngineMove s u = (setEngineThinking s false, [], EngineRejected e)
  end.
Proof.
  destruct u as [w|]; [|eexists; reflexivity].
  destruct w as [|c0 w]; [eexists; reflexivity|].
  unfold uciSquares, onEngineMove, charAt. cbn [String.get].
  rewrite !uciRank_digit, uciFile_fileCol.
  destruct (String.get 1 w) as [c2|]; [rewrite uciFile_fileCol|].
  all: destruct (option_map (fun n => 8 - n) (parseDigit (String.get 0 w))) as [fr|];
    destruct (option_map (fun n => 8 - n) (parseDigit (String.get 2 w))) as [tr|].
  all: unfold inBounds; repeat match goal with
    | |- context [(?a <=? ?b)%Z] => destruct (a <=? b)
    | |- context [(?a <? ?b)%Z] => destruct (a <? b)
    end.
  all: cbn -[finalizeMove]; eexists; reflexivity.
Qed.
