(* ===== verification/Reach.v ===== *)
(** * Reachable sessions (renderer.js 15-74, 146-220, 804-998)

  The page reacts to ten kinds of events: a click on a square, a click on
  an option of the promotion dialog, the close button of the game-over
  dialog, a move from the engine, the host's new-game message, the stop,
  settings and start buttons of the top bar, the host's theme message,
  and the answer to the request for the preferences sent at load time.  [handle] dispatches an event to its handler; [reachable]
  is the step relation closed under every event, from the session the
  module leaves at load time.  Nothing orders the events: the host may
  deliver an engine move or a new game at any moment, and the code does
  not check for it either.

  The invariant [sessionInv] holds in every reachable session: review mode
  is never entered, the "visible" class of the game-over dialog keeps its
  load-time value, the board stays 8x8, and the selected square's list of
  destinations is the legality filter's list for the current state. *)

From Stdlib Require Import ZArith Lia List String Ascii.
From stdpp Require Import base list decidable strings.
From S2P Require Import Prelude Board Attack MoveGen Apply Legal Fen Status Session Game.

Open Scope Z_scope.

Inductive Event :=
  | EvClick (row col : Z)            (* square.addEventListener, line 798 *)
  | EvPromotion (k : PromoChoice)    (* promoOptions, lines 61-72 *)
  | EvCloseModal                     (* closeModalBtn, line 74 *)
  | EvEngineMove (u : option string) (* onEngineMove, line 967 *)
  | EvNewGame (p : Payload)          (* onNewGameStart, line 217 *)
  | EvStop                           (* stopGameBtn, line 19 *)
  | EvSettings                       (* settingsBtn, line 6 *)
  | EvStartGame                      (* startGameBtn, line 14 *)
  | EvThemeChanged (t : string)      (* onThemeChanged, line 138 *)
  | EvPreferences (p : option Prefs). (* getPreferences() resolves, line 131 *)

Definition handle (s : Session) (e : Event) : Session * list Effect :=
  match e with
  | EvClick r c => onSquareClick s r c
  | EvPromotion k => onPromotionChoice s k
  | EvCloseModal => onCloseModal s
  | EvEngineMove u => let '(s1, eff, _) := onEngineMove s u in (s1, eff)
  | EvNewGame p => startNewGameFromPayload s p
  | EvStop => endGameAndResetUI s
  | EvSettings => onSettingsClick s
  | EvStartGame => onStartGameClick s
  | EvThemeChanged t => onThemeChanged s t
  | EvPreferences p => onPreferences s p
  end.

(** The sessions reachable from the load-time session whose dialogs carry
    the classes [m0]. *)
Inductive reachable (m0 : Modals) : Session -> Prop :=
  | reach_boot : reachable m0 (bootSession m0)
  | reach_step s e : reachable m0 s -> reachable m0 (handle s e).1.

(** A run of events, for the scenarios. *)
Definition run (s : Session) (es : list Event) : Session * list Effect :=
  fold_left (fun acc e => let '(s1, e1) := handle acc.1 e in (s1, acc.2 ++ e1)) es (s, []).

(** ** The invariant *)

Record sessionInv (v : bool) (s : Session) : Prop := {
  inv_review : inReviewMode s = false;
  inv_visible : gameOverVisibleClass (modals s) = v;
  inv_wf : boardWf (board (gs s));
  inv_selection :
    match selectedSquare s with
    | Some (r, c) => legalMovesForSelected s = legalMoves (gs s) r c
    | None => legalMovesForSelected s = []
    end }.

(** The invariant reads five of the session's variables only. *)
Lemma sessionInv_frame v s s' :
  inReviewMode s' = inReviewMode s ->
  gameOverVisibleClass (modals s') = gameOverVisibleClass (modals s) ->
  gs s' = gs s -> selectedSquare s' = selectedSquare s ->
  legalMovesForSelected s' = legalMovesForSelected s ->
  sessionInv v s -> sessionInv v s'.
Proof. intros H1 H2 H3 H4 H5 []. constructor; rewrite ?H1, ?H2, ?H3, ?H4, ?H5; auto. Qed.

(** ** What the handlers change *)

Lemma setGs_gs s : setGs s (gs s) = s.
Proof. now destruct s. Qed.

(** [finalizeMove] commits the move on the board, clears the selection,
    and leaves review mode and the dialog's classes alone. *)
Lemma finalizeMove_frame s fr fc tr tc pp :
  let s' := (finalizeMove s fr fc tr tc pp).1 in
  inReviewMode s' = inReviewMode s
  /\ gameOverVisibleClass (modals s') = gameOverVisibleClass (modals s)
  /\ board (gs s') = (applyMoveOnBoard (gs s) (board (gs s)) fr fc tr tc (mkApplyOpts true pp)).1.1
  /\ selectedSquare s' = None /\ legalMovesForSelected s' = [].
Proof.
  unfold finalizeMove.
  destruct (applyMoveOnBoard _ _ _ _ _ _ _) as [[b' g1] res]. cbn zeta.
  destruct (checkGameOver _ _ _); [|cbn; auto].
  engine_cases.
Qed.

Lemma finalizeMove_inv v s fr fc tr tc pp :
  sessionInv v s -> sessionInv v (finalizeMove s fr fc tr tc pp).1.
Proof.
  intros Hs. destruct (finalizeMove_frame s fr fc tr tc pp) as (H1 & H2 & H3 & H4 & H5).
  constructor; [rewrite H1; apply Hs|rewrite H2; apply Hs| |now rewrite H4].
  rewrite H3. apply applyMoveOnBoard_wf, Hs.
Qed.

Lemma maybeEngineMove_inv v s : sessionInv v s -> sessionInv v (maybeEngineMove s).1.
Proof. destruct (maybeEngineMove_fst s) as [-> | ->]; [auto|]. apply sessionInv_frame; reflexivity. Qed.

#[export] Hint Resolve finalizeMove_inv maybeEngineMove_inv : chess.

(** ** What a click does *)

(** The five outcomes of [onSquareClick]: ignored, selection cleared, a
    piece of the side to move selected with its legal destinations, the
    promotion dialog opened for a legal pawn move, or a legal move
    committed. *)
Inductive clickSpec (s : Session) (row col : Z) : Session * list Effect -> Prop :=
  | ClickIgnored : clickSpec s row col (s, [])
  | ClickDeselect : clickSpec s row col (setSelection s None [], [])
  | ClickSelect p :
      getPiece (board (gs s)) row col = Some p -> pcolor p = turn (gs s) ->
      clickSpec s row col (setSelection s (Some (row, col)) (legalMoves (gs s) row col), [])
  | ClickPromotion fr fc :
      selectedSquare s = Some (fr, fc) -> In (row, col) (legalMoves (gs s) fr fc) ->
      getType (getPiece (board (gs s)) fr fc) = Some Pawn ->
      clickSpec s row col
        (openPromotion s fr fc row col, [])
  | ClickMove fr fc :
      selectedSquare s = Some (fr, fc) -> In (row, col) (legalMoves (gs s) fr fc) ->
      clickSpec s row col (finalizeMove s fr fc row col None).

(** Selecting a square reads the legality filter and keeps the state. *)
Lemma select_square v s row col p :
  sessionInv v s -> getPiece (board (gs s)) row col = Some p -> pcolor p = turn (gs s) ->
  clickSpec s row col
    (let '(legal, g') := generateLegalMovesForSquare (gs s) row col in
     (setSelection (setGs s g') (Some (row, col)) legal, [])).
Proof.
  intros _ Hp Hc.
  destruct (generateLegalMovesForSquare (gs s) row col) as [legal g'] eqn:E.
  assert (g' = gs s) as ->.
  { pose proof (f_equal snd E) as H. rewrite generateLegalMoves_eq in H. now simpl in H. }
  assert (legal = legalMoves (gs s) row col) as -> by (unfold legalMoves; now rewrite E).
  rewrite setGs_gs. eapply ClickSelect; eauto.
Qed.

Lemma onSquareClick_spec v s row col :
  sessionInv v s -> clickSpec s row col (onSquareClick s row col).
Proof.
  intros Hs. unfold onSquareClick. cbn zeta.
  do 3 (case_if; [constructor|]).
  destruct (selectedSquare s) as [[fr fc]|] eqn:Hsel;
    [destruct (List.find _ _) as [mv|] eqn:Hf|].
  1: { apply find_some in Hf as [Hin Hm]. bool_to_prop. destruct mv; simpl in *; subst.
        pose proof (inv_selection _ _ Hs) as Hl. rewrite Hsel in Hl. rewrite Hl in Hin.
        case_if; bool_to_prop; [eapply ClickPromotion|eapply ClickMove]; eauto. }
  all: case_if; [constructor|].
  all: destruct (getPiece _ row col) as [p|] eqn:Hp; [case_if; bool_to_prop|constructor].
  all: first [eapply select_square; eauto | constructor].
Qed.

(** ** Every handler keeps the invariant *)

Lemma onSquareClick_inv v s row col :
  sessionInv v s -> sessionInv v (onSquareClick s row col).1.
Proof.
  intros Hs. destruct (onSquareClick_spec v s row col Hs); cbn [fst]; auto with chess;
    destruct Hs; constructor; cbn; auto.
Qed.

(** The state a promotion choice leaves is the one [finalizeMove] leaves,
    with the pending move cleared and the dialogs hidden. *)
Lemma onPromotionChoice_fst s k :
  (onPromotionChoice s k).1 = s
  \/ exists fr fc tr tc pp, let s1 := (finalizeMove s fr fc tr tc pp).1 in
     (onPromotionChoice s k).1 = setModals (setPromotionPending s1 None) (hideModals (modals s1)).
Proof.
  unfold onPromotionChoice. repeat case_match; simplify_eq/=; auto.
  right. do 5 eexists. match goal with H : finalizeMove _ _ _ _ _ _ = _ |- _ => now rewrite H end.
Qed.

Lemma onPromotionChoice_inv v s k : sessionInv v s -> sessionInv v (onPromotionChoice s k).1.
Proof.
  intros Hs. destruct (onPromotionChoice_fst s k) as [-> | (fr & fc & tr & tc & pp & ->)]; [auto|].
  apply (sessionInv_frame v (finalizeMove s fr fc tr tc pp).1); [reflexivity..|auto with chess].
Qed.

(** An engine reply either only clears the "thinking" flag, or commits a
    move through [finalizeMove]. *)
Lemma onEngineMove_fst s u :
  (onEngineMove s u).1.1 = setEngineThinking s false
  \/ exists fr fc tr tc pp,
     (onEngineMove s u).1.1 = (finalizeMove (setEngineThinking s false) fr fc tr tc pp).1.
Proof.
  unfold onEngineMove. repeat case_match; simplify_eq/=; auto.
  all: right; do 5 eexists; match goal with H : finalizeMove _ _ _ _ _ _ = _ |- _ => now rewrite H end.
Qed.

Lemma setEngineThinking_inv v s t : sessionInv v s -> sessionInv v (setEngineThinking s t).
Proof. apply sessionInv_frame; reflexivity. Qed.

#[export] Hint Resolve setEngineThinking_inv : chess.

Lemma onEngineMove_inv v s u : sessionInv v s -> sessionInv v (onEngineMove s u).1.1.
Proof.
  intros Hs. destruct (onEngineMove_fst s u) as [-> | (fr & fc & tr & tc & pp & ->)]; auto with chess.
Qed.

Lemma resetBoardState_inv v s :
  inReviewMode s = false -> gameOverVisibleClass (modals s) = v -> sessionInv v (resetBoardState s).
Proof.
  intros Hr Hv. constructor; [exact Hr|exact Hv| |reflexivity].
  change (boardWf (cloneBoard initialPosition)). rewrite cloneBoard_id. apply initialPosition_wf.
Qed.

(** The page outside the dialogs is not read by the invariant. *)
Lemma setDom_inv v s d : sessionInv v s -> sessionInv v (setDom s d).
Proof. apply sessionInv_frame; reflexivity. Qed.

Lemma startNewGame_inv v s p : sessionInv v s -> sessionInv v (startNewGameFromPayload s p).1.
Proof.
  intros Hs. unfold startNewGameFromPayload.
  match goal with |- context [maybeEngineMove ?x] =>
    pose proof (maybeEngineMove_inv v x) as H; destruct (maybeEngineMove x) end.
  apply H, setDom_inv, resetBoardState_inv; [reflexivity|apply Hs].
Qed.

Lemma setModals_inv v s m :
  gameOverVisibleClass m = gameOverVisibleClass (modals s) -> sessionInv v s -> sessionInv v (setModals s m).
Proof. intros Hm. apply sessionInv_frame; [reflexivity|exact Hm|reflexivity..]. Qed.

Lemma endGame_inv v s : sessionInv v s -> sessionInv v (endGameAndResetUI s).1.
Proof.
  intros Hs. unfold endGameAndResetUI. cbv zeta. cbn [fst].
  apply setModals_inv; [reflexivity|]. apply setDom_inv, resetBoardState_inv; [reflexivity|apply Hs].
Qed.

#[export] Hint Resolve onSquareClick_inv onPromotionChoice_inv onEngineMove_inv
  startNewGame_inv endGame_inv : chess.

Lemma handle_inv v s e : sessionInv v s -> sessionInv v (handle s e).1.
Proof.
  intros Hs. destruct e as [r c|k| |u|p| | | |t|p]; cbn [handle]; auto with chess;
    try (apply (sessionInv_frame v s); [reflexivity..|exact Hs]).
  - pose proof (onEngineMove_inv v s u Hs). now destruct (onEngineMove s u) as [[]].
  - unfold onPreferences. repeat case_match; cbn [fst]; try exact Hs. apply setDom_inv, Hs.
Qed.

Lemma reachable_inv m0 s : reachable m0 s -> sessionInv (gameOverVisibleClass m0) s.
Proof.
  induction 1; [|auto using handle_inv].
  constructor; [reflexivity|reflexivity|apply initialPosition_wf|reflexivity].
Qed.

(** ** Properties of every reachable session *)

(** C30: in every session reachable from the load-time session by any
    sequence of clicks, promotion choices, dialog closes, engine replies,
    new-game messages and stops: review mode is off, the game-over dialog's
    "visible" class is the one it had at load time, the board is 8x8, and
    the destinations kept for the selected square are exactly the legality
    filter's destinations for it in the current state (none without a
    selection). *)
Theorem reachable_invariant (m0 : Modals) (s : Session) :
  reachable m0 s ->
  inReviewMode s = false
  /\ gameOverVisibleClass (modals s) = gameOverVisibleClass m0
  /\ boardWf (board (gs s))
  /\ match selectedSquare s with
     | Some (r, c) => legalMovesForSelected s = legalMoves (gs s) r c
     | None => legalMovesForSelected s = []
     end.
Proof. intros H. destruct (reachable_inv m0 s H). auto. Qed.

Lemma reachable_invariant_witness :
  reachable (mkModals true true true false "" "")
    (bootSession (mkModals true true true false "" ""))
  /\ inReviewMode (bootSession (mkModals true true true false "" "")) = false
  /\ gameOverVisibleClass (modals (bootSession (mkModals true true true false "" ""))) = false
  /\ boardWf (board (gs (bootSession (mkModals true true true false "" ""))))
  /\ legalMovesForSelected (bootSession (mkModals true true true false "" "")) = [].
Proof.
  assert (H := reach_boot (mkModals true true true false "" "")).
  pose proof (reachable_invariant _ _ H) as (H1 & H2 & H3 & H4). auto.
Defined.

(** C29: a click commits only legal moves: in every reachable session, a
    click on a square is ignored, clears the selection, selects a piece of
    the side to move together with its legal destinations, opens the
    promotion dialog for a legal pawn move from the selected square, or
    commits through [finalizeMove] a move from the selected square to a
    destination the legality filter accepts in the current state. *)
Theorem click_commits_only_legal (m0 : Modals) (s : Session) (row col : Z) :
  reachable m0 s -> clickSpec s row col (onSquareClick s row col).
Proof. intros H. exact (onSquareClick_spec _ s row col (reachable_inv m0 s H)). Qed.

Lemma click_commits_only_legal_witness :
  reachable (mkModals true true true false "" "")
    (bootSession (mkModals true true true false "" ""))
  /\ clickSpec (bootSession (mkModals true true true false "" "")) 6 4
       (onSquareClick (bootSession (mkModals true true true false "" "")) 6 4).
Proof.
  assert (H := reach_boot (mkModals true true true false "" "")).
  split; [exact H|]. apply (click_commits_only_legal _ _ 6 4 H).
Defined.



(** ** Runs of events *)

Lemma run_reachable m0 s es : reachable m0 s -> reachable m0 (run s es).1.
Proof.
  unfold run. intros H. cut (forall acc, reachable m0 acc.1 ->
    reachable m0 (fold_left (fun acc e => let '(s1, e1) := handle acc.1 e in (s1, acc.2 ++ e1))
                    es acc).1); [intros Hc; now apply Hc|].
  induction es as [|e es IH]; intros [s0 acc0] Hs; [exact Hs|]. simpl.
  apply IH. simpl in Hs. destruct (handle s0 e) as [s1 e1] eqn:E. simpl.
  replace s1 with (handle s0 e).1 by now rewrite E. now constructor.
Qed.
