(* ===== verification/Play.v ===== *)
(** * Games played at the board (renderer.js 61-74, 146-215, 804-947)

  A game between two people at one board: after the host's new-game
  message, the only events are clicks on squares, clicks on the options of
  the promotion dialog, and the close button of the game-over dialog.  The
  page's markup puts the modal overlay over the board, so a square can be
  clicked only while the overlay is hidden, and the close button can be
  clicked only while the game-over dialog is shown ([humanStep]); these
  are the two facts of the DOM the model takes from outside the sources.

  In every session of such a game ([humanGame]) the engine state is a
  position of a game ([posInv]): one king of each colour, and the side
  that has just moved not in check.  The proof carries the session
  invariant of [Reach] and the fact that a pending promotion is a legal
  move of the current state, shown with the dialog over the board. *)

From Stdlib Require Import ZArith Lia List String.
From stdpp Require Import base list decidable strings.
From S2P Require Import Prelude Board Attack MoveGen AttackSpec Kings Apply Legal Position Fen Status Session Game Reach.

Open Scope Z_scope.

Inductive humanStep : Session -> Session -> Prop :=
  | hs_click s r c : overlayHidden (modals s) = true -> humanStep s (onSquareClick s r c).1
  | hs_promotion s k : humanStep s (onPromotionChoice s k).1
  | hs_close s : gameOverHidden (modals s) = false -> humanStep s (onCloseModal s).1.

(** The sessions of the game that starts with [s0]. *)
Inductive humanGame (s0 : Session) : Session -> Prop :=
  | hg_start : humanGame s0 s0
  | hg_step s s' : humanGame s0 s -> humanStep s s' -> humanGame s0 s'.

(** A pending promotion is a legal move of the current state, and the
    promotion dialog covers the board. *)
Definition pendingOk (s : Session) : Prop :=
  match promotionPending s with
  | Some (fr, fc, tr, tc) =>
      overlayHidden (modals s) = false /\ gameOverHidden (modals s) = true
      /\ In (tr, tc) (legalMoves (gs s) fr fc)
  | None => True
  end.

Record playInv (v : bool) (s : Session) : Prop := {
  play_session : sessionInv v s;
  play_pos : posInv (gs s);
  play_pending : pendingOk s }.

(** ** What the handlers do to the engine state *)

(** [finalizeMove] leaves the engine state [commitMove] describes and the
    pending promotion as it was. *)
Lemma finalizeMove_game s fr fc tr tc pp :
  let s' := (finalizeMove s fr fc tr tc pp).1 in
  let g' := commitMove (gs s) fr fc tr tc pp in
  board (gs s') = board g' /\ turn (gs s') = turn g'
  /\ castlingRights (gs s') = castlingRights g' /\ enPassantTarget (gs s') = enPassantTarget g'
  /\ promotionPending s' = promotionPending s.
Proof.
  unfold finalizeMove, commitMove.
  destruct (applyMoveOnBoard _ _ _ _ _ _ _) as [[b' g1] res]. cbn zeta.
  destruct (checkGameOver _ _ _); [|cbn; auto].
  engine_cases.
Qed.

Lemma finalizeMove_posInv s fr fc tr tc pp :
  posInv (gs s) -> In (tr, tc) (legalMoves (gs s) fr fc) -> promoOk (turn (gs s)) pp ->
  posInv (gs (finalizeMove s fr fc tr tc pp).1).
Proof.
  intros Hinv Hl Hpp. destruct (finalizeMove_game s fr fc tr tc pp) as (H1 & H2 & H3 & H4 & _).
  eapply posInv_ext; eauto. now apply commitMove_posInv.
Qed.

Lemma startNewGame_fields s p :
  let s' := (startNewGameFromPayload s p).1 in
  gs s' = initialGameState /\ promotionPending s' = promotionPending s
  /\ modals s' = modals s /\ inReviewMode s' = false
  /\ selectedSquare s' = None /\ legalMovesForSelected s' = [].
Proof. unfold startNewGameFromPayload. engine_cases; repeat split. Qed.

Lemma initialGameState_posInv : posInv initialGameState.
Proof.
  apply (posInv_ext (mkGameState initialPosition White allCastling None 0 1 []));
    [apply cloneBoard_id|reflexivity..|apply initial_posInv].
Qed.

(** ** Each step keeps the invariant *)

Lemma pendingOk_overlay s : pendingOk s -> overlayHidden (modals s) = true -> promotionPending s = None.
Proof. unfold pendingOk. destruct (promotionPending s) as [[[[? ?] ?] ?]|]; intuition congruence. Qed.

Lemma pendingOk_gameOver s :
  pendingOk s -> gameOverHidden (modals s) = false -> promotionPending s = None.
Proof. unfold pendingOk. destruct (promotionPending s) as [[[[? ?] ?] ?]|]; intuition congruence. Qed.

Lemma click_playInv v s r c :
  playInv v s -> overlayHidden (modals s) = true -> playInv v (onSquareClick s r c).1.
Proof.
  intros [Hs Hpos Hpend] Ho. pose proof (pendingOk_overlay s Hpend Ho) as Hnone.
  pose proof (onSquareClick_inv v s r c Hs) as Hs'. revert Hs'.
  destruct (onSquareClick_spec v s r c Hs); cbn [fst]; intros Hs'; constructor; auto.
  all: unfold pendingOk in *; cbn; rewrite ?Hnone; auto.
  - now apply finalizeMove_posInv.
  - now rewrite (proj2 (proj2 (proj2 (proj2 (finalizeMove_game s fr fc r c None))))), Hnone.
Qed.

Lemma promoKind_notKing X k : promoOk X (Some (mkPiece X (promoKind k))).
Proof. split; [reflexivity|]. destruct k; discriminate. Qed.

Lemma promotion_playInv v s k : playInv v s -> playInv v (onPromotionChoice s k).1.
Proof.
  intros [Hs Hpos Hpend]. pose proof (onPromotionChoice_inv v s k Hs) as Hs'.
  unfold onPromotionChoice in *. unfold pendingOk in Hpend.
  destruct (promotionPending s) as [[[[fr fc] tr] tc]|] eqn:Ep;
    [|cbn [fst]; constructor; auto; unfold pendingOk; now rewrite Ep].
  destruct Hpend as (_ & _ & Hl).
  pose proof (finalizeMove_posInv s fr fc tr tc _ Hpos Hl (promoKind_notKing (turn (gs s)) k)).
  destruct (finalizeMove s fr fc tr tc _) as [s1 eff]. cbn in *. constructor; auto.
  exact I.
Qed.

Lemma close_playInv v s :
  playInv v s -> gameOverHidden (modals s) = false -> playInv v (onCloseModal s).1.
Proof.
  intros [Hs Hpos Hpend] Hg. pose proof (pendingOk_gameOver s Hpend Hg) as Hnone.
  constructor; [apply (handle_inv v s EvCloseModal Hs)|exact Hpos|].
  unfold pendingOk. cbn. now rewrite Hnone.
Qed.

Lemma humanStep_playInv v s s' : playInv v s -> humanStep s s' -> playInv v s'.
Proof.
  intros Hs H. revert Hs. destruct H as [s0 r c Ho|s0 k|s0 Hg]; intros Hs.
  - exact (click_playInv v s0 r c Hs Ho).
  - exact (promotion_playInv v s0 k Hs).
  - exact (close_playInv v s0 Hs Hg).
Qed.

(** A new game started without a pending promotion. *)
Lemma startNewGame_playInv s p :
  promotionPending s = None ->
  playInv (gameOverVisibleClass (modals s)) (startNewGameFromPayload s p).1.
Proof.
  intros Hnone. destruct (startNewGame_fields s p) as (Hg & Hpp & Hm & Hr & Hsel & Hl).
  constructor.
  - constructor; rewrite ?Hr, ?Hm, ?Hsel, ?Hl, ?Hg; auto.
    change (boardWf (cloneBoard initialPosition)). rewrite cloneBoard_id. apply initialPosition_wf.
  - rewrite Hg. apply initialGameState_posInv.
  - unfold pendingOk. now rewrite Hpp, Hnone.
Qed.

Lemma humanGame_playInv s p s' :
  promotionPending s = None -> humanGame (startNewGameFromPayload s p).1 s' ->
  playInv (gameOverVisibleClass (modals s)) s'.
Proof.
  intros Hnone H. induction H as [|s1 s2 _ IH Hstep].
  - now apply startNewGame_playInv.
  - eapply humanStep_playInv; eauto.
Qed.

(** C11: in a game of two people at the board, started by the new-game
    message while no promotion is pending and played by clicks on the
    squares, choices in the promotion dialog and the close button, every
    session has exactly one king of each colour on the board, and the side
    that has just moved is not in check. *)
Theorem human_game_kings_safe (s : Session) (p : Payload) (s' : Session) :
  promotionPending s = None -> humanGame (startNewGameFromPayload s p).1 s' ->
  (forall c, kingCount (board (gs s')) c = 1%nat)
  /\ isKingInCheck (board (gs s')) (opp (turn (gs s'))) = false.
Proof.
  intros Hnone H. destruct (humanGame_playInv s p s' Hnone H) as [_ [] _]. auto.
Qed.

Lemma human_game_kings_safe_witness :
  let s := bootSession (mkModals true true true false "" "") in
  let p := mkPayload (Some "human"%string) None None in
  (promotionPending s = None /\ humanGame (startNewGameFromPayload s p).1 (startNewGameFromPayload s p).1)
  /\ (forall c, kingCount (board (gs (startNewGameFromPayload s p).1)) c = 1%nat)
  /\ isKingInCheck (board (gs (startNewGameFromPayload s p).1))
       (opp (turn (gs (startNewGameFromPayload s p).1))) = false.
Proof.
  cbv zeta.
  assert (H1 : promotionPending (bootSession (mkModals true true true false "" "")) = None)
    by reflexivity.
  split; [split; [exact H1|apply hg_start]|].
  apply (human_game_kings_safe _ (mkPayload (Some "human"%string) None None) _ H1).
  apply hg_start.
Defined.
