(* ===== verification/Progress.v ===== *)
(** * The progress of a game (renderer.js 168-181, 419-458, 804-947)

  What a game records as it goes: the move list [gameMoves], the position
  history [positionHistory] and the two clocks.  Each committed move
  appends one entry to the move list and one to the history, and moves
  each clock by at most one; a reset empties the list and seeds the
  history.  So in every reachable session, whatever the host sends, the
  clocks never run ahead of the moves recorded, and the history is at
  least as long as the move list ([reachable_clocks_bounded]).  In a game
  of two people at the board the count is exact: the history holds one
  more entry than the move list, the turn alternates with the parity of
  the number of moves, and the full-move number is one more than half of
  it.  And a game never gets stuck: while the board is not covered by a
  dialog and the side to move has a legal move, two clicks, and a choice
  in the promotion dialog when the move promotes, commit a move. *)

From Stdlib Require Import ZArith Lia List String.
From stdpp Require Import base list decidable strings.
From S2P Require Import Prelude Board Attack MoveGen AttackSpec Kings Apply Legal Position Fen Status Session Game Reach Play.

Open Scope Z_scope.

(** The bound on the clocks and the history. *)
Definition clockBound (s : Session) : Prop :=
  let n := List.length (gameMoves s) in
  (halfmoveClock (gs s) <= n)%nat
  /\ (1 <= fullmoveNumber (gs s) <= S n)%nat
  /\ (n <= List.length (positionHistory (gs s)))%nat.

(** ** What a committed move records *)

(** The clocks move by at most one; the history is left to the caller. *)
Lemma commitMove_clocks g fr fc tr tc pp :
  (halfmoveClock (commitMove g fr fc tr tc pp) <= S (halfmoveClock g))%nat
  /\ fullmoveNumber (commitMove g fr fc tr tc pp)
     = (if bool_decide (getColor (boardAt (board g) fr fc) = Some Black)
        then S (fullmoveNumber g) else fullmoveNumber g)
  /\ positionHistory (commitMove g fr fc tr tc pp) = positionHistory g.
Proof.
  unfold commitMove. pose proof (applyMove_state g (board g) fr fc tr tc pp) as E.
  destruct (applyMoveOnBoard _ _ _ _ _ _ _) as [[b' g1] res]. cbn in E |- *. subst g1.
  unfold bookkeeping. cbn. split; [destruct (_ || _)%bool; lia|auto].
Qed.

(** [finalizeMove] leaves the engine state [commitMove] describes with the
    new position appended to the history, and appends one entry to the
    move list. *)
Lemma finalizeMove_record s fr fc tr tc pp :
  let g3 := commitMove (gs s) fr fc tr tc pp in
  let s' := (finalizeMove s fr fc tr tc pp).1 in
  gs s' = setHistory g3 (positionHistory g3 ++ [boardToFEN g3 (board g3) (turn g3)])
  /\ gameMoves s' = gameMoves s ++ [mkGameMove (coordToSquare fr fc) (coordToSquare tr tc)
       (movedPiece (applyMoveOnBoard (gs s) (board (gs s)) fr fc tr tc (mkApplyOpts true pp)).2)].
Proof.
  unfold finalizeMove, commitMove.
  destruct (applyMoveOnBoard _ _ _ _ _ _ _) as [[b' g1] res]. cbn zeta.
  destruct (checkGameOver _ _ _); [|cbn; auto].
  engine_cases.
Qed.

(** ** The clocks never run ahead of the moves *)

Lemma clockBound_frame s s' :
  gs s' = gs s -> gameMoves s' = gameMoves s -> clockBound s -> clockBound s'.
Proof. unfold clockBound. now intros -> ->. Qed.

Lemma clockBound_finalizeMove s fr fc tr tc pp :
  clockBound s -> clockBound (finalizeMove s fr fc tr tc pp).1.
Proof.
  destruct (finalizeMove_record s fr fc tr tc pp) as [Hg Hm].
  destruct (commitMove_clocks (gs s) fr fc tr tc pp) as (Hh & Hf & Hp).
  unfold clockBound. rewrite Hg, Hm. cbn [halfmoveClock fullmoveNumber positionHistory setHistory].
  rewrite !length_app, Hf, Hp. cbn [List.length].
  destruct (bool_decide _); lia.
Qed.

Lemma clockBound_reset s : clockBound (resetBoardState s).
Proof. unfold clockBound. cbn -[boardToFEN]. lia. Qed.

Lemma clockBound_maybeEngineMove s : clockBound s -> clockBound (maybeEngineMove s).1.
Proof. destruct (maybeEngineMove_fst s) as [-> | ->]; [auto|]. now apply (clockBound_frame s). Qed.

Lemma clockBound_setDom s d : clockBound s -> clockBound (setDom s d).
Proof. now apply (clockBound_frame s). Qed.

Lemma clockBound_setModals s m : clockBound s -> clockBound (setModals s m).
Proof. now apply (clockBound_frame s). Qed.

#[export] Hint Resolve clockBound_finalizeMove clockBound_reset clockBound_maybeEngineMove
  clockBound_setDom clockBound_setModals : chess.

Lemma clockBound_handle v s e : sessionInv v s -> clockBound s -> clockBound (handle s e).1.
Proof.
  intros Hs Hb. destruct e as [r c|k| |u|p| | | |t|pr]; cbn [handle].
  - destruct (onSquareClick_spec v s r c Hs); cbn [fst]; auto with chess;
      now apply (clockBound_frame s).
  - destruct (onPromotionChoice_fst s k) as [-> | (fr & fc & tr & tc & pp & ->)]; [exact Hb|].
    apply (clockBound_frame (finalizeMove s fr fc tr tc pp).1); auto with chess.
  - now apply (clockBound_frame s).
  - destruct (onEngineMove s u) as [[s1 eff] o] eqn:E.
    pose proof (onEngineMove_fst s u) as H. rewrite E in H. cbn [fst] in H |- *.
    assert (clockBound (setEngineThinking s false)) by now apply (clockBound_frame s).
    destruct H as [-> | (fr & fc & tr & tc & pp & ->)]; auto with chess.
  - unfold startNewGameFromPayload. cbv zeta.
    match goal with |- context [maybeEngineMove ?x] =>
      pose proof (clockBound_maybeEngineMove x (clockBound_setDom _ _ (clockBound_reset _)));
      destruct (maybeEngineMove x) end.
    assumption.
  - unfold endGameAndResetUI. cbv zeta. cbn [fst].
    apply clockBound_setModals, clockBound_setDom, clockBound_reset.
  - exact Hb.
  - exact Hb.
  - now apply clockBound_setDom.
  - unfold onPreferences. repeat case_match; exact Hb.
Qed.

Lemma reachable_clockBound m0 s : reachable m0 s -> clockBound s.
Proof.
  induction 1 as [|s e Hr IH].
  - unfold clockBound. cbn. lia.
  - exact (clockBound_handle _ s e (reachable_inv m0 s Hr) IH).
Qed.

(** C12: in every session reachable by any sequence of events, the
    halfmove clock is at most the number of moves in the move list, the
    full-move number is at least one and at most one more than that
    number, and the position history holds at least as many entries as
    the move list: each committed move, by a click, a promotion choice or
    an engine reply, records one move and one position and moves each
    clock by at most one, and the resets of a new game or a stop restart
    all of them together. *)
Theorem reachable_clocks_bounded (m0 : Modals) (s : Session) :
  reachable m0 s ->
  (halfmoveClock (gs s) <= List.length (gameMoves s))%nat
  /\ (1 <= fullmoveNumber (gs s) <= S (List.length (gameMoves s)))%nat
  /\ (List.length (gameMoves s) <= List.length (positionHistory (gs s)))%nat.
Proof. intros H. exact (reachable_clockBound m0 s H). Qed.

Lemma reachable_clocks_bounded_witness :
  let m0 := mkModals true true true false "" "" in
  let s := (handle (handle (bootSession m0) (EvClick 6 4)).1 (EvClick 4 4)).1 in
  reachable m0 s
  /\ (halfmoveClock (gs s) <= List.length (gameMoves s))%nat
  /\ (1 <= fullmoveNumber (gs s) <= S (List.length (gameMoves s)))%nat
  /\ (List.length (gameMoves s) <= List.length (positionHistory (gs s)))%nat.
Proof.
  cbv zeta.
  assert (H : reachable (mkModals true true true false "" "")
    (handle (handle (bootSession (mkModals true true true false "" "")) (EvClick 6 4)).1 (EvClick 4 4)).1)
    by (apply reach_step; apply (reach_step _ _ (EvClick 6 4)); apply reach_boot).
  split; [exact H|]. exact (reachable_clocks_bounded _ _ H).
Defined.

(** ** The count of a game of two people *)

(** The history holds one more entry than the move list, the full-move
    number is one more than half the number of moves, and White moves
    after an even number of moves. *)
Definition gameCount (s : Session) : Prop :=
  let n := List.length (gameMoves s) in
  List.length (positionHistory (gs s)) = S n
  /\ fullmoveNumber (gs s) = S (Nat.div2 n)
  /\ turn (gs s) = (if Nat.even n then White else Black).

(** The piece a legal move takes is one of the side to move. *)
Lemma legal_mover_color g fr fc tr tc :
  In (tr, tc) (legalMoves g fr fc) -> getColor (boardAt (board g) fr fc) = Some (turn g).
Proof.
  intros Hl. destruct (legalMoves_sound g fr fc (tr, tc) Hl) as (p & Hp & Hc & _).
  rewrite <- getPiece_in, Hp by (eapply getPiece_Some_inBounds; eauto). cbn. congruence.
Qed.

(** A legal move committed by [finalizeMove] records one move and passes
    the turn. *)
Lemma finalizeMove_legal s fr fc tr tc pp :
  posInv (gs s) -> In (tr, tc) (legalMoves (gs s) fr fc) -> promoOk (turn (gs s)) pp ->
  List.length (gameMoves (finalizeMove s fr fc tr tc pp).1) = S (List.length (gameMoves s))
  /\ turn (gs (finalizeMove s fr fc tr tc pp).1) = opp (turn (gs s)).
Proof.
  intros Hpos Hl Hpp. destruct (finalizeMove_record s fr fc tr tc pp) as [Hg Hm].
  rewrite Hg, Hm, length_app, Nat.add_1_r. split; [reflexivity|].
  exact (commitMove_turn (gs s) fr fc tr tc pp Hpos Hl Hpp).
Qed.

Lemma gameCount_frame s s' :
  gs s' = gs s -> gameMoves s' = gameMoves s -> gameCount s -> gameCount s'.
Proof. unfold gameCount. now intros -> ->. Qed.

Lemma gameCount_finalizeMove s fr fc tr tc pp :
  posInv (gs s) -> In (tr, tc) (legalMoves (gs s) fr fc) -> promoOk (turn (gs s)) pp ->
  gameCount s -> gameCount (finalizeMove s fr fc tr tc pp).1.
Proof.
  intros Hpos Hl Hpp (H1 & H2 & H3).
  destruct (finalizeMove_legal s fr fc tr tc pp Hpos Hl Hpp) as [Hn Ht].
  destruct (finalizeMove_record s fr fc tr tc pp) as [Hg _].
  destruct (commitMove_clocks (gs s) fr fc tr tc pp) as (_ & Hf & Hp).
  unfold gameCount. rewrite Hn, Ht, Hg, div2_S, Nat.even_succ, <- Nat.negb_even.
  cbn [fullmoveNumber positionHistory setHistory].
  rewrite length_app, Hf, Hp, (legal_mover_color _ _ _ _ _ Hl), H1, H2, H3, Nat.add_1_r.
  destruct (Nat.even _); cbn; auto.
Qed.

Lemma gameCount_start s p : gameCount (startNewGameFromPayload s p).1.
Proof. unfold startNewGameFromPayload, gameCount. engine_cases. Qed.

Lemma gameCount_step v s s' : playInv v s -> humanStep s s' -> gameCount s -> gameCount s'.
Proof.
  intros [Hs Hpos Hpend] H Hc. destruct H as [s r c Ho|s k|s Hg].
  - destruct (onSquareClick_spec v s r c Hs); cbn [fst];
      [exact Hc|apply (gameCount_frame s); auto..|].
    now apply gameCount_finalizeMove.
  - unfold onPromotionChoice. unfold pendingOk in Hpend.
    destruct (promotionPending s) as [[[[fr fc] tr] tc]|]; [|exact Hc].
    destruct Hpend as (_ & _ & Hl).
    pose proof (gameCount_finalizeMove s fr fc tr tc _ Hpos Hl (promoKind_notKing _ k) Hc).
    destruct (finalizeMove s fr fc tr tc _) as [s1 eff]. exact H.
  - exact Hc.
Qed.

(** C13: in a game of two people at the board, started by the new-game
    message while no promotion is pending, after n moves the position
    history holds n + 1 entries, the full-move number is 1 + n/2 (rounded
    down), and it is White's turn exactly when n is even: every click or
    promotion choice that commits a move commits one of the side to move
    and passes the turn. *)
Theorem human_game_move_count (s : Session) (p : Payload) (s' : Session) :
  promotionPending s = None -> humanGame (startNewGameFromPayload s p).1 s' ->
  List.length (positionHistory (gs s')) = S (List.length (gameMoves s'))
  /\ fullmoveNumber (gs s') = S (Nat.div2 (List.length (gameMoves s')))
  /\ turn (gs s') = (if Nat.even (List.length (gameMoves s')) then White else Black).
Proof.
  intros Hnone H. induction H as [|s1 s2 H1 IH Hstep]; [apply gameCount_start|].
  exact (gameCount_step _ s1 s2 (humanGame_playInv s p s1 Hnone H1) Hstep IH).
Qed.

Lemma human_game_move_count_witness :
  let s := bootSession (mkModals true true true false "" "") in
  let p := mkPayload (Some "human"%string) None None in
  (promotionPending s = None /\ humanGame (startNewGameFromPayload s p).1 (startNewGameFromPayload s p).1)
  /\ List.length (positionHistory (gs (startNewGameFromPayload s p).1)) = 1%nat.
Proof.
  cbv zeta.
  assert (H1 : promotionPending (bootSession (mkModals true true true false "" "")) = None)
    by reflexivity.
  split; [split; [exact H1|apply hg_start]|].
  exact (proj1 (human_game_move_count _ (mkPayload (Some "human"%string) None None) _ H1
    (hg_start _))).
Defined.

(** ** A game never gets stuck *)

(** The legality filter leaves the engine state as it found it. *)
Lemma generate_pair g r c : generateLegalMovesForSquare g r c = (legalMoves g r c, g).
Proof. unfold legalMoves. now rewrite generateLegalMoves_eq. Qed.

(** The guards of [onSquareClick] pass in a session of a game of two
    people (or none) whose game-over dialog is not "visible". *)
Ltac click_guards Hs Hm :=
  unfold onSquareClick; cbn zeta;
  rewrite (inv_review _ _ Hs), (inv_visible _ _ Hs), (bool_decide_eq_false_2 _ Hm), andb_false_r;
  cbn [orb andb].

(** A square holding a piece of the side to move is never a destination. *)
Lemma own_piece_not_destination s fr fc r c p :
  sessionInv false s -> posInv (gs s) -> selectedSquare s = Some (fr, fc) ->
  getPiece (board (gs s)) r c = Some p -> pcolor p = turn (gs s) ->
  ~ In (r, c) (legalMovesForSelected s).
Proof.
  intros Hs Hpos Hsel Hp Hc Hin. pose proof (inv_selection _ _ Hs) as Hl.
  rewrite Hsel in Hl. rewrite Hl in Hin.
  destruct (legalMoves_sound _ _ _ _ Hin) as (q & Hq & Hqc & Hps & _).
  destruct (pseudoMoves_destOk _ _ _ _ _ _ (pos_ep _ Hpos) Hq Hps) as [_ Hown].
  unfold notOwn in Hown. cbn [fst snd] in Hown. rewrite Hp in Hown. cbn in Hown.
  rewrite bool_decide_eq_true_2 in Hown by congruence. discriminate.
Qed.

(** A click on a piece of the side to move that is not the selected
    square selects it with its legal destinations. *)
Lemma click_own_piece s r c p :
  sessionInv false s -> posInv (gs s) -> gameMode s <> EngineMode ->
  getPiece (board (gs s)) r c = Some p -> pcolor p = turn (gs s) ->
  selectedSquare s <> Some (r, c) ->
  (onSquareClick s r c).1 = setSelection s (Some (r, c)) (legalMoves (gs s) r c).
Proof.
  intros Hs Hpos Hm Hp Hc Hsel. click_guards Hs Hm.
  assert (Hnf : selectedSquare s = None
                \/ List.find (fun mv => (mv.1 =? r) && (mv.2 =? c)) (legalMovesForSelected s) = None).
  { destruct (selectedSquare s) as [[fr fc]|] eqn:Es; [right|now left].
    destruct (List.find _ _) as [[r' c']|] eqn:Hf; [exfalso|reflexivity].
    apply find_some in Hf as [Hin Hmatch]. cbn [fst snd] in Hmatch. bool_to_prop. subst.
    exact (own_piece_not_destination s fr fc r c p Hs Hpos Es Hp Hc Hin). }
  destruct Hnf as [Hn|Hn]; [rewrite Hn|destruct (selectedSquare s) as [[? ?]|] eqn:Es; rewrite ?Hn];
    cbn iota; rewrite ?Hn, bool_decide_eq_false_2 by congruence;
    rewrite Hp, bool_decide_eq_true_2, generate_pair by exact Hc; cbn; now rewrite setGs_gs.
Qed.

(** A click on a destination of the selected square commits the move or
    opens the promotion dialog for it. *)
Lemma click_destination s fr fc tr tc :
  sessionInv false s -> gameMode s <> EngineMode ->
  selectedSquare s = Some (fr, fc) -> In (tr, tc) (legalMoves (gs s) fr fc) ->
  (onSquareClick s tr tc).1 = (finalizeMove s fr fc tr tc None).1
  \/ (onSquareClick s tr tc).1
     = openPromotion s fr fc tr tc.
Proof.
  intros Hs Hm Hsel Hl. pose proof (inv_selection _ _ Hs) as Hls. rewrite Hsel in Hls.
  click_guards Hs Hm. rewrite Hsel, Hls.
  destruct (List.find _ _) eqn:Hf.
  - cbn iota. destruct (_ && _)%bool; [right|left]; reflexivity.
  - exfalso. apply (find_none _ _ Hf) in Hl. cbn [fst snd] in Hl.
    now rewrite !Z.eqb_refl in Hl.
Qed.

(** A promotion choice commits the pending move with the chosen piece. *)
Lemma promotion_commits s fr fc tr tc k :
  promotionPending s = Some (fr, fc, tr, tc) ->
  let s' := (finalizeMove s fr fc tr tc (Some (mkPiece (turn (gs s)) (promoKind k)))).1 in
  gs (onPromotionChoice s k).1 = gs s' /\ gameMoves (onPromotionChoice s k).1 = gameMoves s'.
Proof.
  intros Hp. unfold onPromotionChoice. rewrite Hp.
  destruct (finalizeMove _ _ _ _ _ _) as [s1 eff]. cbn. auto.
Qed.

(** From a session with the board uncovered, where the square [(r, c)]
    holds a piece of the side to move with a legal move to [(tr, tc)],
    at most three steps of the players commit a move. *)
Lemma commit_from_square s r c p tr tc :
  playInv false s -> overlayHidden (modals s) = true -> gameMode s <> EngineMode ->
  getPiece (board (gs s)) r c = Some p -> pcolor p = turn (gs s) ->
  In (tr, tc) (legalMoves (gs s) r c) ->
  exists s', humanGame s s' /\ List.length (gameMoves s') = S (List.length (gameMoves s))
    /\ turn (gs s') = opp (turn (gs s)).
Proof.
  intros [Hs Hpos _] Ho Hm Hp Hc Hl.
  (* the square selected, after at most one click *)
  assert (exists s1, humanGame s s1 /\ gs s1 = gs s /\ gameMoves s1 = gameMoves s
            /\ modals s1 = modals s /\ gameMode s1 = gameMode s
            /\ selectedSquare s1 = Some (r, c) /\ sessionInv false s1)
    as (s1 & Hg1 & Hgs & Hmv & Hmd & Hmode & Hsel & Hs1).
  { destruct (decide (selectedSquare s = Some (r, c))) as [E|E].
    - exists s. split; [apply hg_start|].
      do 5 (split; [first [reflexivity|exact E]|]). exact Hs.
    - exists (onSquareClick s r c).1.
      pose proof (onSquareClick_inv false s r c Hs) as Hs'.
      pose proof (hg_step s s _ (hg_start s) (hs_click s r c Ho)) as Hg.
      rewrite (click_own_piece s r c p) in Hs', Hg |- * by auto.
      split; [exact Hg|]. do 5 (split; [reflexivity|]). exact Hs'. }
  rewrite <- Hgs in Hpos, Hl |- *. rewrite <- Hmv. rewrite <- Hmd in Ho. rewrite <- Hmode in Hm.
  destruct (click_destination s1 r c tr tc Hs1 Hm Hsel Hl) as [E|E].
  - exists (finalizeMove s1 r c tr tc None).1. split.
    + rewrite <- E. exact (hg_step _ _ _ Hg1 (hs_click s1 tr tc Ho)).
    + exact (finalizeMove_legal s1 r c tr tc None Hpos Hl I).
  - set (s2 := openPromotion s1 r c tr tc) in E.
    assert (Hg2 : humanGame s s2) by (rewrite <- E; exact (hg_step _ _ _ Hg1 (hs_click s1 tr tc Ho))).
    exists (onPromotionChoice s2 PromoQ).1. split; [exact (hg_step _ _ _ Hg2 (hs_promotion s2 PromoQ))|].
    destruct (promotion_commits s2 r c tr tc PromoQ eq_refl) as [-> ->].
    exact (finalizeMove_legal s2 r c tr tc _ Hpos Hl (promoKind_notKing _ PromoQ)).
Qed.

(** C14: the game never gets stuck: in a session of a game of two people
    (or of no game) satisfying the game invariant, with a page whose
    game-over dialog does not carry the class "visible", if no dialog
    covers the board and the side to move has a legal move, then two
    clicks on the board, followed by a choice in the promotion dialog when
    the move promotes, commit a move: the move list grows by one and the
    turn passes to the opponent. *)
Theorem human_can_always_move (s : Session) :
  playInv false s -> overlayHidden (modals s) = true -> gameMode s <> EngineMode ->
  sideHasAnyLegalMove (gs s) (turn (gs s)) = true ->
  exists s', humanGame s s' /\ List.length (gameMoves s') = S (List.length (gameMoves s))
    /\ turn (gs s') = opp (turn (gs s)).
Proof.
  intros Hinv Ho Hm Hany.
  apply sideHasAnyLegalMove_spec in Hany as (r & c & p & Hp & Hc & Hl).
  destruct (legalMoves (gs s) r c) as [|[tr tc] rest] eqn:El; [congruence|].
  apply (commit_from_square s r c p tr tc); auto. rewrite El. now left.
Qed.

Lemma human_can_always_move_witness :
  let s := (startNewGameFromPayload (bootSession (mkModals true true true false "" ""))
              (mkPayload (Some "human"%string) None None)).1 in
  (playInv false s /\ overlayHidden (modals s) = true /\ gameMode s <> EngineMode
   /\ sideHasAnyLegalMove (gs s) (turn (gs s)) = true)
  /\ exists s', humanGame s s' /\ List.length (gameMoves s') = S (List.length (gameMoves s))
       /\ turn (gs s') = opp (turn (gs s)).
Proof.
  cbv zeta.
  assert (H1 : playInv false (startNewGameFromPayload (bootSession (mkModals true true true false "" ""))
              (mkPayload (Some "human"%string) None None)).1)
    by (apply (startNewGame_playInv (bootSession (mkModals true true true false "" ""))); reflexivity).
  assert (H2 : overlayHidden (modals (startNewGameFromPayload (bootSession (mkModals true true true false "" ""))
              (mkPayload (Some "human"%string) None None)).1) = true) by reflexivity.
  assert (H3 : gameMode (startNewGameFromPayload (bootSession (mkModals true true true false "" ""))
              (mkPayload (Some "human"%string) None None)).1 <> EngineMode) by discriminate.
  assert (H4 : sideHasAnyLegalMove (gs (startNewGameFromPayload (bootSession (mkModals true true true false "" ""))
              (mkPayload (Some "human"%string) None None)).1)
              (turn (gs (startNewGameFromPayload (bootSession (mkModals true true true false "" ""))
              (mkPayload (Some "human"%string) None None)).1)) = true) by (vm_compute; reflexivity).
  split; [auto|]. exact (human_can_always_move _ H1 H2 H3 H4).
Defined.
