(* ===== verification/Render.v ===== *)
(** * Rendering the board (renderer.js 724-802)

  [renderBoard] rebuilds the board element from the state: 64 square
  elements in the order of its two loops, each with its class list, its
  children, and a click listener calling [onSquareClick(row, col)].  It
  writes the DOM only, and no handler reads what it writes.  Here the board
  element is the list of [SquareView] values the loops append; a class list
  is the list of the names added, in order (no name is added twice, so the
  list is the element's DOMTokenList); the children are the piece, the
  annotation icon and the move dot in the order the code appends them.
  The annotation icon reads [reviewCurrentTag] from the session's review
  variables. *)

From Stdlib Require Import ZArith Lia List String Ascii.
From stdpp Require Import base list decidable strings.
From S2P Require Import Prelude Board Attack MoveGen Apply Legal Position Fen Status Session Game Reach Play Progress.

Open Scope Z_scope.

(** The two-letter tag of a piece, as the board array holds it. *)
Definition colorLetter (c : Color) : string :=
  match c with White => "w" | Black => "b" end.
Definition kindLetter (k : Kind) : string :=
  match k with
  | Pawn => "P" | Knight => "N" | Bishop => "B" | Rook => "R" | Queen => "Q" | King => "K"
  end.
Definition pieceTag (p : Piece) : string := colorLetter (pcolor p) ++ kindLetter (pkind p).

(** The children a square element can get. *)
Inductive Child :=
  | PieceDiv (image : string) (classes : list string)
  | AnnotationIcon (classes : list string) (text : string)
  | MoveDot.

Record SquareView := mkSquareView {
  svRow : Z; svCol : Z; svClasses : list string; svChildren : list Child }.

(** [r === row && c === col] *)
Definition atSquare (r c row col : Z) : bool := (r =? row) && (c =? col).

(** Lines 765-778: the annotation icon of a review tag. *)
Definition annotationIcon (tag : string) : Child :=
  if String.eqb tag "good" then AnnotationIcon ["annotation-icon"; "annotation-good"] "!"
  else if String.eqb tag "excellent" then AnnotationIcon ["annotation-icon"; "annotation-excellent"] "!!"
  else if String.eqb tag "mistake" then AnnotationIcon ["annotation-icon"; "annotation-mistake"] "?"
  else if String.eqb tag "blunder" then AnnotationIcon ["annotation-icon"; "annotation-blunder"] "??"
  else AnnotationIcon ["annotation-icon"] "".

(** The body of the two loops (lines 729-799). *)
Definition renderSquare (s : Session) (row col : Z) : SquareView :=
  let onLast := match lastMove s with
                | Some m => atSquare (lmFromRow m) (lmFromCol m) row col
                            || atSquare (lmToRow m) (lmToCol m) row col
                | None => false
                end in
  let isTo := match lastMove s with
              | Some m => atSquare (lmToRow m) (lmToCol m) row col
              | None => false
              end in
  let isSel := match selectedSquare s with
               | Some (r, c) => atSquare r c row col
               | None => false
               end in
  let cls := ["square"; if (row + col) mod 2 =? 0 then "light" else "dark"]
             ++ (if onLast then ["last-move-square"] else [])
             ++ (if isSel then ["selected-square"] else []) in
  let pieceKids :=
    match boardAt (board (gs s)) row col with
    | Some p =>
        PieceDiv ("assets/pieces/" ++ pieceTag p ++ ".png")
          ("piece" :: (if isTo then ["just-moved"] else []))
        :: match reviewCurrentTag (review s) with
           | Some t => if inReviewMode s && isTo && negb (String.eqb t "")
                       then [annotationIcon t] else []
           | None => []
           end
    | None => []
    end in
  let isTarget := existsb (fun mv => atSquare mv.1 mv.2 row col) (legalMovesForSelected s) in
  let flash := match lastMove s with Some m => lmCapture m && isTo | None => false end in
  mkSquareView row col (cls ++ (if flash then ["capture-flash"] else []))
    (pieceKids ++ (if isTarget then [MoveDot] else [])).

(** Lines 724-802: the board element's children, in the order appended. *)
Definition renderBoard (s : Session) : list SquareView :=
  map (fun sq => renderSquare s sq.1 sq.2) squares64.

(** ** The shape of the rendered board *)

Lemma renderSquare_classes_NoDup s row col : NoDup (svClasses (renderSquare s row col)).
Proof.
  unfold renderSquare. cbv zeta. cbn [svClasses].
  destruct (lastMove s) as [m|]; [|]; destruct (selectedSquare s) as [[r c]|];
    repeat case_if; apply (bool_decide_unpack _); vm_compute; reflexivity.
Qed.

Lemma renderSquare_pos s row col :
  svRow (renderSquare s row col) = row /\ svCol (renderSquare s row col) = col.
Proof. split; reflexivity. Qed.

(** ** The move dots *)

(** Only the dot test appends a move dot. *)
Lemma renderSquare_dot_test s row col :
  In MoveDot (svChildren (renderSquare s row col)) <->
  existsb (fun mv => atSquare mv.1 mv.2 row col) (legalMovesForSelected s) = true.
Proof.
  unfold renderSquare. cbv zeta. cbn [svChildren]. rewrite in_app_iff. split.
  - intros [Hk|Hd]; [exfalso|destruct (existsb _ _); [reflexivity|destruct Hd]].
    destruct (boardAt _ _ _) as [p|]; [|destruct Hk].
    destruct Hk as [E|Hin]; [discriminate|]. destruct (reviewCurrentTag (review s)) as [tag|]; [|destruct Hin].
    destruct (_ && _)%bool; [|destruct Hin]. destruct Hin as [E|[]].
    unfold annotationIcon in E. cases_in E; discriminate.
  - intros ->. right. now left.
Qed.

Lemma existsb_atSquare (l : list Dest) row col :
  existsb (fun mv => atSquare mv.1 mv.2 row col) l = true <-> In (row, col) l.
Proof.
  rewrite existsb_exists. split.
  - intros ([r c] & Hin & H). unfold atSquare in H. cbn in H. bool_to_prop. now subst.
  - intros Hin. exists (row, col). split; [exact Hin|]. unfold atSquare. cbn. now rewrite !Z.eqb_refl.
Qed.

(** A square shows a move dot exactly when it is kept as a destination of
    the selection. *)
Lemma renderSquare_dot s row col :
  In MoveDot (svChildren (renderSquare s row col)) <-> In (row, col) (legalMovesForSelected s).
Proof.
  rewrite <- existsb_atSquare. apply renderSquare_dot_test.
Qed.

Lemma In_if_single {A} (b : bool) (x y : A) : In x (if b then [y] else []) <-> b = true /\ y = x.
Proof. destruct b; cbn; intuition congruence. Qed.

Lemma atSquare_sel (sel : option (Z * Z)) row col :
  match sel with Some (r, c) => atSquare r c row col | None => false end = true
  <-> sel = Some (row, col).
Proof.
  destruct sel as [[r c]|]; [|split; discriminate]. unfold atSquare.
  rewrite andb_true_iff, !Z.eqb_eq. split; [intros [-> ->]; reflexivity|now intros [= -> ->]].
Qed.

(** The square's class list names it selected exactly when it is the
    selected square. *)
Lemma renderSquare_selected s row col :
  In "selected-square"%string (svClasses (renderSquare s row col)) <-> selectedSquare s = Some (row, col).
Proof.
  unfold renderSquare. cbv zeta. cbn [svClasses]. rewrite <- atSquare_sel.
  rewrite !in_app_iff, !In_if_single. cbn [In].
  destruct (_ =? 0); intuition discriminate.
Qed.

(** A square holding a piece shows it first, by its tag's image. *)
Lemma renderSquare_piece s row col p :
  boardAt (board (gs s)) row col = Some p ->
  exists cls, head (svChildren (renderSquare s row col))
              = Some (PieceDiv ("assets/pieces/" ++ pieceTag p ++ ".png") cls).
Proof. intros Hp. unfold renderSquare. cbv zeta. cbn [svChildren]. rewrite Hp. now eexists. Qed.

Lemma In_renderBoard s v :
  In v (renderBoard s) <->
  exists r c, v = renderSquare s r c /\ 0 <= r < 8 /\ 0 <= c < 8.
Proof.
  unfold renderBoard. rewrite in_map_iff. split.
  - intros ([r c] & <- & Hin%In_squares64). now exists r, c.
  - intros (r & c & -> & Hr & Hc). exists (r, c). split; [reflexivity|]. now apply In_squares64.
Qed.

(** The destinations kept for the selection are the legal destinations
    of the selected square. *)
Lemma selection_dests v s r c :
  sessionInv v s ->
  In (r, c) (legalMovesForSelected s)
  <-> exists fr fc, selectedSquare s = Some (fr, fc) /\ In (r, c) (legalMoves (gs s) fr fc).
Proof.
  intros Hs. pose proof (inv_selection _ _ Hs) as Hl.
  destruct (selectedSquare s) as [[fr fc]|]; rewrite Hl.
  - split; [intros H; now exists fr, fc|intros (? & ? & [= <- <-] & H); exact H].
  - split; [intros []|intros (? & ? & [=] & _)].
Qed.

(** ** What the rendered board shows *)


(** C17: in every reachable session the rendered board shows the state:
    a square carries a move dot exactly when it is a legal destination of
    the selected piece in the current state, it carries the class
    "selected-square" exactly when it is the selected square, and a square
    holding a piece shows first the image named by that piece's tag. *)
Theorem render_reflects_state (m0 : Modals) (s : Session) (v : SquareView) :
  reachable m0 s -> In v (renderBoard s) ->
  (In MoveDot (svChildren v)
   <-> exists fr fc, selectedSquare s = Some (fr, fc) /\ In (svRow v, svCol v) (legalMoves (gs s) fr fc))
  /\ (In "selected-square"%string (svClasses v) <-> selectedSquare s = Some (svRow v, svCol v))
  /\ (forall p, getPiece (board (gs s)) (svRow v) (svCol v) = Some p ->
      exists cls, head (svChildren v) = Some (PieceDiv ("assets/pieces/" ++ pieceTag p ++ ".png") cls)).
Proof.
  intros Hr (r & c & -> & Hrr & Hcc)%In_renderBoard. cbn [svRow svCol].
  split; [|split].
  - rewrite renderSquare_dot. exact (selection_dests _ s r c (reachable_inv m0 s Hr)).
  - apply renderSquare_selected.
  - intros p Hp. apply renderSquare_piece.
    rewrite <- getPiece_in by (apply inBounds_spec; lia). exact Hp.
Qed.

(** C18: a square showing a move dot is a square a click moves to: in
    every reachable session of a page whose game-over dialog does not
    carry the class "visible", outside a game against the engine, a click
    on a square element with a move dot commits the move from the selected
    square to it through [finalizeMove], or opens the promotion dialog for
    it, and that move is legal in the current state. *)
Theorem dot_click_commits (m0 : Modals) (s : Session) (v : SquareView) :
  reachable m0 s -> gameOverVisibleClass m0 = false -> gameMode s <> EngineMode ->
  In v (renderBoard s) -> In MoveDot (svChildren v) ->
  exists fr fc, In (svRow v, svCol v) (legalMoves (gs s) fr fc)
  /\ ((onSquareClick s (svRow v) (svCol v)).1 = (finalizeMove s fr fc (svRow v) (svCol v) None).1
      \/ (onSquareClick s (svRow v) (svCol v)).1
         = openPromotion s fr fc (svRow v) (svCol v)).
Proof.
  intros Hr Hv Hm (r & c & -> & _)%In_renderBoard Hd. cbn [svRow svCol].
  pose proof (reachable_inv m0 s Hr) as Hs. rewrite Hv in Hs.
  apply renderSquare_dot, (selection_dests _ s r c Hs) in Hd as (fr & fc & Hsel & Hl).
  exists fr, fc. split; [exact Hl|]. exact (click_destination s fr fc r c Hs Hm Hsel Hl).
Qed.

Lemma render_reflects_state_witness :
  let m0 := mkModals true true true false "" "" in
  let s := (handle (bootSession m0) (EvClick 6 4)).1 in
  (reachable m0 s /\ In (renderSquare s 4 4) (renderBoard s)
   /\ In MoveDot (svChildren (renderSquare s 4 4)))
  /\ exists fr fc, selectedSquare s = Some (fr, fc) /\ In (4, 4) (legalMoves (gs s) fr fc).
Proof.
  cbv zeta.
  assert (H1 : reachable (mkModals true true true false "" "")
     (handle (bootSession (mkModals true true true false "" "")) (EvClick 6 4)).1)
    by (apply (reach_step _ _ (EvClick 6 4)), reach_boot).
  assert (H2 : In (renderSquare (handle (bootSession (mkModals true true true false "" "")) (EvClick 6 4)).1 4 4)
     (renderBoard (handle (bootSession (mkModals true true true false "" "")) (EvClick 6 4)).1))
    by (apply In_renderBoard; exists 4, 4; split; [reflexivity|lia]).
  assert (H3 : In MoveDot (svChildren
     (renderSquare (handle (bootSession (mkModals true true true false "" "")) (EvClick 6 4)).1 4 4)))
    by (apply renderSquare_dot_test; vm_compute; reflexivity).
  split; [auto|].
  exact (proj1 (proj1 (render_reflects_state _ _ _ H1 H2)) H3).
Defined.

Lemma dot_click_commits_witness :
  let m0 := mkModals true true true false "" "" in
  let s := (handle (bootSession m0) (EvClick 6 4)).1 in
  (reachable m0 s /\ gameOverVisibleClass m0 = false /\ gameMode s <> EngineMode
   /\ In (renderSquare s 4 4) (renderBoard s)
   /\ In MoveDot (svChildren (renderSquare s 4 4)))
  /\ exists fr fc, In (4, 4) (legalMoves (gs s) fr fc)
     /\ ((onSquareClick s 4 4).1 = (finalizeMove s fr fc 4 4 None).1
         \/ (onSquareClick s 4 4).1
            = openPromotion s fr fc 4 4).
Proof.
  cbv zeta.
  assert (H1 : reachable (mkModals true true true false "" "")
     (handle (bootSession (mkModals true true true false "" "")) (EvClick 6 4)).1)
    by (apply (reach_step _ _ (EvClick 6 4)), reach_boot).
  assert (H2 : In (renderSquare (handle (bootSession (mkModals true true true false "" "")) (EvClick 6 4)).1 4 4)
     (renderBoard (handle (bootSession (mkModals true true true false "" "")) (EvClick 6 4)).1))
    by (apply In_renderBoard; exists 4, 4; split; [reflexivity|lia]).
  assert (H3 : In MoveDot (svChildren
     (renderSquare (handle (bootSession (mkModals true true true false "" "")) (EvClick 6 4)).1 4 4)))
    by (apply renderSquare_dot_test; vm_compute; reflexivity).
  assert (H4 : gameMode (handle (bootSession (mkModals true true true false "" "")) (EvClick 6 4)).1
               <> EngineMode) by (vm_compute; discriminate).
  split; [split; [exact H1|split; [reflexivity|auto]]|].
  exact (dot_click_commits _ _ _ H1 eq_refl H4 H2 H3).
Defined.
