(* ===== verification/Page.v ===== *)
(** * The page around the board (renderer.js 4-21, 37-59, 95-99, 128-220, 859-870)

  What the handlers write to the page outside the board's squares: the
  display of the start and stop buttons, the board element's status class
  ("board-check" or "board-mate"), the document's theme, the piece images
  of the promotion options, and the review-mode variables.  The theorems
  show that the status class always matches the position on the board,
  that once a game has been started or stopped the stop button is shown
  exactly while a game is in progress, and that the review variables never
  leave their reset values, so the review annotations of [renderBoard] are
  never drawn. *)

From Stdlib Require Import ZArith Lia List String.
From stdpp Require Import base list decidable strings.
From S2P Require Import Prelude Board Attack MoveGen Apply Legal Position Fen Status Session Game Reach Play Progress Render.

Open Scope Z_scope.

(** The status class the position of [g] calls for, by step 8 of
    [finalizeMove]. *)
Definition markOf (g : GameState) : option BoardMark :=
  boardMarkOf (checkGameOver g (board g) (turn g)) (isKingInCheck (board g) (turn g)).

(** ** What [finalizeMove] writes to the page *)

Lemma finalizeMove_page s fr fc tr tc pp :
  let s' := (finalizeMove s fr fc tr tc pp).1 in
  gameMode s' = gameMode s /\ review s' = review s
  /\ gameButtons (dom s') = gameButtons (dom s) /\ boardMark (dom s') = markOf (gs s').
Proof.
  unfold finalizeMove, markOf.
  destruct (applyMoveOnBoard _ _ _ _ _ _ _) as [[b' g1] res]. cbn zeta.
  remember (checkGameOver _ _ _) as st eqn:E.
  destruct st; [|cbn; rewrite E; auto].
  engine_cases; rewrite E; auto.
Qed.

(** The class is "board-mate" for a king in check with no legal move,
    "board-check" for a king in check otherwise, and none without check. *)
Lemma markOf_spec g :
  markOf g = if isKingInCheck (board g) (turn g)
             then if sideHasAnyLegalMove g (turn g) then Some BoardCheck else Some BoardMate
             else None.
Proof.
  unfold markOf, boardMarkOf, checkGameOver. cbv zeta.
  destruct (isKingInCheck (board g) (turn g)), (sideHasAnyLegalMove g (turn g)); cbn; repeat case_if; reflexivity.
Qed.

(** ** The page invariant *)

(** The parts of a session the page invariant reads. *)
Definition pageFrame (s s' : Session) : Prop :=
  gs s' = gs s /\ boardMark (dom s') = boardMark (dom s)
  /\ gameButtons (dom s') = gameButtons (dom s) /\ gameMode s' = gameMode s /\ review s' = review s.

(** The game buttons follow the game mode once a handler has set them. *)
Definition buttonsOk (s : Session) : Prop :=
  (gameButtons (dom s) = None /\ gameMode s = Idle)
  \/ gameButtons (dom s) = Some (if bool_decide (gameMode s = Idle) then StartShown else StopShown).

Record pageInv (s : Session) : Prop := {
  page_mark : boardMark (dom s) = markOf (gs s);
  page_buttons : buttonsOk s;
  page_review : review s = noReview }.

Lemma pageInv_frame s s' : pageFrame s s' -> pageInv s -> pageInv s'.
Proof.
  intros (Hg & Hm & Hb & Hmo & Hr) [H1 H2 H3]. constructor.
  - rewrite Hm, Hg. exact H1.
  - unfold buttonsOk. rewrite Hb, Hmo. exact H2.
  - rewrite Hr. exact H3.
Qed.

Lemma pageFrame_refl s : pageFrame s s.
Proof. repeat split. Qed.

Lemma pageInv_finalizeMove s fr fc tr tc pp : pageInv s -> pageInv (finalizeMove s fr fc tr tc pp).1.
Proof.
  destruct (finalizeMove_page s fr fc tr tc pp) as (Hmo & Hr & Hb & Hm). intros [H1 H2 H3].
  constructor; [exact Hm| |rewrite Hr; exact H3].
  unfold buttonsOk. rewrite Hb, Hmo. exact H2.
Qed.

Lemma markOf_initial : markOf initialGameState = None.
Proof. vm_compute. reflexivity. Qed.

(** A new game and a stop reset the board, its class and the review
    variables, and show the button of the new mode. *)
Lemma pageInv_startNewGame s p : pageInv (startNewGameFromPayload s p).1.
Proof.
  unfold startNewGameFromPayload. cbv zeta.
  match goal with |- context [maybeEngineMove ?x] =>
    destruct (maybeEngineMove_fst x) as [E|E]; destruct (maybeEngineMove x) as [s3 eff];
    cbn [fst] in E |- *; subst s3 end.
  all: constructor; [apply markOf_initial|right|reflexivity].
  all: cbn; destruct (bool_decide (payloadMode p = _)); reflexivity.
Qed.

Lemma pageInv_endGame s : pageInv (endGameAndResetUI s).1.
Proof. constructor; [apply markOf_initial|right|]; reflexivity. Qed.

Lemma pageInv_boot m0 : pageInv (bootSession m0).
Proof. constructor; [vm_compute; reflexivity|left; split|]; reflexivity. Qed.

(** Each event keeps the page invariant. *)
Lemma pageInv_handle v s e : sessionInv v s -> pageInv s -> pageInv (handle s e).1.
Proof.
  intros Hs Hp. destruct e as [r c|k| |u|p| | | |t|pr]; cbn [handle].
  - destruct (onSquareClick_spec v s r c Hs); cbn [fst];
      first [exact Hp | apply pageInv_finalizeMove, Hp
            | apply (pageInv_frame s); [repeat split|exact Hp]].
  - destruct (onPromotionChoice_fst s k) as [-> | (fr & fc & tr & tc & pp & ->)]; [exact Hp|].
    apply (pageInv_frame (finalizeMove s fr fc tr tc pp).1); [repeat split|].
    apply pageInv_finalizeMove, Hp.
  - apply (pageInv_frame s); [repeat split|exact Hp].
  - destruct (onEngineMove s u) as [[s1 eff] o] eqn:E.
    pose proof (onEngineMove_fst s u) as H. rewrite E in H. cbn [fst] in H |- *.
    assert (pageInv (setEngineThinking s false)) by (apply (pageInv_frame s); [repeat split|exact Hp]).
    destruct H as [-> | (fr & fc & tr & tc & pp & ->)]; [assumption|].
    now apply pageInv_finalizeMove.
  - apply pageInv_startNewGame.
  - apply pageInv_endGame.
  - exact Hp.
  - exact Hp.
  - apply (pageInv_frame s); [repeat split|exact Hp].
  - unfold onPreferences. repeat case_match; cbn [fst];
      first [exact Hp | apply (pageInv_frame s); [repeat split|exact Hp]].
Qed.

Lemma reachable_pageInv m0 s : reachable m0 s -> pageInv s.
Proof.
  induction 1 as [|s e Hr IH]; [apply pageInv_boot|].
  exact (pageInv_handle _ s e (reachable_inv m0 s Hr) IH).
Qed.

(** A square shows no annotation icon when there is no review tag. *)
Lemma renderSquare_no_annotation s r c cls txt :
  reviewCurrentTag (review s) = None -> ~ In (AnnotationIcon cls txt) (svChildren (renderSquare s r c)).
Proof.
  intros Ht. unfold renderSquare. cbv zeta. cbn [svChildren]. rewrite Ht, in_app_iff.
  intros [Hk|Hd]; [destruct (boardAt _ _ _); [destruct Hk as [E|[]]|destruct Hk]|].
  - discriminate.
  - destruct (existsb _ _); [destruct Hd as [E|[]]|destruct Hd]. discriminate.
Qed.

(** ** What the page shows *)

(** C19: in every reachable session the board element's status class
    matches the position: "board-mate" exactly when the side to move is in
    check with no legal move, "board-check" exactly when it is in check
    with a legal move, and neither when it is not in check.  Only
    [finalizeMove] and the reset of a new game or a stop change the board,
    and each sets the class for the position it leaves. *)
Theorem board_status_class (m0 : Modals) (s : Session) :
  reachable m0 s ->
  (boardMark (dom s) = Some BoardMate
   <-> isKingInCheck (board (gs s)) (turn (gs s)) = true
       /\ sideHasAnyLegalMove (gs s) (turn (gs s)) = false)
  /\ (boardMark (dom s) = Some BoardCheck
      <-> isKingInCheck (board (gs s)) (turn (gs s)) = true
          /\ sideHasAnyLegalMove (gs s) (turn (gs s)) = true)
  /\ (boardMark (dom s) = None <-> isKingInCheck (board (gs s)) (turn (gs s)) = false).
Proof.
  intros H. rewrite (page_mark _ (reachable_pageInv m0 s H)), markOf_spec.
  destruct (isKingInCheck _ _), (sideHasAnyLegalMove _ _);
    repeat split; intros; try discriminate; try easy; now destruct H0.
Qed.

Lemma board_status_class_witness :
  let m0 := mkModals true true true false "" "" in
  reachable m0 (bootSession m0)
  /\ (boardMark (dom (bootSession m0)) = None
      <-> isKingInCheck (board (gs (bootSession m0))) (turn (gs (bootSession m0))) = false).
Proof.
  cbv zeta. assert (H := reach_boot (mkModals true true true false "" "")).
  split; [exact H|]. exact (proj2 (proj2 (board_status_class _ _ H))).
Defined.

(** C20: in every reachable session the stop button is displayed exactly
    while a game is in progress: the new-game message shows it and hides
    the start button, the stop button hides it and shows the start button,
    and no other event changes the mode or the buttons. *)
Theorem stop_button_while_playing (m0 : Modals) (s : Session) :
  reachable m0 s -> gameButtons (dom s) = Some StopShown <-> gameMode s <> Idle.
Proof.
  intros H. destruct (page_buttons _ (reachable_pageInv m0 s H)) as [[-> ->]| ->].
  - split; [discriminate|tauto].
  - case_bool_decide; split; congruence.
Qed.

Lemma stop_button_while_playing_witness :
  let m0 := mkModals true true true false "" "" in
  let s := (handle (bootSession m0) (EvNewGame (mkPayload (Some "human"%string) None None))).1 in
  reachable m0 s /\ (gameButtons (dom s) = Some StopShown <-> gameMode s <> Idle).
Proof.
  cbv zeta.
  assert (H : reachable (mkModals true true true false "" "")
    (handle (bootSession (mkModals true true true false "" ""))
       (EvNewGame (mkPayload (Some "human"%string) None None))).1)
    by (apply reach_step, reach_boot).
  split; [exact H|]. exact (stop_button_while_playing _ _ H).
Defined.

(** C21: review mode is dead code: in every reachable session the review
    variables keep their reset values ([reviewGame] and [reviewCurrentTag]
    null, [reviewIndex] -1), so no square of the rendered board ever
    carries a review annotation icon. *)
Theorem review_never_shown (m0 : Modals) (s : Session) :
  reachable m0 s ->
  review s = noReview
  /\ forall v cls txt, In v (renderBoard s) -> ~ In (AnnotationIcon cls txt) (svChildren v).
Proof.
  intros H. pose proof (page_review _ (reachable_pageInv m0 s H)) as Hr.
  split; [exact Hr|]. intros v cls txt (r & c & -> & _)%In_renderBoard.
  apply renderSquare_no_annotation. now rewrite Hr.
Qed.

Lemma review_never_shown_witness :
  let m0 := mkModals true true true false "" "" in
  reachable m0 (bootSession m0) /\ review (bootSession m0) = noReview.
Proof.
  cbv zeta. assert (H := reach_boot (mkModals true true true false "" "")).
  split; [exact H|]. exact (proj1 (review_never_shown _ _ H)).
Defined.
