(* ===== verification/Engine.v ===== *)
(** * Games against an engine (renderer.js 188-215, 888-900, 953-998)

  In a game against an engine the clicks of the human are refused while
  it is the engine's turn, and the engine is asked to move by
  [maybeEngineMove].  The theorems show that a click in such a game only
  ever commits a legal move of one of the human's pieces, and that a game
  started without an engine identifier, with the human playing Black,
  never moves at all: the engine is never asked, and the human may not. *)

From Stdlib Require Import ZArith Lia List String.
From stdpp Require Import base list decidable strings.
From S2P Require Import Prelude Board Attack MoveGen AttackSpec Kings Apply Legal Position Fen Status Session Game Reach Play Progress.

Open Scope Z_scope.

(** ** A game against an engine that has no identifier *)

(** The session of an engine game with White (the engine) to move, no
    move made, and no promotion pending, over the engine state [g]. *)
Definition waitingForEngine (g : GameState) (s : Session) : Prop :=
  gs s = g /\ gameMoves s = [] /\ promotionPending s = None
  /\ gameMode s = EngineMode /\ humanColor s = Black /\ turn g = White.

(** While the engine is to move, every click is refused. *)
Lemma click_refused_engine_turn s r c :
  gameMode s = EngineMode -> turn (gs s) <> humanColor s -> onSquareClick s r c = (s, []).
Proof.
  intros Hm Ht. unfold onSquareClick. cbv zeta. rewrite Hm, (bool_decide_eq_true_2 (EngineMode = EngineMode)) by reflexivity.
  rewrite (bool_decide_eq_false_2 (turn (gs s) = humanColor s) Ht).
  destruct (_ || _)%bool; [reflexivity|]. destruct (_ && _)%bool; reflexivity.
Qed.

Lemma waitingForEngine_step g s s' :
  waitingForEngine g s -> humanStep s s' -> waitingForEngine g s'.
Proof.
  intros Hw H. destruct H as [s0 r c _|s0 k|s0 _].
  - pose proof Hw as (Hg & _ & _ & Hm & Hh & Ht).
    rewrite (click_refused_engine_turn s0 r c Hm); [exact Hw|]. rewrite Hg, Ht, Hh. discriminate.
  - destruct Hw as (Hg & Hmv & Hp & Hrest). unfold onPromotionChoice. rewrite Hp.
    exact (conj Hg (conj Hmv (conj Hp Hrest))).
  - exact Hw.
Qed.

Lemma startNewGame_waiting s p :
  promotionPending s = None -> payloadMode p = Some "engine"%string ->
  payloadEngineId p = None -> payloadHumanColor p = Some "b"%string ->
  waitingForEngine initialGameState (startNewGameFromPayload s p).1.
Proof.
  intros Hp Hm He Hh. unfold startNewGameFromPayload, maybeEngineMove.
  rewrite Hm, He, Hh, !bool_decide_eq_true_2 by reflexivity. cbn.
  unfold waitingForEngine. cbn. auto 7.
Qed.



(** ** The human moves only the human's pieces *)

(** The clicks that leave the move list as it was. *)
Lemma click_keeps_moves v s r c :
  sessionInv v s -> gameMoves (onSquareClick s r c).1 <> gameMoves s ->
  exists fr fc, selectedSquare s = Some (fr, fc) /\ In (r, c) (legalMoves (gs s) fr fc).
Proof.
  intros Hs Hne. destruct (onSquareClick_spec v s r c Hs) as [| |p _ _|fr fc _ _ _|fr fc Hsel Hl];
    cbn [fst] in Hne; try (exfalso; apply Hne; reflexivity).
  now exists fr, fc.
Qed.

(** C33: in a game against the engine, a click commits only a legal move of
    one of the human's pieces: in every reachable session in engine mode, a
    click that adds a move to the move list moves a piece of the human's
    colour from the selected square to a destination the legality filter
    accepts, since every click is refused while it is the engine's turn. *)
Theorem engine_game_clicks_move_human_pieces (m0 : Modals) (s : Session) (r c : Z) :
  reachable m0 s -> gameMode s = EngineMode ->
  gameMoves (onSquareClick s r c).1 <> gameMoves s ->
  exists fr fc p, selectedSquare s = Some (fr, fc) /\ getPiece (board (gs s)) fr fc = Some p
    /\ pcolor p = humanColor s /\ In (r, c) (legalMoves (gs s) fr fc).
Proof.
  intros Hr Hm Hne.
  destruct (decide (turn (gs s) = humanColor s)) as [Ht|Ht];
    [|rewrite (click_refused_engine_turn s r c Hm Ht) in Hne; contradiction].
  destruct (click_keeps_moves _ s r c (reachable_inv m0 s Hr) Hne) as (fr & fc & Hsel & Hl).
  destruct (legalMoves_sound _ _ _ _ Hl) as (p & Hp & Hc & _).
  exists fr, fc, p. rewrite <- Ht. auto.
Qed.

Lemma engine_game_clicks_move_human_pieces_witness :
  let m0 := mkModals true true true false "" "" in
  let s := (handle (handle (bootSession m0)
              (EvNewGame (mkPayload (Some "engine"%string) (Some "stockfish"%string) (Some "w"%string)))).1
              (EvClick 6 4)).1 in
  (reachable m0 s /\ gameMode s = EngineMode /\ gameMoves (onSquareClick s 4 4).1 <> gameMoves s)
  /\ exists fr fc p, selectedSquare s = Some (fr, fc) /\ getPiece (board (gs s)) fr fc = Some p
       /\ pcolor p = humanColor s /\ In (4, 4) (legalMoves (gs s) fr fc).
Proof.
  cbv zeta.
  assert (H1 : reachable (mkModals true true true false "" "")
    (handle (handle (bootSession (mkModals true true true false "" ""))
       (EvNewGame (mkPayload (Some "engine"%string) (Some "stockfish"%string) (Some "w"%string)))).1
       (EvClick 6 4)).1)
    by (apply (reach_step _ _ (EvClick 6 4)), reach_step, reach_boot).
  assert (H2 : gameMode (handle (handle (bootSession (mkModals true true true false "" ""))
       (EvNewGame (mkPayload (Some "engine"%string) (Some "stockfish"%string) (Some "w"%string)))).1
       (EvClick 6 4)).1 = EngineMode) by reflexivity.
  assert (H3 : gameMoves (onSquareClick (handle (handle (bootSession (mkModals true true true false "" ""))
       (EvNewGame (mkPayload (Some "engine"%string) (Some "stockfish"%string) (Some "w"%string)))).1
       (EvClick 6 4)).1 4 4).1
    <> gameMoves (handle (handle (bootSession (mkModals true true true false "" ""))
       (EvNewGame (mkPayload (Some "engine"%string) (Some "stockfish"%string) (Some "w"%string)))).1
       (EvClick 6 4)).1) by (vm_compute; discriminate).
  split; [auto|]. exact (engine_game_clicks_move_human_pieces _ _ 4 4 H1 H2 H3).
Defined.
