(* ===== verification/Scenarios.v ===== *)
(** * Scenarios: whole games played through the handlers

  Sessions are driven by the click handler exactly as the board's squares
  call it, starting from a human-versus-human game opened by
  [startNewGameFromPayload].  The boot session holds the initial values of
  the module-level variables (renderer.js 80-125); the modal dialogs start
  hidden, without the class "visible" (their markup is not part of the
  sources).  The theorems are the test scenarios of section 8 of the
  specification, and the runs that show where the code departs from it. *)

From Stdlib Require Import ZArith Lia List String Ascii.
From stdpp Require Import base list decidable strings.
From S2P Require Import Prelude Board Attack MoveGen Apply Legal Fen Status Session Game Reach.

Open Scope Z_scope.

Definition modals0 : Modals := mkModals true true true false "" "".

Definition humanGame : Session :=
  (startNewGameFromPayload (bootSession modals0) (mkPayload (Some "human"%string) None None)).1.

(** Clicks on squares, in order, collecting the effects. *)
Definition clicks (s : Session) (l : list (Z * Z)) : Session * list Effect :=
  fold_left (fun acc rc => let '(s1, e1) := onSquareClick acc.1 rc.1 rc.2 in (s1, acc.2 ++ e1))
    l (s, []).

Definition noCastling : CastlingRights := mkCastlingRights false false false false.

(** A human game from a given position, its history seeded as
    [resetBoardState] seeds it. *)
Definition customGame (b : Board) (t : Color) : Session :=
  let g0 := mkGameState b t noCastling None 0 1 [] in
  setGs humanGame (setHistory g0 [boardToFEN g0 b t]).

(** 1. f3 e5 2. g4 Qh4#, as pairs of clicks (select, destination). *)
Definition foolsMate : list (Z * Z) :=
  [(6,5); (5,5); (1,4); (3,4); (6,6); (4,6); (0,3); (4,7)].


(** Ng1-f3, Ng8-f6, Nf3-g1, Nf6-g8: the knights out and back. *)
Definition knightShuffle : list (Z * Z) :=
  [(7,6); (5,5); (0,6); (2,5); (5,5); (7,6); (2,5); (0,6)].


(** 1. e4 a6 2. e5 d5: Black's pawn passes e5 by two rows. *)
Definition toEnPassant : list (Z * Z) :=
  [(6,4); (4,4); (1,0); (2,0); (4,4); (3,4); (1,3); (3,3)].

(** 3. h3 h6: both sides play elsewhere. *)
Definition declineEnPassant : list (Z * Z) := [(6,7); (5,7); (1,7); (2,7)].

(** En passant is available for exactly one ply: right after 2... d5
    the pawn on e5 may capture on d6, and after 3. h3 h6 it no longer may
    (the target was cleared by the intervening moves). *)
Theorem enPassant_one_ply :
  In (2, 3) (legalMoves (gs (clicks humanGame toEnPassant).1) 3 4)
  /\ ~ In (2, 3) (legalMoves (gs (clicks humanGame (toEnPassant ++ declineEnPassant)).1) 3 4).
Proof. vm_compute. split; [auto|intuition discriminate]. Qed.

(** Black king a8, White king b6 and pawn a7; Black to move. *)
Definition stalemateBoard : Board :=
  [ [bK; ee; ee; ee; ee; ee; ee; ee];
    [wP; ee; ee; ee; ee; ee; ee; ee];
    [ee; wK; ee; ee; ee; ee; ee; ee];
    [ee; ee; ee; ee; ee; ee; ee; ee];
    [ee; ee; ee; ee; ee; ee; ee; ee];
    [ee; ee; ee; ee; ee; ee; ee; ee];
    [ee; ee; ee; ee; ee; ee; ee; ee];
    [ee; ee; ee; ee; ee; ee; ee; ee] ].

(** Stalemate, not checkmate: in the king-and-pawn position where Black
    to move is not in check and has no legal move, the evaluator reports
    [Stalemate], a draw. *)
Theorem stalemate_reported :
  let g := mkGameState stalemateBoard Black noCastling None 0 1 [] in
  isKingInCheck stalemateBoard Black = false
  /\ checkGameOver g stalemateBoard Black = Over Stalemate WinnerDraw.
Proof. vm_compute. split; reflexivity. Qed.

Definition kingsOnly : Board :=
  [ [ee; ee; ee; ee; bK; ee; ee; ee];
    [ee; ee; ee; ee; ee; ee; ee; ee];
    [ee; ee; ee; ee; ee; ee; ee; ee];
    [ee; ee; ee; ee; ee; ee; ee; ee];
    [ee; ee; ee; ee; ee; ee; ee; ee];
    [ee; ee; ee; ee; ee; ee; ee; ee];
    [ee; ee; ee; ee; ee; ee; ee; ee];
    [ee; ee; ee; ee; wK; ee; ee; ee] ].

Definition kingKnightKing : Board :=
  [ [ee; ee; ee; ee; bK; ee; ee; ee];
    [ee; ee; ee; ee; ee; ee; ee; ee];
    [ee; ee; ee; ee; ee; ee; ee; ee];
    [ee; ee; ee; ee; ee; ee; ee; ee];
    [ee; ee; ee; ee; ee; ee; ee; ee];
    [ee; ee; ee; ee; ee; ee; ee; ee];
    [ee; ee; ee; ee; ee; ee; ee; ee];
    [ee; ee; ee; ee; wK; ee; wN; ee] ].

Lemma insufficient_any_clocks (b : Board) (h f : nat) (hist : list string) :
  sideHasAnyLegalMove (mkGameState b White noCastling None 0 1 []) White = true ->
  checkInsufficientMaterial b = true ->
  checkGameOver (mkGameState b White noCastling None h f hist) b White
  = Over InsufficientMaterial WinnerDraw.
Proof.
  intros Hm Hi. unfold checkGameOver.
  rewrite (sideHasAnyLegalMove_ext _ (mkGameState b White noCastling None 0 1 [])) by reflexivity.
  now rewrite Hm, Hi.
Qed.

(** Insufficient material: king against king, and king and knight
    against king, are drawn at once whatever the clocks and the history
    (even past the fifty-move limit). *)
Theorem insufficient_material_draws (h f : nat) (hist : list string) :
  checkGameOver (mkGameState kingsOnly White noCastling None h f hist) kingsOnly White
    = Over InsufficientMaterial WinnerDraw
  /\ checkGameOver (mkGameState kingKnightKing White noCastling None h f hist) kingKnightKing White
    = Over InsufficientMaterial WinnerDraw.
Proof. split; apply insufficient_any_clocks; vm_compute; reflexivity. Qed.

(** ** Where the code departs from the specification *)

(** Black king h8 behind its pawns g7 and h7; White pawn a7, king e1. *)
Definition backRankBoard : Board :=
  [ [ee; ee; ee; ee; ee; ee; ee; bK];
    [wP; ee; ee; ee; ee; ee; bP; bP];
    [ee; ee; ee; ee; ee; ee; ee; ee];
    [ee; ee; ee; ee; ee; ee; ee; ee];
    [ee; ee; ee; ee; ee; ee; ee; ee];
    [ee; ee; ee; ee; ee; ee; ee; ee];
    [ee; ee; ee; ee; ee; ee; ee; ee];
    [ee; ee; ee; ee; wK; ee; ee; ee] ].


Definition engineGame : Session :=
  (startNewGameFromPayload (bootSession modals0)
     (mkPayload (Some "engine"%string) (Some "stockfish"%string) (Some "w"%string))).1.



(** 1. d4 e5 2. dxe5 Ke7 3. a3 Ke6 4. a4 Kf5 5. e6 a6 6. e7 a5, then the
    pawn of e7 is sent to e8, which opens the promotion dialog. *)
Definition pawnToE8 : list (Z * Z) :=
  [(6,3); (4,3); (1,4); (3,4); (4,3); (3,4); (0,4); (1,4); (6,0); (5,0); (1,4); (2,4);
   (5,0); (4,0); (2,4); (3,5); (3,4); (2,4); (1,0); (2,0); (2,4); (1,4); (2,0); (3,0);
   (1,4); (0,4)].

Definition humanPayload : Payload := mkPayload (Some "human"%string) None None.

